(** * Daily Orbit: the time-indexed waypoint graph, its index builder and the
    gap-collapsing timeline builder

    A shallow embedding of [timewalk.ts], [timewalkService.ts] and
    [globalModeBuilder.ts], together with the parts of the host platform the
    code relies on (ECMAScript [Date], [Array.prototype.sort], the two regular
    expressions, and the handful of moment.js operations that are called),
    and of the metadata and navbar registry of [main.ts]. *)

From Stdlib Require Import ZArith Lia Bool List Ascii String Permutation Sorted.
From stdpp Require Import base gmap strings pretty.
Import ListNotations.

Local Open Scope Z_scope.

(** ** ECMAScript numbers and dates *)

Module Js.

(** The numbers this code handles are time values, their differences and
    whole-day quotients: integral doubles, or NaN. *)
Inductive Number := NaN | Num (z : Z).

Definition isNaN (n : Number) : bool :=
  match n with NaN => true | Num _ => false end.

(** [a - b] on numbers.  On time values the double subtraction may round,
    but it never changes the sign of the exact difference, which is all the
    sort comparator looks at. *)
Definition sub (a b : Number) : Number :=
  match a, b with
  | Num x, Num y => Num (x - y)
  | _, _ => NaN
  end.

Definition add (a b : Number) : Number :=
  match a, b with
  | Num x, Num y => Num (x + y)
  | _, _ => NaN
  end.

(** [a === b] on numbers: NaN is different from everything, itself
    included. *)
Definition strictEq (a b : Number) : bool :=
  match a, b with
  | Num x, Num y => x =? y
  | _, _ => false
  end.

(** [a <= b] on numbers: false as soon as one side is NaN. *)
Definition le (a b : Number) : Prop :=
  match a, b with
  | Num x, Num y => x <= y
  | _, _ => False
  end.

Definition msPerDay : Z := 86400000.

(** [TimeClip]: a time value is NaN or an integer of magnitude at most
    8.64e15. *)
Definition TimeClip (n : Number) : Number :=
  match n with
  | NaN => NaN
  | Num t => if Z.abs t <=? 8640000000000000 then Num t else NaN
  end.

Record Date := mkDate { getTime : Number }.

(** [new Date(value)] *)
Definition newDate (value : Number) : Date := mkDate (TimeClip value).

(** [Day(t)] and the calendar arithmetic of ECMA-262, 21.4.1. *)
Definition Day (t : Z) : Z := t / msPerDay.
Definition TimeWithinDay (t : Z) : Z := t mod msPerDay.

Definition DayFromYear (y : Z) : Z :=
  365 * (y - 1970) + (y - 1969) / 4 - (y - 1901) / 100 + (y - 1601) / 400.

Definition isLeapYear (y : Z) : bool :=
  (y mod 4 =? 0) && (negb (y mod 100 =? 0) || (y mod 400 =? 0)).

(** Days of the year that precede month [mn] (0 = January). *)
Definition daysBeforeMonth (leap : bool) (mn : Z) : Z :=
  let l := if leap then 1 else 0 in
  match mn with
  | 0 => 0
  | 1 => 31
  | 2 => 59 + l
  | 3 => 90 + l
  | 4 => 120 + l
  | 5 => 151 + l
  | 6 => 181 + l
  | 7 => 212 + l
  | 8 => 243 + l
  | 9 => 273 + l
  | 10 => 304 + l
  | _ => 334 + l
  end.

Definition daysInMonth (y mn : Z) : Z :=
  if mn =? 1 then (if isLeapYear y then 29 else 28)
  else if (mn =? 3) || (mn =? 5) || (mn =? 8) || (mn =? 10) then 30
  else 31.

(** [MakeDay(year, month, date)]: months outside 0..11 carry into the
    year, days outside the month carry into neighbouring months. *)
Definition MakeDay (year month date : Z) : Z :=
  let ym := year + month / 12 in
  let mn := month mod 12 in
  DayFromYear ym + daysBeforeMonth (isLeapYear ym) mn + date - 1.

Definition MakeDate (day time : Z) : Z := day * msPerDay + time.

(** [Date.UTC(year, month, date)]: a year in 0..99 means 1900 + year. *)
Definition Date_UTC (year month date : Z) : Number :=
  let yr := if (0 <=? year) && (year <=? 99) then 1900 + year else year in
  TimeClip (Num (MakeDate (MakeDay yr month date) 0)).

(** The civil date (year, month 1..12, day of month) of a day number. *)
Definition civil_from_days (n : Z) : Z * Z * Z :=
  let z := n + 719468 in
  let era := z / 146097 in
  let doe := z mod 146097 in
  let yoe := (doe - doe / 1460 + doe / 36524 - doe / 146096) / 365 in
  let doy := doe - (365 * yoe + yoe / 4 - yoe / 100) in
  let mp := (5 * doy + 2) / 153 in
  let d := doy - (153 * mp + 2) / 5 + 1 in
  let m := if mp <? 10 then mp + 3 else mp - 9 in
  let y := yoe + era * 400 + (if m <=? 2 then 1 else 0) in
  (y, m, d).

Definition YearFromTime (t : Z) : Z := fst (fst (civil_from_days (Day t))).
Definition MonthFromTime (t : Z) : Z := snd (fst (civil_from_days (Day t))) - 1.
Definition DateFromTime (t : Z) : Z := snd (civil_from_days (Day t)).

Section LocalTime.
(** [LocalTZA(t, isUTC)]: the host's offset from UTC in milliseconds,
    at a UTC instant ([isUTC = true]) or at a local time value. *)
Variable LocalTZA : Z -> bool -> Z.

Definition LocalTime (t : Z) : Z := t + LocalTZA t true.
Definition UTC (t : Z) : Z := t - LocalTZA t false.

Definition lift (f : Z -> Z) (d : Date) : Number :=
  match getTime d with
  | NaN => NaN
  | Num t => Num (f t)
  end.

Definition getFullYear (d : Date) : Number := lift (fun t => YearFromTime (LocalTime t)) d.
Definition getMonth (d : Date) : Number := lift (fun t => MonthFromTime (LocalTime t)) d.
Definition getDate (d : Date) : Number := lift (fun t => DateFromTime (LocalTime t)) d.
End LocalTime.

Definition getUTCFullYear (d : Date) : Number := lift YearFromTime d.
Definition getUTCMonth (d : Date) : Number := lift MonthFromTime d.
Definition getUTCDate (d : Date) : Number := lift DateFromTime d.

(** *** [Array.prototype.sort]

    [SortCompare] calls the comparator and reads NaN as +0.  The sort is
    stable; the model is the insertion sort that places every element
    behind the elements that do not compare greater.  When the comparator
    is not consistent (a NaN time makes an element equal to everything)
    ECMA-262 leaves the order to the engine, and only the fact that the
    result is a rearrangement of the input is relied on. *)
Section Sort.
Context {A : Type} (comparefn : A -> A -> Number).

Definition SortCompare (x y : A) : Z :=
  match comparefn x y with
  | NaN => 0
  | Num v => v
  end.

Fixpoint insert (x : A) (sorted : list A) : list A :=
  match sorted with
  | [] => [x]
  | y :: rest =>
      if SortCompare x y <? 0 then x :: y :: rest else y :: insert x rest
  end.

Definition sort (l : list A) : list A :=
  fold_left (fun acc x => insert x acc) l [].
End Sort.

End Js.

Export Js.

(** ** timewalk.ts: waypoints and the traversal engine *)

(** The host's file handle; the code only reads [path]. *)
Record TFile := mkTFile { path : string }.

#[local] Set Warnings "-register-all".

(** The three implementations of the [Waypoint] interface.  [time()] is
    declared to return a [Date], so every waypoint has one; it may be an
    invalid date. *)
Inductive Waypoint :=
| ObsidianFileWaypoint (file : TFile) (fileDate : Date)
| StringWaypoint (id : string) (date : Date)
| GroupWaypoint (id : string) (childNodes : list Waypoint) (groupTime : option Date).

Definition identifier (w : Waypoint) : string :=
  match w with
  | ObsidianFileWaypoint f _ => path f
  | StringWaypoint id _ => id
  | GroupWaypoint id _ _ => id
  end.

Definition isContainer (w : Waypoint) : bool :=
  match w with
  | GroupWaypoint _ _ _ => true
  | _ => false
  end.

Definition children (w : Waypoint) : list Waypoint :=
  match w with
  | GroupWaypoint _ cs _ => cs
  | _ => []
  end.

(** [times.filter(t => !isNaN(t))] *)
Fixpoint dropNaN (times : list Number) : list Z :=
  match times with
  | [] => []
  | NaN :: rest => dropNaN rest
  | Num t :: rest => t :: dropNaN rest
  end.

(** [Math.min(...times)] on a non-empty list of numbers other than NaN. *)
Definition Math_min (first : Z) (others : list Z) : Z :=
  fold_left Z.min others first.

(** [time()].  A [Date] object is truthy even when it is invalid, so
    [if (this.groupTime)] only asks whether the argument was given. *)
Fixpoint time (w : Waypoint) : Date :=
  match w with
  | ObsidianFileWaypoint _ fileDate => fileDate
  | StringWaypoint _ date => date
  | GroupWaypoint _ _ (Some groupTime) => groupTime
  | GroupWaypoint _ childNodes None =>
      match childNodes with
      | [] => newDate (Num 0)
      | _ =>
          match dropNaN (List.map (fun c => getTime (time c)) childNodes) with
          | [] => newDate (Num 0)
          | t :: ts => newDate (Num (Math_min t ts))
          end
      end
  end.

(** [addChild(waypoint)] of a group with the given fields:
    [this.childNodes.push(waypoint)]. *)
Definition addChild (id : string) (childNodes : list Waypoint) (groupTime : option Date)
    (waypoint : Waypoint) : Waypoint :=
  GroupWaypoint id (childNodes ++ [waypoint]) groupTime.

Inductive Direction := past | future.
Inductive Filter := all | leaves | containers.

Record TraverseOptions := mkOptions {
  direction : option Direction;
  filter : option Filter;
  includeNonCalendar : option bool
}.

(** The defaults of the destructuring in [traverse]. *)
Definition directionOf (o : TraverseOptions) : Direction := default past (direction o).
Definition filterOf (o : TraverseOptions) : Filter := default all (filter o).
Definition includeNonCalendarOf (o : TraverseOptions) : bool :=
  default false (includeNonCalendar o).

Record Timewalk := mkTimewalk { root : Waypoint }.

(** [collectAllChildren]: the node, then the flattening of each child in
    turn. *)
Fixpoint collectAllChildren (waypoint : Waypoint) : list Waypoint :=
  match waypoint with
  | GroupWaypoint _ childNodes _ =>
      waypoint :: flat_map collectAllChildren childNodes
  | _ => [waypoint]
  end.

(** The predicate given to [allNodes.filter] in [traverse].  [!time] is
    false for every [Date]. *)
Definition keepNode (f : Filter) (nonCalendar : bool) (node : Waypoint) : bool :=
  match f, isContainer node with
  | leaves, true => false
  | containers, false => false
  | _, _ =>
      if negb nonCalendar && negb (isContainer node) then
        let t := getTime (time node) in
        if strictEq t (Num 0) || isNaN t then false else true
      else true
  end.

(** The comparator given to [filtered.sort]. *)
Definition byTime (d : Direction) (a b : Waypoint) : Number :=
  let timeA := getTime (time a) in
  let timeB := getTime (time b) in
  match d with
  | past => sub timeB timeA
  | future => sub timeA timeB
  end.

(** [filtered] before it is sorted. *)
Definition filtered (tw : Timewalk) (o : TraverseOptions) : list Waypoint :=
  let allNodes := collectAllChildren (root tw) in
  List.filter (keepNode (filterOf o) (includeNonCalendarOf o)) allNodes.

(** The nodes [traverse] hands to the callback, in call order. *)
Definition visited (tw : Timewalk) (o : TraverseOptions) : list Waypoint :=
  sort (byTime (directionOf o)) (filtered tw o).

(** [traverse(callback, options)]: the callback is a state transformer of
    the caller's state. *)
Definition traverse {S : Type} (tw : Timewalk) (callback : Waypoint -> S -> S)
    (o : TraverseOptions) (s : S) : S :=
  fold_left (fun acc node => callback node acc) (visited tw o) s.

(** [navigate] and [find] accept a [Date] or a string. *)
Inductive DateOrString := ofDate (d : Date) | ofString (s : string).

Section Timewalk.
Variable LocalTZA : Z -> bool -> Z.
(** [Date.parse]: what [new Date(string)] makes of a string, NaN when
    it cannot be read as a date. *)
Variable Date_parse : string -> Number.

Definition toTarget (targetTime : DateOrString) : Date :=
  match targetTime with
  | ofDate d => d
  | ofString s => newDate (Date_parse s)
  end.

(** The [for] loop of [navigate]. *)
Fixpoint navigateLoop (targetTimestamp : Number) (allNodes : list Waypoint)
    : option Waypoint :=
  match allNodes with
  | [] => None
  | node :: rest =>
      if isContainer node then navigateLoop targetTimestamp rest
      else if strictEq (getTime (time node)) targetTimestamp then Some node
      else navigateLoop targetTimestamp rest
  end.

Definition navigate (tw : Timewalk) (targetTime : DateOrString) : option Waypoint :=
  let target := toTarget targetTime in
  let targetTimestamp := getTime target in
  navigateLoop targetTimestamp (collectAllChildren (root tw)).

Definition isSameDay (date1 date2 : Date) : bool :=
  strictEq (getFullYear LocalTZA date1) (getFullYear LocalTZA date2) &&
  strictEq (getMonth LocalTZA date1) (getMonth LocalTZA date2) &&
  strictEq (getDate LocalTZA date1) (getDate LocalTZA date2).

Definition find (tw : Timewalk) (targetTime : DateOrString) : list Waypoint :=
  let target := toTarget targetTime in
  List.filter
    (fun node => if isContainer node then false else isSameDay (time node) target)
    (collectAllChildren (root tw)).
End Timewalk.

(** ** The daily-note path pattern

    Paths are strings of 8-bit code units.  The two expressions
    [/(\d{4})\/(\d{2})\.\s*\w+\/(\d{2})\s+\w+\.md$/] (used by [test]) and
    [/(\d{4})\/(\d{2})\.\s*\w+\/(\d{2})\s+\w+/] (used by [match]) are
    unanchored on the left: the engine tries every start position from left
    to right.  From a fixed start the match is deterministic, because every
    greedy repetition is followed by something outside its character class,
    so giving back characters can never help. *)

Module Pattern.

Definition code (c : ascii) : Z := Z.of_N (N_of_ascii c).

(** [\d] *)
Definition isDigit (c : ascii) : bool := (48 <=? code c) && (code c <=? 57).

(** [\w] *)
Definition isWordChar (c : ascii) : bool :=
  isDigit c
  || ((65 <=? code c) && (code c <=? 90))
  || ((97 <=? code c) && (code c <=? 122))
  || (code c =? 95).

(** [\s], as far as code units below 256 go: TAB, LF, VT, FF, CR, space
    and the no-break space. *)
Definition isWhiteSpace (c : ascii) : bool :=
  ((9 <=? code c) && (code c <=? 13)) || (code c =? 32) || (code c =? 160).

(** [\d{k}] *)
Fixpoint digits (k : nat) (s : string) : option (string * string) :=
  match k with
  | O => Some (EmptyString, s)
  | S k' =>
      match s with
      | String c s' =>
          if isDigit c then
            match digits k' s' with
            | Some (ds, rest) => Some (String c ds, rest)
            | None => None
            end
          else None
      | EmptyString => None
      end
  end.

(** A literal character. *)
Definition char (c : ascii) (s : string) : option string :=
  match s with
  | String c' s' => if Ascii.eqb c c' then Some s' else None
  | EmptyString => None
  end.

(** [p*], greedy. *)
Fixpoint many (p : ascii -> bool) (s : string) : string :=
  match s with
  | String c s' => if p c then many p s' else s
  | EmptyString => s
  end.

(** [p+], greedy. *)
Definition many1 (p : ascii -> bool) (s : string) : option string :=
  match s with
  | String c s' => if p c then Some (many p s') else None
  | EmptyString => None
  end.

(** [(\d{4})\/(\d{2})\.\s*\w+\/(\d{2})\s+\w+] from the start of [s]: the
    three captures and what follows the match. *)
Definition dailyNoteHere (s : string) : option (string * string * string * string) :=
  '(year, s) ← digits 4 s;
  s ← char "/"%char s;
  '(month, s) ← digits 2 s;
  s ← char "."%char s;
  s ← many1 isWordChar (many isWhiteSpace s);
  s ← char "/"%char s;
  '(day, s) ← digits 2 s;
  s ← many1 isWhiteSpace s;
  s ← many1 isWordChar s;
  Some (year, month, day, s).

(** The same followed by [\.md$]. *)
Definition dailyNoteFileHere (s : string) : option unit :=
  '(_, _, _, rest) ← dailyNoteHere s;
  if String.eqb rest ".md"%string then Some tt else None.

(** The leftmost start position at which [m] matches. *)
Fixpoint search {R : Type} (m : string -> option R) (s : string) : option R :=
  match m s with
  | Some r => Some r
  | None =>
      match s with
      | String _ s' => search m s'
      | EmptyString => None
      end
  end.

(** [dailyNotePattern.test(path)] *)
Definition dailyNotePattern_test (p : string) : bool :=
  match search dailyNoteFileHere p with Some _ => true | None => false end.

(** [path.match(/(\d{4})\/(\d{2})\.\s*\w+\/(\d{2})\s+\w+/)]: the captures
    [year], [month], [day]. *)
Definition pathMatch (p : string) : option (string * string * string) :=
  '(year, month, day, _) ← search dailyNoteHere p;
  Some (year, month, day).

(** [parseInt] on a capture.  The captures consist of decimal digits, so
    the sign, white space and radix prefixes that [parseInt] also accepts
    do not occur; the digits read up to the first other character, and
    the result is NaN when there is none. *)
Fixpoint parseDigits (acc : Z) (s : string) : Z :=
  match s with
  | String c s' => if isDigit c then parseDigits (10 * acc + (code c - 48)) s' else acc
  | EmptyString => acc
  end.

Definition parseInt (s : string) : Number :=
  match s with
  | String c _ => if isDigit c then Num (parseDigits 0 s) else NaN
  | EmptyString => NaN
  end.
End Pattern.

Export Pattern.

(** [Date.UTC] on numbers: NaN as soon as an argument is NaN. *)
Definition Date_UTC_of (year month date : Number) : Number :=
  match year, month, date with
  | Num y, Num m, Num d => Date_UTC y m d
  | _, _, _ => NaN
  end.

(** ** moment.js, as far as it is called *)

Record Moment := mkMoment { _d : Date; _isUTC : bool }.

(** What [format('YYYY-MM-DD')] prints: the text [Invalid date], or a year,
    month and day, each of which the printed text determines. *)
Inductive DayStamp := InvalidDate | YMD (y m d : Z).

#[global] Instance DayStamp_eq_dec : EqDecision DayStamp.
Proof. solve_decision. Defined.

Section Moment.
Variable LocalTZA : Z -> bool -> Z.

(** [moment(date)]: local mode. *)
Definition moment (date : Date) : Moment := mkMoment date false.

(** [moment.utc(date)]: UTC mode. *)
Definition moment_utc (date : Date) : Moment := mkMoment date true.

Definition isValid (m : Moment) : bool := negb (isNaN (getTime (_d m))).

Definition toDate (m : Moment) : Date := _d m.

Definition format_YYYY_MM_DD (m : Moment) : DayStamp :=
  match getTime (_d m) with
  | NaN => InvalidDate
  | Num t =>
      let '(y, mo, d) :=
        civil_from_days (Day (if _isUTC m then t else LocalTime LocalTZA t)) in
      YMD y mo d
  end.

(** [moment(`${year}-${month}-${day}`, "YYYY-MM-DD")] on captures of four,
    two and two digits: the fields are read back as numbers, a month
    outside 1..12 or a day outside the month makes the moment invalid, and
    a valid one is local midnight of that day. *)
Definition moment_parse (year month day : string) : Moment :=
  match parseInt year, parseInt month, parseInt day with
  | Num y, Num m, Num d =>
      if (1 <=? m) && (m <=? 12) && (1 <=? d) && (d <=? daysInMonth y (m - 1)) then
        mkMoment (newDate (Num (UTC LocalTZA (MakeDate (MakeDay y (m - 1) d) 0)))) false
      else mkMoment (newDate NaN) false
  | _, _, _ => mkMoment (newDate NaN) false
  end.
End Moment.

(** [a.diff(b, 'days')] for two moments in UTC mode: the whole days between
    them, truncated towards zero; NaN when one of them is invalid. *)
Definition diff_days (a b : Moment) : Number :=
  match getTime (_d a), getTime (_d b) with
  | Num ta, Num tb => Num (Z.quot (ta - tb) msPerDay)
  | _, _ => NaN
  end.

(** [m.clone().add(1, 'day')] for a moment in UTC mode. *)
Definition add_1_day (m : Moment) : Moment :=
  mkMoment (newDate (add (getTime (_d m)) (Num msPerDay))) (_isUTC m).

(** ** Exceptions *)

Inductive Error :=
| TypeError (message : string)
| HostError (message : string).

Inductive Result (A : Type) :=
| Return (a : A)
| Throw (e : Error).

Arguments Return {A} a.
Arguments Throw {A} e.

Definition bind {A B : Type} (r : Result A) (k : A -> Result B) : Result B :=
  match r with
  | Return a => k a
  | Throw e => Throw e
  end.

Notation "'try' x <- r ; k" := (bind r (fun x => k))
  (at level 10, x name, r at level 100, k at level 200).

(** [(waypoint as ObsidianFileWaypoint).getFile()]: the cast is not checked,
    and the other waypoints have no such method. *)
Definition getFile (w : Waypoint) : Result TFile :=
  match w with
  | ObsidianFileWaypoint file _ => Return file
  | _ => Throw (TypeError "getFile is not a function")
  end.

(** ** timewalkService.ts: the index builder *)

Record TimewalkService := mkService {
  timewalk : Timewalk;
  waypointMap : gmap string Waypoint
}.

Definition getTimewalk (this : TimewalkService) : Timewalk := timewalk this.

(** [new Date(Date.UTC(parseInt(year), parseInt(month) - 1, parseInt(day)))] *)
Definition dateFromCaptures (year month day : string) : Date :=
  newDate (Date_UTC_of (parseInt year) (sub (parseInt month) (Num 1)) (parseInt day)).

(** One round of the [for] loop of [rebuild]: the children of [root] so far
    and the map so far. *)
Definition addFile (acc : list Waypoint * gmap string Waypoint) (file : TFile)
    : list Waypoint * gmap string Waypoint :=
  match pathMatch (path file) with
  | Some (year, month, day) =>
      let date := dateFromCaptures year month day in
      let waypoint := ObsidianFileWaypoint file date in
      (fst acc ++ [waypoint], <[path file := waypoint]> (snd acc))
  | None => acc
  end.

(** [rebuild()].  [getMarkdownFiles] is the outcome of the call
    [this.vault.getMarkdownFiles()]: a listing, or an exception.  The result
    is the outcome of [rebuild] and the service as it leaves it. *)
Definition rebuild (getMarkdownFiles : Result (list TFile)) (this : TimewalkService)
    : Result unit * TimewalkService :=
  (* this.waypointMap.clear() *)
  let this := mkService (timewalk this) ∅ in
  match getMarkdownFiles with
  | Throw e => (Throw e, this)
  | Return allFiles =>
      let matchingFiles :=
        List.filter (fun file => dailyNotePattern_test (path file)) allFiles in
      let '(childNodes, map) := fold_left addFile matchingFiles ([], waypointMap this) in
      (Return tt, mkService (mkTimewalk (GroupWaypoint "daily-notes" childNodes None)) map)
  end.

(** The constructor: an empty timewalk first, then [rebuild]. *)
Definition newTimewalkService (getMarkdownFiles : Result (list TFile))
    : Result TimewalkService :=
  let this := mkService (mkTimewalk (GroupWaypoint "daily-notes" [] None)) ∅ in
  match rebuild getMarkdownFiles this with
  | (Return _, this) => Return this
  | (Throw e, _) => Throw e
  end.

(** [{ direction: 'future', filter: 'leaves' }] *)
Definition chronological : TraverseOptions := mkOptions (Some future) (Some leaves) None.

(** [traverse(waypoint => waypoints.push(waypoint), ...)] from an empty
    array. *)
Definition collect (tw : Timewalk) (o : TraverseOptions) : list Waypoint :=
  traverse tw (fun waypoint waypoints => waypoints ++ [waypoint]) o [].

(** [waypoints.findIndex(p)]: -1 when no element satisfies [p]. *)
Fixpoint findIndexFrom {A : Type} (p : A -> bool) (i : Z) (l : list A) : Z :=
  match l with
  | [] => -1
  | x :: rest => if p x then i else findIndexFrom p (i + 1) rest
  end.

Definition findIndex {A : Type} (p : A -> bool) (l : list A) : Z := findIndexFrom p 0 l.

(** The items of the global timeline: the fields a note carries, and the
    fields a gap carries. *)
Inductive GlobalNavItem :=
| note (date : Moment) (file : TFile) (isActive isCurrent : bool)
| gap (date : Moment) (gapCount : Z).

(** The check for a gap between [waypoints[i]] and [waypoints[i + 1]], and
    the gap item pushed when there is one.  [daysBetween > 0] is false for
    NaN. *)
Definition gapsBetween (waypoint nextWaypoint : Waypoint) : list GlobalNavItem :=
  let waypointDate := moment_utc (time waypoint) in
  let nextDate := moment_utc (time nextWaypoint) in
  match sub (diff_days nextDate waypointDate) (Num 1) with
  | Num daysBetween =>
      if daysBetween >? 0 then [gap (add_1_day waypointDate) daysBetween] else []
  | NaN => []
  end.

Section Service.
Variable LocalTZA : Z -> bool -> Z.
Variable Date_parse : string -> Number.

(** The second half of [getDailyNoteDate], reached when the map has no
    entry for the path: [None] is [null]. *)
Definition fallback (file : TFile) : option Moment :=
  match pathMatch (path file) with
  | Some (year, month, day) =>
      let parsedDate := moment_parse LocalTZA year month day in
      if isValid parsedDate then Some parsedDate else None
  | None => None
  end.

(** [getDailyNoteDate(file)] *)
Definition getDailyNoteDate (this : TimewalkService) (file : TFile) : option Moment :=
  match waypointMap this !! path file with
  | Some waypoint => Some (moment (time waypoint))
  | None => fallback file
  end.

(** [findDailyNote(date)] *)
Definition findDailyNote (this : TimewalkService) (date : Moment)
    : Result (option TFile) :=
  let targetDate := toDate date in
  match find LocalTZA Date_parse (timewalk this) (ofDate targetDate) with
  | waypoint :: _ => try file <- getFile waypoint; Return (Some file)
  | [] => Return None
  end.

(** [hasDailyNote(date)]: [this.findDailyNote(date) !== null] *)
Definition hasDailyNote (this : TimewalkService) (date : Moment) : Result bool :=
  try found <- findDailyNote this date;
  Return (match found with Some _ => true | None => false end).

(** [getSortedWaypoints(currentDate)] *)
Definition getSortedWaypoints (this : TimewalkService) (currentDate : Moment)
    : list Waypoint * Z :=
  let waypoints := collect (timewalk this) chronological in
  let currentIndex :=
    findIndex (fun wp => isSameDay LocalTZA (time wp) (toDate currentDate)) waypoints in
  (waypoints, currentIndex).

(** [waypoints[i].getFile()] for an index inside the array. *)
Definition fileAt (waypoints : list Waypoint) (i : Z) : Result TFile :=
  match nth_error waypoints (Z.to_nat i) with
  | Some waypoint => getFile waypoint
  | None => Throw (TypeError "undefined has no properties")
  end.

(** [getPreviousDailyNote(currentDate)] *)
Definition getPreviousDailyNote (this : TimewalkService) (currentDate : Moment)
    : Result (option TFile) :=
  let '(waypoints, currentIndex) := getSortedWaypoints this currentDate in
  if currentIndex >? 0 then
    try file <- fileAt waypoints (currentIndex - 1); Return (Some file)
  else Return None.

(** [getNextDailyNote(currentDate)] *)
Definition getNextDailyNote (this : TimewalkService) (currentDate : Moment)
    : Result (option TFile) :=
  let '(waypoints, currentIndex) := getSortedWaypoints this currentDate in
  if negb (currentIndex =? -1) && (currentIndex <? Z.of_nat (length waypoints) - 1) then
    try file <- fileAt waypoints (currentIndex + 1); Return (Some file)
  else Return None.

(** ** globalModeBuilder.ts: the timeline with collapsed gaps *)

(** The note item pushed for [waypoints[i]]. *)
Definition noteOf (activeDate currentDate : Moment) (waypoint : Waypoint) (file : TFile)
    : GlobalNavItem :=
  let waypointDate := moment_utc (time waypoint) in
  note waypointDate file
    (bool_decide (format_YYYY_MM_DD LocalTZA waypointDate
                  = format_YYYY_MM_DD LocalTZA activeDate))
    (bool_decide (format_YYYY_MM_DD LocalTZA waypointDate
                  = format_YYYY_MM_DD LocalTZA currentDate)).

(** The body of the [for] loop of [buildGlobalTimeline], from index [i] on:
    [waypoints] is what is left of the array from [waypoints[i]]. *)
Fixpoint timelineFrom (activeDate currentDate : Moment) (waypoints : list Waypoint)
    : Result (list GlobalNavItem) :=
  match waypoints with
  | [] => Return []
  | waypoint :: rest =>
      try file <- getFile waypoint;
      let item := noteOf activeDate currentDate waypoint file in
      let gaps :=
        match rest with
        | nextWaypoint :: _ => gapsBetween waypoint nextWaypoint
        | [] => []
        end in
      try items <- timelineFrom activeDate currentDate rest;
      Return (item :: gaps ++ items)
  end.

Definition buildGlobalTimeline (timewalkService : TimewalkService)
    (activeDate currentDate : Moment) : Result (list GlobalNavItem) :=
  let waypoints := collect (getTimewalk timewalkService) chronological in
  match waypoints with
  | [] => Return []
  | _ => timelineFrom activeDate currentDate waypoints
  end.
End Service.

(** ** String methods

    The methods of [String.prototype] that [main.ts] calls, on strings of
    8-bit code units. *)

Module Text.

(** [s.split(sep)] for a separator of one character. *)
Fixpoint split (sep : ascii) (s : string) : list string :=
  match s with
  | EmptyString => [EmptyString]
  | String c s' =>
      if Ascii.eqb c sep then EmptyString :: split sep s'
      else
        match split sep s' with
        | first :: others => String c first :: others
        | [] => [String c EmptyString]
        end
  end.

(** [s.trim()]: white space and line terminators go, at both ends; below
    256 these are the code units of [\s]. *)
Definition trimStart (s : string) : string := many isWhiteSpace s.

Fixpoint trimEnd (s : string) : string :=
  match s with
  | EmptyString => EmptyString
  | String c s' =>
      match trimEnd s' with
      | EmptyString => if isWhiteSpace c then EmptyString else String c EmptyString
      | kept => String c kept
      end
  end.

Definition trim (s : string) : string := trimEnd (trimStart s).

(** [s.startsWith(c)] for a string of one character. *)
Definition startsWith (c : ascii) (s : string) : bool :=
  match s with
  | String c' _ => Ascii.eqb c' c
  | EmptyString => false
  end.

(** [s.indexOf(c)] for a string of one character: -1 when it does not
    occur. *)
Fixpoint indexOfFrom (c : ascii) (i : Z) (s : string) : Z :=
  match s with
  | EmptyString => -1
  | String c' s' => if Ascii.eqb c' c then i else indexOfFrom c (i + 1) s'
  end.

Definition indexOf (c : ascii) (s : string) : Z := indexOfFrom c 0 s.

(** [s.substring(start, end)]: both arguments are brought into
    [0 .. s.length], and swapped if they come in the wrong order. *)
Definition substring (s : string) (start finish : Z) : string :=
  let len := Z.of_nat (String.length s) in
  let a := Z.min (Z.max start 0) len in
  let b := Z.min (Z.max finish 0) len in
  String.substring (Z.to_nat (Z.min a b)) (Z.to_nat (Z.max a b - Z.min a b)) s.

(** [s.substring(start)] *)
Definition substringFrom (s : string) (start : Z) : string :=
  substring s start (Z.of_nat (String.length s)).

End Text.

(** ** main.ts: the metadata written into daily notes *)

(** [{ key, template }] *)
Record Property := mkProperty { key : string; template : string }.

(** One round of the [for] loop of [parseMetadataProperties]: the array
    [properties] after the line has been looked at. *)
Definition parseLine (properties : list Property) (line : string) : list Property :=
  let trimmed := Text.trim line in
  if String.eqb trimmed "" || Text.startsWith "#" trimmed then properties
  else
    let colonIndex := Text.indexOf ":" trimmed in
    if colonIndex =? -1 then properties
    else
      let key := Text.trim (Text.substring trimmed 0 colonIndex) in
      let template := Text.trim (Text.substringFrom trimmed (colonIndex + 1)) in
      if negb (String.eqb key "") && negb (String.eqb template "")
      then properties ++ [mkProperty key template]
      else properties.

(** [parseMetadataProperties(config)] *)
Definition parseMetadataProperties (config : string) : list Property :=
  let lines := Text.split "010" config in
  fold_left parseLine lines [].

(** [DEFAULT_SETTINGS.metadataProperties] of [settings.ts] *)
Definition defaultMetadataProperties : string :=
  "date: {YYYY-MM-DD}" ++ String "010" "week: {WYYYY}-W{WW}" ++ String "010" "month: {MM}"
  ++ String "010" "year: {YYYY}".

(** The settings that [updateDailyNoteMetadata] reads. *)
Record DailyOrbitSettings := mkSettings {
  enableAutoMetadata : bool;
  metadataNamespace : string;
  metadataProperties : string
}.

Section Metadata.
Variable LocalTZA : Z -> bool -> Z.
(** The values of frontmatter properties, and [replaceTemplateTokens], which
    returns a string or a number. *)
Variable Value : Type.
Variable replaceTemplateTokens : string -> Moment -> Value.

(** [frontmatter[name] = value] on the object parsed from the note's YAML,
    for a value that is a string or a number: the name [__proto__] is the
    prototype accessor, which ignores such a value. *)
Definition setProperty (frontmatter : gmap string Value) (name : string) (value : Value)
    : gmap string Value :=
  if String.eqb name "__proto__" then frontmatter else <[name := value]> frontmatter.

(** The callback that [updateDailyNoteMetadata] gives to
    [processFrontMatter]. *)
Definition writeProperties (namespace : string) (properties : list Property)
    (fileDate : Moment) (frontmatter : gmap string Value) : gmap string Value :=
  fold_left
    (fun frontmatter p =>
       let value := replaceTemplateTokens (template p) fileDate in
       setProperty frontmatter (namespace ++ key p) value)
    properties frontmatter.

(** [updateDailyNoteMetadata(file)], up to the call of [processFrontMatter]:
    the callback it is called with, or [None] when the method returns
    without calling it. *)
Definition updateDailyNoteMetadata (settings : DailyOrbitSettings)
    (timewalkService : TimewalkService) (file : TFile)
    : option (gmap string Value -> gmap string Value) :=
  if negb (enableAutoMetadata settings) then None
  else
    match getDailyNoteDate LocalTZA timewalkService file with
    | None => None
    | Some fileDate =>
        let properties := parseMetadataProperties (metadataProperties settings) in
        if Z.of_nat (length properties) =? 0 then None
        else
          let namespace := metadataNamespace settings in
          Some (writeProperties namespace properties fileDate)
    end.
End Metadata.

(** ** main.ts: the navbars of the plugin *)

Section Navbars.
(** The navbar objects. *)
Variable Navbar : Type.

(** The fields [navbars] and [nextNavbarId] of the plugin.  The ids are the
    decimal strings [createNavbar] makes; none of them names a property that
    an object inherits. *)
Record Navbars := mkNavbars {
  navbars : gmap string Navbar;
  nextNavbarId : Z
}.

(** [n++] on a number that holds a non-negative integer: doubles count
    exactly up to 2^53, and there adding one changes nothing. *)
Definition increment (n : Z) : Z := if n <? 2 ^ 53 then n + 1 else n.

(** [createNavbar(view, parentEl, date)].  [newNavbar] is the constructor
    call [new DailyOrbit(this, navbarId, view, parentEl, date)] as a function
    of the id: the navbar, or an exception. *)
Definition createNavbar (newNavbar : string -> Result Navbar) (this : Navbars)
    : Result Navbar * Navbars :=
  let navbarId := pretty (nextNavbarId this) in
  let this := mkNavbars (navbars this) (increment (nextNavbarId this)) in
  match newNavbar navbarId with
  | Throw e => (Throw e, this)
  | Return navbar =>
      (Return navbar, mkNavbars (<[navbarId := navbar]> (navbars this)) (nextNavbarId this))
  end.

(** [getNavbar(id)]: [None] is [undefined]. *)
Definition getNavbar (this : Navbars) (id : string) : option Navbar := navbars this !! id.

(** [removeNavbar(id)].  [removeChild] is the call
    [navbar.parentEl.removeChild(navbar.containerEl)], which may throw. *)
Definition removeNavbar (removeChild : Navbar -> Result unit) (this : Navbars) (id : string)
    : Result unit * Navbars :=
  match navbars this !! id with
  | None => (Throw (TypeError "Cannot read properties of undefined"), this)
  | Some navbar =>
      match removeChild navbar with
      | Throw e => (Throw e, this)
      | Return _ => (Return tt, mkNavbars (delete id (navbars this)) (nextNavbarId this))
      end
  end.
End Navbars.

(** * Vocabulary of the properties, and the inputs they are tried on *)

(** The stages of [civil_from_days]: the 400-year era of a day number, the
    day of the era, the year of the era, the day of the year counted from
    the first of March, and the month counted from March. *)
Definition eraOf (n : Z) : Z := (n + 719468) / 146097.
Definition doeOf (n : Z) : Z := (n + 719468) mod 146097.
Definition yoeOf (doe : Z) : Z := (doe - doe / 1460 + doe / 36524 - doe / 146096) / 365.
Definition doyOf (doe : Z) : Z := doe - (365 * yoeOf doe + yoeOf doe / 4 - yoeOf doe / 100).
Definition mpOf (doy : Z) : Z := (5 * doy + 2) / 153.

(** One period of 400 years, checked month by month: the first of the month
    comes back as it went in, and the last day of the month is still in the
    same era, year and month. *)
Definition roundTripsAt (y m d : Z) : bool :=
  let '(y', m', d') := civil_from_days (MakeDay y m d) in
  (y' =? y) && (m' =? m + 1) && (d' =? d).

Definition sameMonth (n1 n2 : Z) : bool :=
  (eraOf n1 =? eraOf n2)
  && (yoeOf (doeOf n1) =? yoeOf (doeOf n2))
  && (mpOf (doyOf (doeOf n1)) =? mpOf (doyOf (doeOf n2))).

Definition upto (n : nat) : list Z := List.map Z.of_nat (seq 0 n).

Definition periodRoundTrips : bool :=
  forallb (fun y =>
    forallb (fun m =>
      roundTripsAt y m 1
      && sameMonth (MakeDay y m 1) (MakeDay y m (daysInMonth y m)))
            (upto 12))
          (upto 400).

(** Every character of [s] is in the class [p]. *)
Fixpoint every (p : ascii -> bool) (s : string) : bool :=
  match s with
  | EmptyString => true
  | String c s' => p c && every p s'
  end.

(** What it means for the second expression to match from the start of [s]:
    the pieces the expression names, one after the other. *)
Definition matchesHere (s year month day rest : string) : Prop :=
  exists ws word ws' word',
    s = (year ++ "/" ++ month ++ "." ++ ws ++ word ++ "/" ++ day ++ ws' ++ word' ++ rest)%string /\
    String.length year = 4%nat /\ every isDigit year = true /\
    String.length month = 2%nat /\ every isDigit month = true /\
    every isWhiteSpace ws = true /\
    word <> EmptyString /\ every isWordChar word = true /\
    String.length day = 2%nat /\ every isDigit day = true /\
    ws' <> EmptyString /\ every isWhiteSpace ws' = true /\
    word' <> EmptyString /\ every isWordChar word' = true.

(** A property of every suffix of a string, the string itself included. *)
Fixpoint everySuffix (P : string -> Prop) (p : string) : Prop :=
  P p /\
  match p with
  | EmptyString => True
  | String _ p' => everySuffix P p'
  end.

(** A comparator that subtracts keys, on the elements of a list. *)
Definition byKey {A : Type} (comparefn : A -> A -> Number) (key : A -> Z) (l : list A) : Prop :=
  forall x y, In x l -> In y l -> SortCompare comparefn x y = key x - key y.

Definition ascending {A : Type} (key : A -> Z) : list A -> Prop :=
  StronglySorted (fun a b => key a <= key b).

(** A time that is a number, read as an integer. *)
Definition timeOf (n : Waypoint) : Z :=
  match getTime (time n) with
  | Num t => t
  | NaN => 0
  end.

Definition validTime (n : Waypoint) : Prop := isNaN (getTime (time n)) = false.

Definition nonDecreasing (l : list Waypoint) : Prop :=
  StronglySorted (fun a b => Js.le (getTime (time a)) (getTime (time b))) l.

Definition nonIncreasing (l : list Waypoint) : Prop :=
  StronglySorted (fun a b => Js.le (getTime (time b)) (getTime (time a))) l.

Definition withDirection (d : Direction) (o : TraverseOptions) : TraverseOptions :=
  mkOptions (Some d) (filter o) (includeNonCalendar o).

(** What [navigate] looks for. *)
Definition hits (targetTimestamp : Number) (node : Waypoint) : bool :=
  negb (isContainer node) && strictEq (getTime (time node)) targetTimestamp.

(** Graphs used as concrete inputs. *)
Definition hostUTC : Z -> bool -> Z := fun _ _ => 0.
Definition noParse : string -> Number := fun _ => NaN.

Definition leafAt (id : string) (t : Z) : Waypoint := StringWaypoint id (mkDate (Num t)).
Definition leafInvalid (id : string) : Waypoint := StringWaypoint id (mkDate NaN).

Definition twoLeaves : Timewalk :=
  mkTimewalk (GroupWaypoint "root" [leafAt "late" 172800000; leafAt "early" 86400000] None).

Definition withInvalidLeaf : Timewalk :=
  mkTimewalk (GroupWaypoint "root" [leafAt "five" 5; leafInvalid "broken"] None).

Definition withEpochLeaf : Timewalk :=
  mkTimewalk (GroupWaypoint "root" [leafAt "epoch" 0; leafAt "later" 86400000] None).

Definition nested : Timewalk :=
  mkTimewalk
    (GroupWaypoint "root"
       [GroupWaypoint "empty" [] None;
        GroupWaypoint "year" [leafAt "a" 86400000; leafAt "b" 86400000] None;
        leafAt "c" 86400000]
       None).

(** The leaf [rebuild] makes of a file, if the second expression matches. *)
Definition leafOf (file : TFile) : list Waypoint :=
  match pathMatch (path file) with
  | Some (year, month, day) => [ObsidianFileWaypoint file (dateFromCaptures year month day)]
  | None => []
  end.

(** The entry of the map for the path [p] after the files have been added. *)
Definition cached (p : string) (files : list TFile) : option Waypoint :=
  if existsb (fun f => String.eqb (path f) p) files then head (leafOf (mkTFile p)) else None.

(** The service before the constructor has called [rebuild]. *)
Definition emptyService : TimewalkService :=
  mkService (mkTimewalk (GroupWaypoint "daily-notes" [] None)) ∅.

Definition matching (files : list TFile) : list TFile :=
  List.filter (fun file => dailyNotePattern_test (path file)) files.

(** One daily note and one other note, as listed by the vault. *)
Definition march7 : TFile := mkTFile "2025/03. Mar/07 Fri.md".
Definition random : TFile := mkTFile "notes/random.md".

(** A service that has indexed one daily note. *)
Definition indexedMarch7 : TimewalkService := snd (rebuild (Return [march7]) emptyService).

(** Three files that pass the pattern: a year below 100, a month that does
    not exist, and a daily note kept below a folder that is named like a
    daily note itself. *)
Definition year25Note : TFile := mkTFile "0025/03. Mar/07 Fri.md".
Definition month13Note : TFile := mkTFile "2025/13. Xyz/07 Fri.md".
Definition nestedNote : TFile :=
  mkTFile "Journal/2024/12. Dec/31 Tue/2025/01. Jan/01 Wed.md".

(** Two notes for the same day, in different folders. *)
Definition jan5a : TFile := mkTFile "a/2025/01. Jan/05 Sun.md".
Definition jan5b : TFile := mkTFile "b/2025/01. Jan/05 Sun.md".
Definition jan5 : Date := mkDate (Num 1736035200000).
Definition twoOnJan5 : TimewalkService := snd (rebuild (Return [jan5a; jan5b]) emptyService).

(** The day number, from the epoch, of a moment in UTC mode. *)
Definition dayNumber (m : Moment) : Z :=
  match getTime (_d m) with
  | Num t => Day t
  | NaN => 0
  end.

(** The calendar days an item stands for: its own day for a note,
    [gapCount] consecutive days from its date for a gap. *)
Definition daysOf (item : GlobalNavItem) : list Z :=
  match item with
  | note date _ _ _ => [dayNumber date]
  | gap date gapCount => seqZ (dayNumber date) gapCount
  end.

(** The days the items are given when days are handed out in output order
    from a first day on: one to a note, [gapCount] to a gap. *)
Fixpoint assignFrom (day : Z) (items : list GlobalNavItem) : list Z :=
  match items with
  | [] => []
  | note _ _ _ _ :: rest => day :: assignFrom (day + 1) rest
  | gap _ gapCount :: rest => seqZ day gapCount ++ assignFrom (day + gapCount) rest
  end.

Definition dayOf (w : Waypoint) : Z := Day (timeOf w).

(** A leaf as [rebuild] makes them and [traverse] lets them through: a file
    dated at midnight UTC. *)
Definition midnightLeaf (w : Waypoint) : Prop :=
  exists file n,
    w = ObsidianFileWaypoint file (mkDate (Num (n * msPerDay))) /\
    Z.abs (n * msPerDay) <= 8640000000000000.

(** The notes of the first, second and fifth of January 2025. *)
Definition jan1File : TFile := mkTFile "2025/01. Jan/01 Wed.md".
Definition jan2File : TFile := mkTFile "2025/01. Jan/02 Thu.md".
Definition jan5File : TFile := mkTFile "2025/01. Jan/05 Sun.md".
Definition jan1 : Date := mkDate (Num 1735689600000).
Definition jan2 : Date := mkDate (Num 1735776000000).
Definition jan3 : Date := mkDate (Num 1735862400000).

(** The times of the children of a group that are numbers. *)
Definition childTimes (childNodes : list Waypoint) : list Z :=
  dropNaN (List.map (fun c => getTime (time c)) childNodes).

(** The nodes of one time. *)
Definition atTime (t : Z) (n : Waypoint) : bool := timeOf n =? t.

(** The local day number of a time value. *)
Definition localDay (LocalTZA : Z -> bool -> Z) (t : Z) : Z := Day (LocalTime LocalTZA t).

(** A host on which the local calendar day moves on between one UTC midnight
    and every later one; so it is for every fixed offset from UTC. *)
Definition midnightsApart (LocalTZA : Z -> bool -> Z) : Prop :=
  forall n m, localDay LocalTZA (n * msPerDay) = localDay LocalTZA (m * msPerDay) -> n = m.

(** The moment, in UTC mode, of midnight UTC of a day number. *)
Definition utcMidnight (day : Z) : Moment := moment_utc (mkDate (Num (day * msPerDay))).

(** A leaf that wraps a file. *)
Definition isFileWaypoint (w : Waypoint) : Prop :=
  exists file fileDate, w = ObsidianFileWaypoint file fileDate.

(** The file of a neighbour in the chronological sequence, if there is a
    neighbour. *)
Definition fileOf (neighbour : option Waypoint) : Result (option TFile) :=
  match neighbour with
  | Some waypoint => try file <- getFile waypoint; Return (Some file)
  | None => Return None
  end.

(** The service after a [rebuild] that was given the listing [files]. *)
Definition rebuilt (files : list TFile) (prior : TimewalkService) : TimewalkService :=
  snd (rebuild (Return files) prior).

(** Whether the leaf [rebuild] makes of a file falls on the local calendar
    day of a date. *)
Definition onDay (LocalTZA : Z -> bool -> Z) (target : Date) (file : TFile) : bool :=
  existsb (fun w => isSameDay LocalTZA (time w) target) (leafOf file).

(** The files and the dates of the note items, in output order. *)
Definition noteFiles (items : list GlobalNavItem) : list TFile :=
  flat_map (fun item => match item with note _ file _ _ => [file] | gap _ _ => [] end) items.

Definition noteDates (items : list GlobalNavItem) : list Moment :=
  flat_map (fun item => match item with note date _ _ _ => [date] | gap _ _ => [] end) items.

Definition startsWithNote (items : list GlobalNavItem) : Prop :=
  match items with
  | gap _ _ :: _ => False
  | _ => True
  end.

(** Every gap counts at least one day and is followed by a note. *)
Fixpoint gapsIsolated (items : list GlobalNavItem) : Prop :=
  match items with
  | [] => True
  | note _ _ _ _ :: rest => gapsIsolated rest
  | gap _ gapCount :: rest =>
      1 <= gapCount /\
      match rest with
      | note _ _ _ _ :: _ => gapsIsolated rest
      | _ => False
      end
  end.

(** What an item of the timeline says about the leaves it was made from: a
    note is the note of one of them, and no leaf falls on a day of a gap. *)
Definition itemAgrees (waypoints : list Waypoint) (item : GlobalNavItem) : Prop :=
  match item with
  | note date _ _ _ => exists v, In v waypoints /\ date = moment_utc (time v)
  | gap date gapCount =>
      date = utcMidnight (dayNumber date) /\ 1 <= gapCount /\
      (forall v, In v waypoints -> dayOf v < dayNumber date \/ dayNumber date + gapCount <= dayOf v)
  end.

(** Whether the character occurs in the string. *)
Fixpoint occurs (c : ascii) (s : string) : bool :=
  match s with
  | EmptyString => false
  | String c' s' => Ascii.eqb c' c || occurs c s'
  end.

(** A property as [parseMetadataProperties] produces them: key and template
    are not empty and have no white space around them, the key has no colon
    and does not begin with [#], and neither has a line feed. *)
Definition wellFormed (p : Property) : Prop :=
  key p <> EmptyString /\ template p <> EmptyString /\
  Text.trim (key p) = key p /\ Text.trim (template p) = template p /\
  occurs ":" (key p) = false /\ Text.startsWith "#" (key p) = false /\
  occurs "010" (key p) = false /\ occurs "010" (template p) = false.

(** The line that stands for a property, and the text that stands for a
    list of properties. *)
Definition renderLine (p : Property) : string := (key p ++ ": " ++ template p)%string.

Definition render (properties : list Property) : string :=
  String.concat (String "010" EmptyString) (List.map renderLine properties).

(** The value the frontmatter callback leaves under a name, if it writes
    that name: the one of the last property that has it. *)
Definition written {Value : Type} (replaceTemplateTokens : string -> Moment -> Value)
    (namespace : string) (properties : list Property) (fileDate : Moment) (name : string)
    : option Value :=
  if String.eqb name "__proto__" then None
  else
    match List.find (fun p => String.eqb (namespace ++ key p) name) (rev properties) with
    | Some p => Some (replaceTemplateTokens (template p) fileDate)
    | None => None
    end.

(** The states of the navbars the plugin can get into: it starts without
    navbars and with [nextNavbarId = 0], and then creates and removes
    navbars. *)
Inductive reachable {Navbar : Type} : Navbars Navbar -> Prop :=
| reachable_start : reachable (mkNavbars Navbar ∅ 0)
| reachable_create newNavbar this :
    reachable this -> reachable (snd (createNavbar Navbar newNavbar this))
| reachable_remove removeChild this id :
    reachable this -> reachable (snd (removeNavbar Navbar removeChild this id)).

(** Every id in use was made from a number that has been passed. *)
Definition idsBelowNext {Navbar : Type} (this : Navbars Navbar) : Prop :=
  0 <= nextNavbarId Navbar this <= 2 ^ 53 /\
  forall id, is_Some (navbars Navbar this !! id) ->
    exists n, id = pretty n /\ 0 <= n /\
              (n < nextNavbarId Navbar this \/ nextNavbarId Navbar this = 2 ^ 53).

(** Further inputs: the index of three notes and its timeline, and a moment
    that is not a date. *)
Definition threeNotes : TimewalkService := rebuilt [jan5File; jan1File; jan2File] emptyService.

Definition threeNotesTimeline : list GlobalNavItem :=
  [note (moment_utc jan1) jan1File false false;
   note (moment_utc jan2) jan2File true false;
   gap (moment_utc jan3) 2;
   note (moment_utc jan5) jan5File false true].

Definition invalidMoment : Moment := mkMoment (mkDate NaN) false.

(** * Properties *)

Arguments civil_from_days : simpl never.
Arguments MakeDay : simpl never.
Arguments Day : simpl never.

(** ** The calendar: [civil_from_days] inverts [MakeDay] *)

Section Calendar.

Lemma DayFromYear_shift y q : DayFromYear (y + 400 * q) = DayFromYear y + 146097 * q.
Proof.
  unfold DayFromYear.
  replace (y + 400 * q - 1969) with (y - 1969 + (100 * q) * 4) by lia.
  replace (y + 400 * q - 1901) with (y - 1901 + (4 * q) * 100) by lia.
  replace (y + 400 * q - 1601) with (y - 1601 + q * 400) by lia.
  rewrite !Z.div_add by lia. lia.
Qed.

Lemma isLeapYear_shift y q : isLeapYear (y + 400 * q) = isLeapYear y.
Proof.
  unfold isLeapYear.
  replace (y + 400 * q) with (y + (100 * q) * 4) at 1 by lia.
  replace (y + 400 * q) with (y + (4 * q) * 100) at 1 by lia.
  replace (y + 400 * q) with (y + q * 400) by lia.
  rewrite !Z.mod_add by lia. reflexivity.
Qed.

Lemma MakeDay_shift y q m d :
  0 <= m <= 11 -> MakeDay (y + 400 * q) m d = MakeDay y m d + 146097 * q.
Proof.
  intros Hm. unfold MakeDay.
  rewrite (Z.div_small m 12), (Z.mod_small m 12) by lia.
  rewrite !Z.add_0_r, DayFromYear_shift, isLeapYear_shift. lia.
Qed.

Lemma civil_from_days_shift n q :
  civil_from_days (n + 146097 * q) =
  let '(y, m, d) := civil_from_days n in (y + 400 * q, m, d).
Proof.
  unfold civil_from_days.
  replace (n + 146097 * q + 719468) with (n + 719468 + q * 146097) by lia.
  rewrite Z.div_add, Z.mod_add by lia.
  cbv zeta. f_equal. f_equal. lia.
Qed.

Lemma civil_from_days_stages n :
  civil_from_days n =
  let doy := doyOf (doeOf n) in
  let mp := mpOf doy in
  let m := if mp <? 10 then mp + 3 else mp - 9 in
  (yoeOf (doeOf n) + eraOf n * 400 + (if m <=? 2 then 1 else 0),
   m,
   doy - (153 * mp + 2) / 5 + 1).
Proof. reflexivity. Qed.

Lemma doeOf_bound n : 0 <= doeOf n < 146097.
Proof. unfold doeOf. apply Z.mod_pos_bound. lia. Qed.

Lemma doeOf_eraOf n : n + 719468 = 146097 * eraOf n + doeOf n.
Proof. unfold eraOf, doeOf. apply Z.div_mod. lia. Qed.

Lemma eraOf_mono a b : a <= b -> eraOf a <= eraOf b.
Proof. intros H. unfold eraOf. apply Z.div_le_mono; lia. Qed.

Lemma yoeOf_mono a b : 0 <= a <= b -> b < 146097 -> yoeOf a <= yoeOf b.
Proof.
  intros Ha Hb. unfold yoeOf. apply Z.div_le_mono; [lia |].
  Z.to_euclidean_division_equations; lia.
Qed.

Lemma mpOf_mono a b : a <= b -> mpOf a <= mpOf b.
Proof. intros H. unfold mpOf. apply Z.div_le_mono; lia. Qed.

(** Between two day numbers at which the era, the year of the era and the
    month agree, they are the same throughout, and the day of the month
    counts up. *)
Lemma civil_from_days_between n1 n n2 :
  n1 <= n <= n2 ->
  eraOf n1 = eraOf n2 ->
  yoeOf (doeOf n1) = yoeOf (doeOf n2) ->
  mpOf (doyOf (doeOf n1)) = mpOf (doyOf (doeOf n2)) ->
  civil_from_days n = let '(y, m, d) := civil_from_days n1 in (y, m, d + (n - n1)).
Proof.
  intros Hn Hera Hyoe Hmp.
  assert (Hera' : eraOf n = eraOf n1).
  { pose proof (eraOf_mono n1 n ltac:(lia)). pose proof (eraOf_mono n n2 ltac:(lia)). lia. }
  pose proof (doeOf_eraOf n1). pose proof (doeOf_eraOf n). pose proof (doeOf_eraOf n2).
  pose proof (doeOf_bound n1). pose proof (doeOf_bound n). pose proof (doeOf_bound n2).
  assert (Hdoe : doeOf n = doeOf n1 + (n - n1)) by lia.
  assert (Hdoe2 : doeOf n2 = doeOf n1 + (n2 - n1)) by lia.
  assert (Hyoe' : yoeOf (doeOf n) = yoeOf (doeOf n1)).
  { pose proof (yoeOf_mono (doeOf n1) (doeOf n) ltac:(lia) ltac:(lia)).
    pose proof (yoeOf_mono (doeOf n) (doeOf n2) ltac:(lia) ltac:(lia)). lia. }
  assert (Hdoy : doyOf (doeOf n) = doyOf (doeOf n1) + (n - n1)).
  { unfold doyOf. rewrite Hyoe'. lia. }
  assert (Hdoy2 : doyOf (doeOf n2) = doyOf (doeOf n1) + (n2 - n1)).
  { unfold doyOf. rewrite <- Hyoe. lia. }
  assert (Hmp' : mpOf (doyOf (doeOf n)) = mpOf (doyOf (doeOf n1))).
  { pose proof (mpOf_mono (doyOf (doeOf n1)) (doyOf (doeOf n)) ltac:(lia)).
    pose proof (mpOf_mono (doyOf (doeOf n)) (doyOf (doeOf n2)) ltac:(lia)). lia. }
  rewrite (civil_from_days_stages n), (civil_from_days_stages n1). cbv zeta.
  rewrite Hmp', Hyoe', Hera', Hdoy. f_equal. lia.
Qed.

Lemma In_upto n z : 0 <= z < Z.of_nat n -> In z (upto n).
Proof.
  intros Hz. unfold upto. apply in_map_iff. exists (Z.to_nat z). split.
  - lia.
  - apply in_seq. lia.
Qed.

Lemma periodRoundTrips_true : periodRoundTrips = true.
Proof. vm_compute. reflexivity. Qed.

Lemma daysInMonth_le_31 y m : daysInMonth y m <= 31.
Proof.
  unfold daysInMonth.
  destruct (m =? 1); [destruct (isLeapYear y); lia |].
  destruct ((m =? 3) || (m =? 5) || (m =? 8) || (m =? 10)); lia.
Qed.

Lemma periodRoundTrips_at :
  periodRoundTrips = true ->
  forall y m,
    0 <= y < 400 -> 0 <= m <= 11 ->
    roundTripsAt y m 1 = true /\
    sameMonth (MakeDay y m 1) (MakeDay y m (daysInMonth y m)) = true.
Proof.
  unfold periodRoundTrips. intros H y m Hy Hm.
  rewrite forallb_forall in H. specialize (H y (In_upto 400 y ltac:(lia))).
  rewrite forallb_forall in H. specialize (H m (In_upto 12 m ltac:(lia))).
  apply andb_true_iff in H. exact H.
Qed.

Lemma roundTripsAt_true y m d :
  roundTripsAt y m d = true -> civil_from_days (MakeDay y m d) = (y, m + 1, d).
Proof.
  unfold roundTripsAt. generalize (civil_from_days (MakeDay y m d)).
  intros [[y' m'] d'] H.
  apply andb_true_iff in H. destruct H as [H Hd'].
  apply andb_true_iff in H. destruct H as [Hy' Hm'].
  apply Z.eqb_eq in Hy', Hm', Hd'. congruence.
Qed.

Lemma MakeDay_day y m d : MakeDay y m d = MakeDay y m 1 + (d - 1).
Proof. unfold MakeDay. lia. Qed.

Lemma civil_from_days_MakeDay_period y m d :
  0 <= y < 400 -> 0 <= m <= 11 -> 1 <= d <= daysInMonth y m ->
  civil_from_days (MakeDay y m d) = (y, m + 1, d).
Proof.
  intros Hy Hm Hd.
  destruct (periodRoundTrips_at periodRoundTrips_true y m Hy Hm) as [Hfirst Hsame].
  apply roundTripsAt_true in Hfirst.
  unfold sameMonth in Hsame.
  apply andb_true_iff in Hsame. destruct Hsame as [Hsame Hmp].
  apply andb_true_iff in Hsame. destruct Hsame as [Hera Hyoe].
  apply Z.eqb_eq in Hera, Hyoe, Hmp.
  rewrite (civil_from_days_between (MakeDay y m 1) (MakeDay y m d)
             (MakeDay y m (daysInMonth y m))); try assumption.
  - rewrite Hfirst. rewrite (MakeDay_day y m d). f_equal. lia.
  - rewrite (MakeDay_day y m d), (MakeDay_day y m (daysInMonth y m)). lia.
Qed.

(** For every year, month 0..11 and day of that month, the civil date of
    [MakeDay] is the date it was made from. *)
Lemma civil_from_days_MakeDay y m d :
  0 <= m <= 11 -> 1 <= d <= daysInMonth y m ->
  civil_from_days (MakeDay y m d) = (y, m + 1, d).
Proof.
  intros Hm Hd.
  pose proof (Z.div_mod y 400 ltac:(lia)) as Hy.
  pose proof (Z.mod_pos_bound y 400 ltac:(lia)) as Hr.
  set (q := y / 400) in *. set (r := y mod 400) in *.
  assert (Hdim : daysInMonth y m = daysInMonth r m).
  { unfold daysInMonth. replace y with (r + 400 * q) by lia.
    rewrite isLeapYear_shift. reflexivity. }
  replace y with (r + 400 * q) at 1 by lia.
  rewrite MakeDay_shift, civil_from_days_shift by lia.
  rewrite civil_from_days_MakeDay_period by lia.
  f_equal. f_equal. lia.
Qed.

End Calendar.

(** ** [Array.prototype.sort] *)

Section SortFacts.
Context {A : Type} (comparefn : A -> A -> Number).

Lemma insert_Permutation x l : Permutation (insert comparefn x l) (x :: l).
Proof.
  induction l as [| y l IH]; simpl.
  - apply Permutation_refl.
  - destruct (SortCompare comparefn x y <? 0).
    + apply Permutation_refl.
    + eapply Permutation_trans; [apply perm_skip, IH | apply perm_swap].
Qed.

Lemma fold_insert_Permutation l acc :
  Permutation (fold_left (fun acc x => insert comparefn x acc) l acc) (acc ++ l).
Proof.
  revert acc. induction l as [| x l IH]; intros acc; simpl.
  - rewrite app_nil_r. apply Permutation_refl.
  - eapply Permutation_trans; [apply IH |].
    eapply Permutation_trans; [apply Permutation_app_tail, insert_Permutation |].
    simpl. apply Permutation_cons_app, Permutation_refl.
Qed.

(** Whatever the comparator does, sorting rearranges. *)
Lemma sort_Permutation l : Permutation (sort comparefn l) l.
Proof. unfold sort. apply (fold_insert_Permutation l []). Qed.

Lemma sort_In x l : In x (sort comparefn l) <-> In x l.
Proof.
  split; apply Permutation_in;
    [apply sort_Permutation | apply Permutation_sym, sort_Permutation].
Qed.

Variable key : A -> Z.

Lemma insert_ascending x l :
  byKey comparefn key (x :: l) -> ascending key l -> ascending key (insert comparefn x l).
Proof.
  intros Hk Hs. induction Hs as [| y l Hs IH Hall]; simpl.
  - repeat constructor.
  - rewrite (Hk x y) by (simpl; auto).
    destruct (Z.ltb_spec (key x - key y) 0) as [Hlt | Hge].
    + constructor; [constructor; assumption |].
      constructor; [lia |].
      eapply List.Forall_impl; [| exact Hall]. simpl. intros; lia.
    + constructor.
      * apply IH. intros a b Ha Hb. apply Hk; simpl in *; tauto.
      * eapply Permutation_Forall; [apply Permutation_sym, insert_Permutation |].
        constructor; [lia | assumption].
Qed.

Lemma fold_insert_ascending l acc :
  byKey comparefn key (acc ++ l) -> ascending key acc ->
  ascending key (fold_left (fun acc x => insert comparefn x acc) l acc).
Proof.
  revert acc. induction l as [| x l IH]; intros acc Hk Hs; simpl; [assumption |].
  apply IH.
  - intros a b Ha Hb. apply Hk; apply in_app_iff.
    + apply in_app_iff in Ha. destruct Ha as [Ha | Ha]; [| right; right; exact Ha].
      apply (Permutation_in _ (insert_Permutation x acc)) in Ha.
      destruct Ha as [-> | Ha]; [right; left; reflexivity | left; exact Ha].
    + apply in_app_iff in Hb. destruct Hb as [Hb | Hb]; [| right; right; exact Hb].
      apply (Permutation_in _ (insert_Permutation x acc)) in Hb.
      destruct Hb as [-> | Hb]; [right; left; reflexivity | left; exact Hb].
  - apply insert_ascending; [| assumption].
    intros a b Ha Hb. apply Hk; apply in_app_iff; simpl in *.
    + destruct Ha as [-> | Ha]; [right; left; reflexivity | left; exact Ha].
    + destruct Hb as [-> | Hb]; [right; left; reflexivity | left; exact Hb].
Qed.

(** With a comparator that subtracts keys, the result is in ascending
    order of the keys. *)
Lemma sort_ascending l : byKey comparefn key l -> ascending key (sort comparefn l).
Proof.
  intros Hk. unfold sort. apply fold_insert_ascending; [exact Hk | constructor].
Qed.
(** The sort is stable: the elements of any one key keep the order they
    had. *)
Lemma insert_stable k x l :
  byKey comparefn key (x :: l) -> ascending key l ->
  List.filter (fun a => key a =? k) (insert comparefn x l)
  = List.filter (fun a => key a =? k) l ++ (if key x =? k then [x] else []).
Proof.
  intros Hk Hs. induction Hs as [| y l Hs IH Hall].
  - simpl. destruct (key x =? k); reflexivity.
  - cbn [insert]. rewrite (Hk x y) by (simpl; auto).
    destruct (Z.ltb_spec (key x - key y) 0) as [Hlt | Hge].
    + cbn [List.filter]. destruct (Z.eqb_spec (key x) k) as [Hx | Hx].
      * assert (Hnone : List.filter (fun a => key a =? k) l = []).
        { rewrite (List.filter_ext_in _ (fun _ => false)); [apply List.filter_false |].
          intros a Ha. rewrite List.Forall_forall in Hall. specialize (Hall a Ha).
          apply Z.eqb_neq. lia. }
        rewrite Hnone. destruct (Z.eqb_spec (key y) k); [lia | reflexivity].
      * rewrite app_nil_r. reflexivity.
    + cbn [List.filter]. rewrite IH.
      * destruct (key y =? k); reflexivity.
      * intros a b Ha Hb. apply Hk; simpl in *; tauto.
Qed.

Lemma fold_insert_stable k l acc :
  byKey comparefn key (acc ++ l) -> ascending key acc ->
  List.filter (fun a => key a =? k) (fold_left (fun acc x => insert comparefn x acc) l acc)
  = List.filter (fun a => key a =? k) (acc ++ l).
Proof.
  revert acc. induction l as [| x l IH]; intros acc Hk Hs; simpl.
  - rewrite app_nil_r. reflexivity.
  - assert (Hk' : byKey comparefn key (x :: acc)).
    { intros a b Ha Hb. apply Hk; apply in_app_iff; simpl in *.
      - destruct Ha as [-> | Ha]; [right; left; reflexivity | left; exact Ha].
      - destruct Hb as [-> | Hb]; [right; left; reflexivity | left; exact Hb]. }
    rewrite IH.
    + rewrite !List.filter_app, insert_stable by assumption.
      cbn [List.filter]. rewrite <- app_assoc. destruct (key x =? k); reflexivity.
    + intros a b Ha Hb. apply Hk; apply in_app_iff.
      * apply in_app_iff in Ha. destruct Ha as [Ha | Ha]; [| right; right; exact Ha].
        apply (Permutation_in _ (insert_Permutation x acc)) in Ha.
        destruct Ha as [-> | Ha]; [right; left; reflexivity | left; exact Ha].
      * apply in_app_iff in Hb. destruct Hb as [Hb | Hb]; [| right; right; exact Hb].
        apply (Permutation_in _ (insert_Permutation x acc)) in Hb.
        destruct Hb as [-> | Hb]; [right; left; reflexivity | left; exact Hb].
    + apply insert_ascending; assumption.
Qed.

Lemma sort_stable k l :
  byKey comparefn key l ->
  List.filter (fun a => key a =? k) (sort comparefn l) = List.filter (fun a => key a =? k) l.
Proof.
  intros Hk. unfold sort. apply (fold_insert_stable k l []); [exact Hk | constructor].
Qed.

End SortFacts.

(** Two arrangements of the same elements, both in strictly descending
    order of a key, are the same list. *)
Lemma descending_unique {A : Type} (key : A -> Z) (l1 l2 : list A) :
  StronglySorted (fun a b => key b < key a) l1 ->
  StronglySorted (fun a b => key b < key a) l2 ->
  Permutation l1 l2 -> l1 = l2.
Proof.
  intros H1. revert l2. induction H1 as [| a l1 H1 IH Ha]; intros l2 H2 Hp.
  - apply Permutation_nil in Hp. congruence.
  - destruct H2 as [| b l2 H2 Hb].
    + apply Permutation_sym, Permutation_nil in Hp. discriminate.
    + assert (a = b) as ->.
      { assert (Hin : In a (b :: l2)) by (eapply Permutation_in; [exact Hp | left; reflexivity]).
        assert (Hin' : In b (a :: l1))
          by (eapply Permutation_in; [apply Permutation_sym, Hp | left; reflexivity]).
        destruct Hin as [-> | Hin]; [reflexivity |].
        destruct Hin' as [-> | Hin']; [reflexivity |].
        rewrite List.Forall_forall in Ha, Hb.
        specialize (Ha _ Hin'). specialize (Hb _ Hin). lia. }
      f_equal. apply IH; [assumption |]. eapply Permutation_cons_inv, Hp.
Qed.

(** ** The traversal engine *)

Section TraversalFacts.

Lemma visited_In tw o n : In n (visited tw o) <-> In n (filtered tw o).
Proof. unfold visited. apply sort_In. Qed.

Lemma filtered_In tw o n :
  In n (filtered tw o) <->
  In n (collectAllChildren (root tw)) /\
  keepNode (filterOf o) (includeNonCalendarOf o) n = true.
Proof. unfold filtered. apply filter_In. Qed.

Lemma filtered_withDirection d tw o : filtered tw (withDirection d o) = filtered tw o.
Proof. reflexivity. Qed.

Lemma keepNode_container f nc n :
  isContainer n = true -> f <> leaves -> keepNode f nc n = true.
Proof.
  intros Hc Hf. unfold keepNode. rewrite Hc.
  destruct f; try congruence; rewrite andb_false_r; reflexivity.
Qed.

Lemma keepNode_calendar f n :
  isContainer n = false -> keepNode f false n = true ->
  exists t, getTime (time n) = Num t /\ t <> 0.
Proof.
  unfold keepNode. intros ->. simpl.
  destruct (getTime (time n)) as [| t]; simpl.
  - destruct f; discriminate.
  - destruct (Z.eqb_spec t 0) as [-> | Hne]; simpl.
    + destruct f; discriminate.
    + intros _. exists t. split; [reflexivity | assumption].
Qed.

Lemma keepNode_leaves nc n : keepNode leaves nc n = true -> isContainer n = false.
Proof. unfold keepNode. destruct (isContainer n); [discriminate | reflexivity]. Qed.

(** Without [includeNonCalendar], the leaves that survive the filter have
    times that are numbers. *)
Lemma filtered_leaves_valid tw o :
  filterOf o = leaves -> includeNonCalendarOf o = false ->
  Forall validTime (filtered tw o).
Proof.
  intros Hf Hnc. apply List.Forall_forall. intros n Hn.
  apply filtered_In in Hn. destruct Hn as [_ Hk]. rewrite Hf, Hnc in Hk.
  destruct (keepNode_calendar _ _ (keepNode_leaves _ _ Hk) Hk) as [t [Ht _]].
  unfold validTime. rewrite Ht. reflexivity.
Qed.

Lemma byTime_future l :
  Forall validTime l -> byKey (byTime future) timeOf l.
Proof.
  intros Hv x y Hx Hy. rewrite List.Forall_forall in Hv.
  pose proof (Hv x Hx) as Vx. pose proof (Hv y Hy) as Vy.
  unfold validTime, SortCompare, byTime, timeOf in *.
  destruct (getTime (time x)), (getTime (time y)); try discriminate. reflexivity.
Qed.

Lemma byTime_past l :
  Forall validTime l -> byKey (byTime past) (fun n => - timeOf n) l.
Proof.
  intros Hv x y Hx Hy. rewrite List.Forall_forall in Hv.
  pose proof (Hv x Hx) as Vx. pose proof (Hv y Hy) as Vy.
  unfold validTime, SortCompare, byTime, timeOf in *.
  destruct (getTime (time x)), (getTime (time y)); try discriminate. simpl. lia.
Qed.

Lemma StronglySorted_weaken {A : Type} (R Q : A -> A -> Prop) (P : A -> Prop) l :
  (forall a b, P a -> P b -> R a b -> Q a b) ->
  Forall P l -> StronglySorted R l -> StronglySorted Q l.
Proof.
  intros HRQ HP HS. induction HS as [| a l HS IH Ha]; constructor.
  - apply IH. inversion HP; assumption.
  - inversion HP as [| ? ? Pa Pl]; subst.
    rewrite List.Forall_forall in *. intros b Hb. apply HRQ; auto.
Qed.

Lemma StronglySorted_snoc {A : Type} (R : A -> A -> Prop) l x :
  StronglySorted R l -> Forall (fun a => R a x) l -> StronglySorted R (l ++ [x]).
Proof.
  intros HS. induction HS as [| a l HS IH Ha]; intros Hx; simpl.
  - repeat constructor.
  - inversion Hx as [| ? ? Rax Hl]; subst. constructor.
    + apply IH. assumption.
    + apply Forall_app. split; [assumption | repeat constructor; assumption].
Qed.

Lemma StronglySorted_rev {A : Type} (R : A -> A -> Prop) l :
  StronglySorted R l -> StronglySorted (fun a b => R b a) (rev l).
Proof.
  intros HS. induction HS as [| a l HS IH Ha]; simpl; [constructor |].
  apply StronglySorted_snoc; [assumption |].
  apply List.Forall_forall. intros b Hb. apply in_rev in Hb.
  rewrite List.Forall_forall in Ha. auto.
Qed.

Lemma visited_valid tw o : Forall validTime (filtered tw o) -> Forall validTime (visited tw o).
Proof.
  intros Hv. eapply Permutation_Forall; [| exact Hv].
  apply Permutation_sym, sort_Permutation.
Qed.

Lemma visited_future_ascending tw o :
  directionOf o = future -> Forall validTime (filtered tw o) ->
  ascending timeOf (visited tw o).
Proof.
  intros Hd Hv. unfold visited. rewrite Hd.
  apply sort_ascending, byTime_future, Hv.
Qed.

Lemma visited_past_descending tw o :
  directionOf o = past -> Forall validTime (filtered tw o) ->
  StronglySorted (fun a b => timeOf b <= timeOf a) (visited tw o).
Proof.
  intros Hd Hv. unfold visited. rewrite Hd.
  pose proof (sort_ascending (byTime past) (fun n => - timeOf n) _ (byTime_past _ Hv)) as HS.
  unfold ascending in HS.
  eapply (StronglySorted_weaken _ _ (fun _ => True)); [| | exact HS].
  - simpl. intros; lia.
  - apply List.Forall_forall. auto.
Qed.

Lemma le_of_timeOf a b : validTime a -> validTime b ->
  timeOf a <= timeOf b -> Js.le (getTime (time a)) (getTime (time b)).
Proof.
  unfold validTime, timeOf, Js.le.
  destruct (getTime (time a)), (getTime (time b)); simpl; try discriminate. auto.
Qed.

Lemma strictly_ascending {A : Type} (key : A -> Z) l :
  StronglySorted (fun a b => key a <= key b) l -> List.NoDup (List.map key l) ->
  StronglySorted (fun a b => key a < key b) l.
Proof.
  intros HS. induction HS as [| a l HS IH Ha]; intros Hnd; constructor.
  - apply IH. inversion Hnd; assumption.
  - inversion Hnd as [| ? ? Hnotin _]; subst.
    rewrite List.Forall_forall in *. intros b Hb.
    assert (key b <> key a).
    { intros Heq. apply Hnotin. rewrite <- Heq. apply in_map, Hb. }
    specialize (Ha b Hb). lia.
Qed.

Lemma strictly_descending {A : Type} (key : A -> Z) l :
  StronglySorted (fun a b => key b <= key a) l -> List.NoDup (List.map key l) ->
  StronglySorted (fun a b => key b < key a) l.
Proof.
  intros HS. induction HS as [| a l HS IH Ha]; intros Hnd; constructor.
  - apply IH. inversion Hnd; assumption.
  - inversion Hnd as [| ? ? Hnotin _]; subst.
    rewrite List.Forall_forall in *. intros b Hb.
    assert (key b <> key a).
    { intros Heq. apply Hnotin. rewrite <- Heq. apply in_map, Hb. }
    specialize (Ha b Hb). lia.
Qed.

Lemma NoDup_timeOf l :
  Forall validTime l -> List.NoDup (List.map (fun n => getTime (time n)) l) ->
  List.NoDup (List.map timeOf l).
Proof.
  induction l as [| a l IH]; intros Hv Hnd; simpl; [constructor |].
  inversion Hv as [| ? ? Va Vl]; subst.
  inversion Hnd as [| ? ? Hnotin Hnd']; subst.
  constructor; [| apply IH; assumption].
  intros Hin. apply Hnotin.
  apply in_map_iff in Hin. destruct Hin as [b [Hb Hin]].
  apply in_map_iff. exists b. split; [| assumption].
  rewrite List.Forall_forall in Vl. specialize (Vl b Hin).
  unfold validTime, timeOf in *.
  destruct (getTime (time a)), (getTime (time b)); try discriminate. congruence.
Qed.

End TraversalFacts.

(** C2 (as amended).  With filter [leaves], when every leaf that survives the
    filter has a time that is a number (always so when [includeNonCalendar]
    is false): direction [future] visits the leaves in non-decreasing time
    order, direction [past] in non-increasing time order, and when no two
    surviving leaves share a time the [future] output reversed is the [past]
    output. *)
Theorem traverse_leaves_order tw o :
  filterOf o = leaves ->
  includeNonCalendarOf o = false \/ Forall validTime (filtered tw o) ->
  (directionOf o = future -> nonDecreasing (visited tw o)) /\
  (directionOf o = past -> nonIncreasing (visited tw o)) /\
  (List.NoDup (List.map (fun n => getTime (time n)) (filtered tw o)) ->
   rev (visited tw (withDirection future o)) = visited tw (withDirection past o)).
Proof.
  intros Hf Hv.
  assert (Hvalid : Forall validTime (filtered tw o)).
  { destruct Hv as [Hnc | Hv]; [apply filtered_leaves_valid; assumption | exact Hv]. }
  clear Hv. pose proof (visited_valid tw o Hvalid) as Hvis.
  split; [| split].
  - intros Hd. unfold nonDecreasing.
    eapply (StronglySorted_weaken _ _ validTime);
      [| exact Hvis | apply visited_future_ascending; assumption].
    intros a b Va Vb Hab. apply le_of_timeOf; assumption.
  - intros Hd. unfold nonIncreasing.
    eapply (StronglySorted_weaken _ _ validTime);
      [| exact Hvis | apply visited_past_descending; assumption].
    intros a b Va Vb Hab. apply le_of_timeOf; assumption.
  - intros Hnd.
    assert (Hnd' : forall d, List.NoDup (List.map timeOf (visited tw (withDirection d o)))).
    { intros d. eapply Permutation_NoDup.
      - apply Permutation_map, Permutation_sym, sort_Permutation.
      - apply NoDup_timeOf; assumption. }
    apply (descending_unique timeOf).
    + apply (StronglySorted_rev (fun a b => timeOf a < timeOf b)).
      apply strictly_ascending; [| apply Hnd'].
      apply visited_future_ascending; [reflexivity | exact Hvalid].
    + apply strictly_descending; [| apply Hnd'].
      apply visited_past_descending; [reflexivity | exact Hvalid].
    + eapply Permutation_trans; [apply Permutation_sym, Permutation_rev |].
      eapply Permutation_trans; [apply sort_Permutation |].
      apply Permutation_sym, sort_Permutation.
Qed.

Lemma traverse_leaves_order_witness :
  nonDecreasing (visited twoLeaves (mkOptions (Some future) (Some leaves) None)) /\
  visited twoLeaves (mkOptions (Some future) (Some leaves) None)
  = [leafAt "early" 86400000; leafAt "late" 172800000].
Proof.
  split; [| reflexivity].
  apply (traverse_leaves_order twoLeaves (mkOptions (Some future) (Some leaves) None)).
  - reflexivity.
  - left. reflexivity.
  - reflexivity.
Defined.

(** C2 as stated fails: with [includeNonCalendar] set, a leaf with an
    invalid date survives, and no arrangement that contains it is in
    non-decreasing time order, because NaN compares with nothing. *)
Lemma traverse_leaves_order_counterexample :
  let o := mkOptions (Some future) (Some leaves) (Some true) in
  visited withInvalidLeaf o = [leafAt "five" 5; leafInvalid "broken"] /\
  ~ Sorted (fun a b => Js.le (getTime (time a)) (getTime (time b))) (visited withInvalidLeaf o).
Proof.
  intros o.
  assert (E : visited withInvalidLeaf o = [leafAt "five" 5; leafInvalid "broken"])
    by reflexivity.
  split; [exact E |]. rewrite E. intros HS.
  inversion HS as [| ? ? _ Hhd]; subst.
  inversion Hhd as [| ? ? Hle]; subst. exact Hle.
Qed.

(** The same for every order an engine may choose. *)
Lemma invalid_leaf_never_ordered l :
  Permutation l [leafAt "five" 5; leafInvalid "broken"] ->
  ~ Sorted (fun a b => Js.le (getTime (time a)) (getTime (time b))) l.
Proof.
  intros Hp HS. apply Permutation_sym, Permutation_length_2_inv in Hp.
  destruct Hp as [-> | ->];
    inversion HS as [| ? ? _ Hhd]; subst; inversion Hhd as [| ? ? Hle]; subst; exact Hle.
Qed.

(** C3 (as amended).  A leaf whose time is the zero epoch or not a valid
    date is not visited by [traverse] unless [includeNonCalendar] is set, in
    which case it is visited whenever the filter lets leaves through; and a
    leaf whose time is not a valid date is never returned by [find], whatever
    the target.  (A zero-epoch leaf is returned by [find] for a target on
    its own calendar day.) *)
Theorem calendar_validity_exclusion LocalTZA Date_parse tw n :
  isContainer n = false ->
  (getTime (time n) = Num 0 \/ getTime (time n) = NaN ->
   forall o,
     (includeNonCalendarOf o = false -> ~ In n (visited tw o)) /\
     (includeNonCalendarOf o = true -> filterOf o <> containers ->
      In n (collectAllChildren (root tw)) -> In n (visited tw o))) /\
  (getTime (time n) = NaN ->
   forall targetTime, ~ In n (find LocalTZA Date_parse tw targetTime)).
Proof.
  intros Hleaf. split.
  - intros Ht o. split.
    + intros Hnc Hin. apply visited_In, filtered_In in Hin. destruct Hin as [_ Hk].
      rewrite Hnc in Hk.
      destruct (keepNode_calendar _ _ Hleaf Hk) as [t [Heq Hne]].
      destruct Ht as [Ht | Ht]; congruence.
    + intros Hnc Hf Hin. apply visited_In, filtered_In. split; [assumption |].
      unfold keepNode. rewrite Hleaf, Hnc. simpl.
      destruct (filterOf o); congruence.
  - intros Ht targetTime Hin. unfold find in Hin. apply filter_In in Hin.
    destruct Hin as [_ Hsame]. rewrite Hleaf in Hsame.
    unfold isSameDay, getFullYear, lift in Hsame. rewrite Ht in Hsame.
    discriminate.
Qed.

Lemma calendar_validity_exclusion_witness :
  ~ In (leafInvalid "broken")
       (visited withInvalidLeaf (mkOptions (Some future) (Some leaves) None)) /\
  ~ In (leafInvalid "broken")
       (find hostUTC noParse withInvalidLeaf (ofDate (mkDate NaN))).
Proof.
  pose proof (calendar_validity_exclusion hostUTC noParse withInvalidLeaf
                (leafInvalid "broken") eq_refl) as [Htraverse Hfind].
  split.
  - apply (Htraverse (or_intror eq_refl)). reflexivity.
  - apply (Hfind eq_refl).
Defined.

(** C3 as stated fails: [find] has no calendar-validity test, and returns a
    zero-epoch leaf when asked for 1970-01-01. *)
Lemma find_returns_zero_epoch_leaf :
  isContainer (leafAt "epoch" 0) = false /\
  getTime (time (leafAt "epoch" 0)) = Num 0 /\
  find hostUTC noParse withEpochLeaf (ofDate (mkDate (Num 0))) = [leafAt "epoch" 0].
Proof. repeat split. Qed.

Section NavigateFacts.
Variable Date_parse : string -> Number.

Lemma navigateLoop_Some ts nodes n :
  navigateLoop ts nodes = Some n <->
  exists before after,
    nodes = before ++ n :: after /\ hits ts n = true /\
    Forall (fun m => hits ts m = false) before.
Proof.
  unfold hits. induction nodes as [| m nodes IH]; simpl.
  - split; [discriminate |]. intros [before [after [H _]]].
    destruct before; discriminate.
  - split.
    + destruct (isContainer m) eqn:Hc; [| destruct (strictEq (getTime (time m)) ts) eqn:He].
      * intros H. apply IH in H. destruct H as [before [after [-> [Hn Hb]]]].
        exists (m :: before), after. repeat split; [assumption |].
        constructor; [rewrite Hc; reflexivity | assumption].
      * intros [= ->]. exists [], nodes. rewrite Hc, He. repeat split. constructor.
      * intros H. apply IH in H. destruct H as [before [after [-> [Hn Hb]]]].
        exists (m :: before), after. repeat split; [assumption |].
        constructor; [rewrite Hc, He; reflexivity | assumption].
    + intros [before [after [Heq [Hn Hb]]]]. destruct before as [| b before].
      * simpl in Heq. injection Heq as -> ->.
        apply andb_true_iff in Hn. destruct Hn as [Hc He].
        apply negb_true_iff in Hc. rewrite Hc, He. reflexivity.
      * simpl in Heq. injection Heq as -> ->.
        inversion Hb as [| ? ? Hm Hb']; subst.
        assert (Hrec : navigateLoop ts (before ++ n :: after) = Some n)
          by (apply IH; exists before, after; auto).
        destruct (isContainer b); [exact Hrec |]. simpl in Hm. rewrite Hm. exact Hrec.
Qed.

Lemma navigateLoop_None ts nodes :
  navigateLoop ts nodes = None <-> Forall (fun m => hits ts m = false) nodes.
Proof.
  unfold hits. induction nodes as [| m nodes IH]; simpl.
  - split; [constructor | reflexivity].
  - destruct (isContainer m) eqn:Hc; [| destruct (strictEq (getTime (time m)) ts) eqn:He]; simpl.
    + rewrite IH. split.
      * intros H. constructor; [rewrite Hc; reflexivity | assumption].
      * intros H. inversion H; assumption.
    + split; [discriminate |]. intros H. inversion H as [| ? ? Hm _]; subst.
      rewrite Hc, He in Hm. discriminate.
    + rewrite IH. split.
      * intros H. constructor; [rewrite Hc, He; reflexivity | assumption].
      * intros H. inversion H; assumption.
Qed.

Lemma hits_NaN n : hits NaN n = false.
Proof.
  unfold hits. destruct (getTime (time n)); simpl; apply andb_false_r.
Qed.

(** C5.  [navigate] returns the first node of the pre-order flattening that
    is not a container and whose time is strictly equal, as a number of
    milliseconds, to the target's; it returns [null] exactly when there is
    no such node, and so for every target that is not a valid date.  It is
    a total function: nothing throws. *)
Theorem navigate_first_exact_match tw targetTime :
  (forall n,
     navigate Date_parse tw targetTime = Some n <->
     exists before after,
       collectAllChildren (root tw) = before ++ n :: after /\
       hits (getTime (toTarget Date_parse targetTime)) n = true /\
       Forall (fun m => hits (getTime (toTarget Date_parse targetTime)) m = false) before) /\
  (navigate Date_parse tw targetTime = None <->
   Forall (fun m => hits (getTime (toTarget Date_parse targetTime)) m = false)
          (collectAllChildren (root tw))) /\
  (isNaN (getTime (toTarget Date_parse targetTime)) = true ->
   navigate Date_parse tw targetTime = None).
Proof.
  unfold navigate. split; [| split].
  - intros n. apply navigateLoop_Some.
  - apply navigateLoop_None.
  - intros Hnan. destruct (getTime (toTarget Date_parse targetTime)); [| discriminate].
    apply navigateLoop_None, List.Forall_forall. intros m _. apply hits_NaN.
Qed.
End NavigateFacts.

Lemma navigate_first_exact_match_witness :
  navigate noParse nested (ofString "no date") = None /\
  navigate noParse nested (ofDate (mkDate (Num 86400000))) = Some (leafAt "a" 86400000).
Proof.
  pose proof (navigate_first_exact_match noParse nested (ofString "no date")) as [_ [_ Hnan]].
  split; [apply Hnan; reflexivity | reflexivity].
Defined.

(** C10.  The calendar test of [traverse] is applied to leaves only: every
    container of the flattening is visited when the filter is [all] or
    [containers], whatever [includeNonCalendar] and whatever its time; a
    container without children and without a time of its own has the zero
    epoch as its time and is visited all the same. *)
Theorem containers_always_visited tw o n :
  In n (collectAllChildren (root tw)) ->
  isContainer n = true ->
  filterOf o = all \/ filterOf o = containers ->
  In n (visited tw o) /\
  (forall id, n = GroupWaypoint id [] None -> getTime (time n) = Num 0).
Proof.
  intros Hin Hc Hf. split.
  - apply visited_In, filtered_In. split; [assumption |].
    apply keepNode_container; [assumption |]. destruct Hf as [-> | ->]; discriminate.
  - intros id ->. reflexivity.
Qed.

Lemma containers_always_visited_witness :
  In (GroupWaypoint "empty" [] None) (visited nested (mkOptions None None None)) /\
  getTime (time (GroupWaypoint "empty" [] None)) = Num 0.
Proof.
  destruct (containers_always_visited nested (mkOptions None None None)
              (GroupWaypoint "empty" [] None)) as [Hin Hzero].
  - simpl. auto.
  - reflexivity.
  - left. reflexivity.
  - split; [exact Hin | exact (Hzero "empty"%string eq_refl)].
Defined.

(** ** The path pattern *)

Section PatternFacts.

Lemma search_Some_inv {R : Type} (m : string -> option R) s r :
  search m s = Some r ->
  exists skipped matched, s = (skipped ++ matched)%string /\ m matched = Some r.
Proof.
  induction s as [| c s IH]; simpl.
  - destruct (m EmptyString) eqn:Hm; [| discriminate].
    intros [= ->]. exists EmptyString, EmptyString. auto.
  - destruct (m (String c s)) eqn:Hm.
    + intros [= ->]. exists EmptyString, (String c s). auto.
    + intros H. destruct (IH H) as [skipped [matched [-> Hr]]].
      exists (String c skipped), matched. auto.
Qed.

Lemma search_weaken {R Q : Type} (m1 : string -> option R) (m2 : string -> option Q) s :
  (forall s', is_Some (m1 s') -> is_Some (m2 s')) ->
  is_Some (search m1 s) -> is_Some (search m2 s).
Proof.
  intros Hm. induction s as [| c s IH]; simpl.
  - destruct (m1 EmptyString) eqn:H1.
    + intros _. destruct (Hm EmptyString) as [q Hq]; [rewrite H1; eauto |].
      rewrite Hq. eauto.
    + intros [? [=]].
  - destruct (m1 (String c s)) eqn:H1.
    + intros _. destruct (Hm (String c s)) as [q Hq]; [rewrite H1; eauto |].
      rewrite Hq. eauto.
    + intros H. destruct (m2 (String c s)); [eauto | auto].
Qed.

(** A path that passes [dailyNotePattern.test] is matched by the second
    expression as well. *)
Lemma test_pathMatch p :
  dailyNotePattern_test p = true -> is_Some (pathMatch p).
Proof.
  unfold dailyNotePattern_test, pathMatch. intros H.
  assert (Hs : is_Some (search dailyNoteHere p)).
  { apply (search_weaken dailyNoteFileHere).
    - intros s' [u Hu]. unfold dailyNoteFileHere in Hu.
      destruct (dailyNoteHere s') as [r |]; [eauto | discriminate].
    - destruct (search dailyNoteFileHere p); [eauto | discriminate]. }
  destruct Hs as [[[[year month] day] rest] Hs]. rewrite Hs. simpl. eauto.
Qed.

Lemma isDigit_value c : isDigit c = true -> 0 <= code c - 48 <= 9.
Proof. unfold isDigit. intros H. apply andb_true_iff in H. lia. Qed.

Lemma digits_2 s ds rest :
  digits 2 s = Some (ds, rest) ->
  exists v, parseInt ds = Num v /\ 0 <= v <= 99.
Proof.
  simpl. destruct s as [| c1 [| c2 s]]; try discriminate;
    destruct (isDigit c1) eqn:H1; try discriminate.
  destruct (isDigit c2) eqn:H2; try discriminate.
  intros [= <- <-]. unfold parseInt. simpl. rewrite H1, H2.
  apply isDigit_value in H1, H2. eexists. split; [reflexivity | lia].
Qed.

Lemma digits_4 s ds rest :
  digits 4 s = Some (ds, rest) ->
  exists v, parseInt ds = Num v /\ 0 <= v <= 9999.
Proof.
  simpl. destruct s as [| c1 [| c2 [| c3 [| c4 s]]]]; try discriminate;
    destruct (isDigit c1) eqn:H1; try discriminate;
    destruct (isDigit c2) eqn:H2; try discriminate;
    destruct (isDigit c3) eqn:H3; try discriminate.
  destruct (isDigit c4) eqn:H4; try discriminate.
  intros [= <- <-]. unfold parseInt. simpl. rewrite H1, H2, H3, H4.
  apply isDigit_value in H1, H2, H3, H4. eexists. split; [reflexivity | lia].
Qed.

(** The captures are numbers: four digits, two digits, two digits. *)
Lemma pathMatch_captures p year month day :
  pathMatch p = Some (year, month, day) ->
  exists y m d,
    parseInt year = Num y /\ parseInt month = Num m /\ parseInt day = Num d /\
    0 <= y <= 9999 /\ 0 <= m <= 99 /\ 0 <= d <= 99.
Proof.
  unfold pathMatch. intros H.
  destruct (search dailyNoteHere p) as [[[[year' month'] day'] rest] |] eqn:Hs;
    [| discriminate].
  simpl in H. injection H as -> -> ->.
  apply search_Some_inv in Hs. destruct Hs as [_ [s [_ Hs]]].
  unfold dailyNoteHere in Hs. cbv [mbind option_bind] in Hs.
  destruct (digits 4 s) as [[y1 s1] |] eqn:Hy; [| discriminate]. cbv beta iota in Hs.
  destruct (char "/" s1) as [s2 |]; [| discriminate]. cbv beta iota in Hs.
  destruct (digits 2 s2) as [[m1 s3] |] eqn:Hm; [| discriminate]. cbv beta iota in Hs.
  destruct (char "." s3) as [s4 |]; [| discriminate]. cbv beta iota in Hs.
  destruct (many1 isWordChar (many isWhiteSpace s4)) as [s5 |]; [| discriminate].
  cbv beta iota in Hs.
  destruct (char "/" s5) as [s6 |]; [| discriminate]. cbv beta iota in Hs.
  destruct (digits 2 s6) as [[d1 s7] |] eqn:Hd; [| discriminate]. cbv beta iota in Hs.
  destruct (many1 isWhiteSpace s7) as [s8 |]; [| discriminate]. cbv beta iota in Hs.
  destruct (many1 isWordChar s8) as [s9 |]; [| discriminate]. cbv beta iota in Hs.
  injection Hs as -> -> -> _.
  apply digits_4 in Hy. apply digits_2 in Hm, Hd.
  destruct Hy as [y [Hy ?]], Hm as [m [Hm ?]], Hd as [d [Hd ?]].
  exists y, m, d. auto 10.
Qed.

Lemma digits_inv k s ds rest :
  digits k s = Some (ds, rest) ->
  s = (ds ++ rest)%string /\ String.length ds = k /\ every isDigit ds = true.
Proof.
  revert s ds rest. induction k as [| k IH]; intros s ds rest; simpl.
  - intros [= <- <-]. auto.
  - destruct s as [| c s]; [discriminate |].
    destruct (isDigit c) eqn:Hc; [| discriminate].
    destruct (digits k s) as [[ds' rest'] |] eqn:Hd; [| discriminate].
    intros [= <- <-]. destruct (IH _ _ _ Hd) as [-> [<- He]].
    simpl. rewrite Hc, He. auto.
Qed.

Lemma digits_app k ds rest :
  String.length ds = k -> every isDigit ds = true ->
  digits k (ds ++ rest) = Some (ds, rest).
Proof.
  intros <-. induction ds as [| c ds IH]; simpl; [reflexivity |].
  intros H. apply andb_true_iff in H. destruct H as [Hc Hds].
  rewrite Hc, (IH Hds). reflexivity.
Qed.

Lemma char_inv c s rest : char c s = Some rest -> s = String c rest.
Proof.
  unfold char. destruct s as [| c' s]; [discriminate |].
  destruct (Ascii.eqb_spec c c') as [-> | _]; [| discriminate]. intros [= ->]. reflexivity.
Qed.

Lemma char_String c rest : char c (String c rest) = Some rest.
Proof. unfold char. rewrite Ascii.eqb_refl. reflexivity. Qed.

Lemma many_inv p s : exists taken, s = (taken ++ many p s)%string /\ every p taken = true.
Proof.
  induction s as [| c s [taken [IH Hp]]]; simpl.
  - exists EmptyString. auto.
  - destruct (p c) eqn:Hc.
    + exists (String c taken). split; [rewrite IH at 1; reflexivity |].
      simpl. rewrite Hc, Hp. reflexivity.
    + exists EmptyString. auto.
Qed.

Lemma many_app p taken rest : every p taken = true -> many p (taken ++ rest) = many p rest.
Proof.
  induction taken as [| c taken IH]; simpl; [reflexivity |].
  intros H. apply andb_true_iff in H. destruct H as [Hc Ht]. rewrite Hc. auto.
Qed.

Lemma many1_inv p s rest :
  many1 p s = Some rest ->
  exists taken, s = (taken ++ rest)%string /\ taken <> EmptyString /\ every p taken = true.
Proof.
  unfold many1. destruct s as [| c s]; [discriminate |].
  destruct (p c) eqn:Hc; [| discriminate]. intros [= <-].
  destruct (many_inv p s) as [taken [Hs Hp]].
  exists (String c taken). split; [rewrite Hs at 1; reflexivity |].
  split; [discriminate |]. simpl. rewrite Hc, Hp. reflexivity.
Qed.

Lemma many1_app p taken rest :
  taken <> EmptyString -> every p taken = true ->
  many1 p (taken ++ rest) = Some (many p rest).
Proof.
  destruct taken as [| c taken]; [congruence |]. simpl. intros _ H.
  apply andb_true_iff in H. destruct H as [Hc Ht]. rewrite Hc, many_app; auto.
Qed.

Lemma many_stops p s : (forall c s', s = String c s' -> p c = false) -> many p s = s.
Proof.
  destruct s as [| c s]; simpl; [reflexivity |].
  intros H. rewrite (H c s eq_refl). reflexivity.
Qed.

Lemma word_not_space c : isWordChar c = true -> isWhiteSpace c = false.
Proof.
  unfold isWordChar, isWhiteSpace, isDigit. intros H.
  repeat rewrite ?orb_true_iff, ?andb_true_iff, ?Z.leb_le, ?Z.eqb_eq in H.
  repeat rewrite ?orb_false_iff, ?andb_false_iff, ?Z.leb_gt, ?Z.eqb_neq. lia.
Qed.

(** From a fixed start, the matcher finds exactly the matches of the
    expression; the captures are those of the match, and what it leaves
    over begins where the last word stops. *)
Lemma dailyNoteHere_sound s year month day rest :
  dailyNoteHere s = Some (year, month, day, rest) -> matchesHere s year month day rest.
Proof.
  unfold dailyNoteHere. cbv [mbind option_bind]. intros H.
  destruct (digits 4 s) as [[y s1] |] eqn:Hy; [| discriminate]. cbv beta iota in H.
  destruct (char "/" s1) as [s2 |] eqn:H1; [| discriminate]. cbv beta iota in H.
  destruct (digits 2 s2) as [[m s3] |] eqn:Hm; [| discriminate]. cbv beta iota in H.
  destruct (char "." s3) as [s4 |] eqn:H2; [| discriminate]. cbv beta iota in H.
  destruct (many1 isWordChar (many isWhiteSpace s4)) as [s5 |] eqn:H3; [| discriminate].
  cbv beta iota in H.
  destruct (char "/" s5) as [s6 |] eqn:H4; [| discriminate]. cbv beta iota in H.
  destruct (digits 2 s6) as [[d s7] |] eqn:Hd; [| discriminate]. cbv beta iota in H.
  destruct (many1 isWhiteSpace s7) as [s8 |] eqn:H5; [| discriminate]. cbv beta iota in H.
  destruct (many1 isWordChar s8) as [s9 |] eqn:H6; [| discriminate]. cbv beta iota in H.
  injection H as -> -> -> ->.
  apply digits_inv in Hy, Hm, Hd. apply char_inv in H1, H2, H4.
  destruct (many_inv isWhiteSpace s4) as [ws [Hws Hws']].
  apply many1_inv in H3, H5, H6.
  destruct H3 as [word [Hw [Hw1 Hw2]]], H5 as [ws' [Hs [Hs1 Hs2]]], H6 as [word' [Hv [Hv1 Hv2]]].
  destruct Hy as [Hy [Hy1 Hy2]], Hm as [Hm [Hm1 Hm2]], Hd as [Hd [Hd1 Hd2]].
  exists ws, word, ws', word'. repeat split; try assumption.
  rewrite Hy, H1, Hm, H2, Hws, Hw, H4, Hd, Hs, Hv. reflexivity.
Qed.

Lemma dailyNoteHere_complete s year month day rest :
  matchesHere s year month day rest ->
  dailyNoteHere s = Some (year, month, day, many isWordChar rest).
Proof.
  intros [ws [word [ws' [word' [-> [Hy1 [Hy2 [Hm1 [Hm2 [Hws [Hw1 [Hw2 [Hd1 [Hd2 [Hs1 [Hs2 [Hv1 Hv2]]]]]]]]]]]]]]]]].
  unfold dailyNoteHere. cbv [mbind option_bind].
  rewrite (digits_app 4 year) by assumption. cbv beta iota.
  change ("/" ++ ?x)%string with (String "/" x). rewrite char_String.
  rewrite (digits_app 2 month) by assumption. cbv beta iota.
  change ("." ++ ?x)%string with (String "." x). rewrite char_String.
  rewrite many_app by assumption.
  rewrite (many_stops isWhiteSpace).
  2:{ destruct word as [| c w]; [congruence |]. simpl. intros c' s' [= <- _].
      simpl in Hw2. apply andb_true_iff in Hw2. apply word_not_space. tauto. }
  rewrite many1_app by assumption.
  change ("/" ++ ?x)%string with (String "/" x). cbn [many]. 
  change (isWordChar "/") with false. cbv beta iota. rewrite char_String.
  rewrite (digits_app 2 day) by assumption. cbv beta iota.
  rewrite many1_app by assumption.
  rewrite (many_stops isWhiteSpace).
  2:{ destruct word' as [| c w]; [congruence |]. simpl. intros c' s' [= <- _].
      simpl in Hv2. apply andb_true_iff in Hv2. apply word_not_space. tauto. }
  rewrite many1_app by assumption. reflexivity.
Qed.

Lemma search_None {R : Type} (m : string -> option R) s :
  search m s = None <->
  forall skipped matched, s = (skipped ++ matched)%string -> m matched = None.
Proof.
  induction s as [| c s IH]; simpl.
  - split.
    + destruct (m EmptyString) eqn:Hm; [discriminate |]. intros _ skipped matched H.
      destruct skipped, matched; try discriminate. exact Hm.
    + intros H. rewrite (H EmptyString EmptyString eq_refl). reflexivity.
  - split.
    + destruct (m (String c s)) eqn:Hm; [discriminate |]. intros Hs skipped matched H.
      destruct skipped as [| c' skipped].
      * change (String c s = matched) in H. subst matched. exact Hm.
      * change (String c s = String c' (skipped ++ matched)%string) in H.
        injection H as <- ->. apply (proj1 IH Hs skipped). reflexivity.
    + intros H. rewrite (H EmptyString (String c s) eq_refl).
      apply IH. intros skipped matched ->. apply (H (String c skipped)). reflexivity.
Qed.

Lemma search_Some {R : Type} (m : string -> option R) s r :
  search m s = Some r <->
  exists skipped matched,
    s = (skipped ++ matched)%string /\ m matched = Some r /\
    forall skipped' matched',
      s = (skipped' ++ matched')%string ->
      (String.length skipped' < String.length skipped)%nat -> m matched' = None.
Proof.
  induction s as [| c s IH]; simpl.
  - split.
    + destruct (m EmptyString) eqn:Hm; [| discriminate]. intros [= ->].
      exists EmptyString, EmptyString. repeat split; [assumption |].
      intros ? ? _ Hlt. simpl in Hlt. lia.
    + intros [skipped [matched [H [Hm _]]]].
      destruct skipped, matched; try discriminate. rewrite Hm. reflexivity.
  - split.
    + destruct (m (String c s)) eqn:Hm.
      * intros [= ->]. exists EmptyString, (String c s). repeat split; [assumption |].
        intros ? ? _ Hlt. simpl in Hlt. lia.
      * intros Hs. apply IH in Hs. destruct Hs as [skipped [matched [-> [Hr Hleft]]]].
        exists (String c skipped), matched. repeat split; [assumption |].
        intros [| c' skipped'] matched' H Hlt.
        -- change (String c (skipped ++ matched)%string = matched') in H.
           subst matched'. exact Hm.
        -- change (String c (skipped ++ matched)%string
                   = String c' (skipped' ++ matched')%string) in H.
           injection H as <- H. apply (Hleft skipped'); [assumption |].
           simpl in Hlt. lia.
    + intros [skipped [matched [H [Hr Hleft]]]]. destruct skipped as [| c' skipped].
      * change (String c s = matched) in H. subst matched. rewrite Hr. reflexivity.
      * change (String c s = String c' (skipped ++ matched)%string) in H.
        injection H as <- ->.
        rewrite (Hleft EmptyString (String c (skipped ++ matched)) eq_refl)
          by (simpl; lia).
        apply IH. exists skipped, matched. repeat split; [assumption |].
        intros skipped' matched' H Hlt. apply (Hleft (String c skipped')).
        -- simpl. rewrite H. reflexivity.
        -- simpl. lia.
Qed.

(** [path.match(...)] returns the captures of the leftmost match of the
    second expression. *)
Lemma pathMatch_leftmost p year month day :
  pathMatch p = Some (year, month, day) <->
  exists skipped matched rest,
    p = (skipped ++ matched)%string /\
    matchesHere matched year month day rest /\
    forall skipped' matched' year' month' day' rest',
      p = (skipped' ++ matched')%string ->
      (String.length skipped' < String.length skipped)%nat ->
      ~ matchesHere matched' year' month' day' rest'.
Proof.
  unfold pathMatch. split.
  - destruct (search dailyNoteHere p) as [[[[y m] d] rest] |] eqn:Hs; [| discriminate].
    simpl. intros [= -> -> ->]. apply search_Some in Hs.
    destruct Hs as [skipped [matched [-> [Hm Hleft]]]].
    exists skipped, matched, rest. repeat split; [apply dailyNoteHere_sound, Hm |].
    intros skipped' matched' y' m' d' r' H Hlt Hmatch.
    apply dailyNoteHere_complete in Hmatch. rewrite (Hleft _ _ H Hlt) in Hmatch.
    discriminate.
  - intros [skipped [matched [rest [-> [Hmatch Hleft]]]]].
    apply dailyNoteHere_complete in Hmatch.
    assert (Hs : search dailyNoteHere (skipped ++ matched)
                 = Some (year, month, day, many isWordChar rest)).
    { apply search_Some. exists skipped, matched. repeat split; [assumption |].
      intros skipped' matched' H Hlt.
      destruct (dailyNoteHere matched') as [[[[y' m'] d'] r'] |] eqn:Hm; [| reflexivity].
      exfalso. apply (Hleft _ _ _ _ _ _ H Hlt (dailyNoteHere_sound _ _ _ _ _ Hm)). }
    rewrite Hs. reflexivity.
Qed.

(** [dailyNotePattern.test(path)] holds exactly when the expression matches
    somewhere in the path and the match is followed by [.md] and the end of
    the path. *)
Lemma test_somewhere p :
  dailyNotePattern_test p = true <->
  exists skipped matched year month day,
    p = (skipped ++ matched)%string /\ matchesHere matched year month day ".md".
Proof.
  unfold dailyNotePattern_test. split.
  - destruct (search dailyNoteFileHere p) as [[] |] eqn:Hs; [| discriminate]. intros _.
    apply search_Some in Hs. destruct Hs as [skipped [matched [-> [Hm _]]]].
    unfold dailyNoteFileHere in Hm. cbv [mbind option_bind] in Hm.
    destruct (dailyNoteHere matched) as [[[[y m] d] rest] |] eqn:Hh; [| discriminate].
    destruct (String.eqb_spec rest ".md") as [-> | _]; [| discriminate].
    exists skipped, matched, y, m, d. split; [reflexivity |].
    apply dailyNoteHere_sound, Hh.
  - intros [skipped [matched [y [m [d [-> Hmatch]]]]]].
    apply dailyNoteHere_complete in Hmatch.
    destruct (search dailyNoteFileHere (skipped ++ matched)) as [[] |] eqn:Hs; [reflexivity |].
    exfalso. pose proof (proj1 (search_None _ _) Hs skipped matched eq_refl) as Hnone.
    unfold dailyNoteFileHere in Hnone. cbv [mbind option_bind] in Hnone.
    rewrite Hmatch in Hnone. discriminate.
Qed.

(** The expressions on some paths: a daily note inside other folders; a
    file that is no markdown file; and a path in which the second expression
    matches further left than the first. *)
Example pattern_in_folder :
  dailyNotePattern_test "0C. Calendarish/2025/12. Dec/29 Mon.md" = true /\
  pathMatch "0C. Calendarish/2025/12. Dec/29 Mon.md" = Some ("2025", "12", "29")%string.
Proof. split; reflexivity. Qed.

Example pattern_other_extension :
  dailyNotePattern_test "2025/03. Mar/07 Fri.txt" = false /\
  pathMatch "2025/03. Mar/07 Fri.txt" = Some ("2025", "03", "07")%string.
Proof. split; reflexivity. Qed.

Example pattern_two_matches :
  dailyNotePattern_test "1999/01. Jan/01 Fri x/2025/03. Mar/07 Fri.md" = true /\
  pathMatch "1999/01. Jan/01 Fri x/2025/03. Mar/07 Fri.md" = Some ("1999", "01", "01")%string.
Proof. split; reflexivity. Qed.

End PatternFacts.

(** ** The index builder *)

Section RebuildFacts.

Lemma addFile_leafOf acc file :
  fst (addFile acc file) = fst acc ++ leafOf file.
Proof.
  unfold addFile, leafOf. destruct (pathMatch (path file)) as [[[year month] day] |]; simpl.
  - reflexivity.
  - rewrite app_nil_r. reflexivity.
Qed.

Lemma addFiles_children files acc :
  fst (fold_left addFile files acc) = fst acc ++ flat_map leafOf files.
Proof.
  revert acc. induction files as [| f files IH]; intros acc; simpl.
  - rewrite app_nil_r. reflexivity.
  - rewrite IH, addFile_leafOf, <- app_assoc. reflexivity.
Qed.

Lemma addFile_lookup acc file p :
  snd (addFile acc file) !! p =
  if String.eqb (path file) p then
    match head (leafOf (mkTFile p)) with
    | Some w => Some w
    | None => snd acc !! p
    end
  else snd acc !! p.
Proof.
  unfold addFile, leafOf. destruct file as [q]. simpl.
  destruct (String.eqb_spec q p) as [-> | Hne].
  - destruct (pathMatch p) as [[[year month] day] |]; simpl; [| reflexivity].
    apply lookup_insert_eq.
  - destruct (pathMatch q) as [[[year month] day] |]; simpl; [| reflexivity].
    apply lookup_insert_ne. assumption.
Qed.

Lemma addFiles_lookup files acc p :
  snd (fold_left addFile files acc) !! p =
  match cached p files with
  | Some w => Some w
  | None => snd acc !! p
  end.
Proof.
  revert acc. induction files as [| f files IH]; intros acc; [reflexivity |].
  simpl fold_left. rewrite IH, addFile_lookup. unfold cached. simpl existsb.
  destruct (existsb (fun f0 => String.eqb (path f0) p) files);
    destruct (String.eqb (path f) p); simpl;
    destruct (head (leafOf (mkTFile p))); reflexivity.
Qed.

Lemma rebuild_Return files this :
  rebuild (Return files) this =
  (Return tt,
   mkService
     (mkTimewalk (GroupWaypoint "daily-notes" (flat_map leafOf (matching files)) None))
     (snd (fold_left addFile (matching files) ([], ∅)))).
Proof.
  unfold rebuild. simpl. fold (matching files).
  pose proof (addFiles_children (matching files) ([], ∅)) as Hc. simpl in Hc.
  destruct (fold_left addFile (matching files) ([], ∅)) as [cs mp]. simpl in *.
  rewrite Hc. reflexivity.
Qed.

(** The service the constructor returns is the empty service after one
    [rebuild]. *)
Lemma newTimewalkService_Return files :
  newTimewalkService (Return files) = Return (snd (rebuild (Return files) emptyService)).
Proof.
  unfold newTimewalkService. fold emptyService. rewrite rebuild_Return. reflexivity.
Qed.

Lemma rebuild_children files this :
  children (root (timewalk (snd (rebuild (Return files) this)))) =
  flat_map leafOf (matching files).
Proof. rewrite rebuild_Return. reflexivity. Qed.

Lemma rebuild_lookup files this p :
  waypointMap (snd (rebuild (Return files) this)) !! p = cached p (matching files).
Proof.
  rewrite rebuild_Return. simpl. rewrite addFiles_lookup.
  destruct (cached p (matching files)); [reflexivity | apply lookup_empty].
Qed.

Lemma leafOf_leaf file w : In w (leafOf file) -> exists date, w = ObsidianFileWaypoint file date.
Proof.
  unfold leafOf. destruct (pathMatch (path file)) as [[[year month] day] |]; simpl.
  - intros [<- | []]. eauto.
  - intros [].
Qed.

Lemma flat_leaves ws :
  Forall (fun w => isContainer w = false) ws -> flat_map collectAllChildren ws = ws.
Proof.
  induction 1 as [| w ws Hw _ IH]; simpl; [reflexivity |].
  rewrite IH. destruct w; simpl in *; try discriminate; reflexivity.
Qed.

(** The graph [rebuild] makes is the root followed by its leaves. *)
Lemma rebuild_flattening files this :
  collectAllChildren (root (timewalk (snd (rebuild (Return files) this)))) =
  GroupWaypoint "daily-notes" (flat_map leafOf (matching files)) None
  :: flat_map leafOf (matching files).
Proof.
  rewrite rebuild_Return. simpl. f_equal. apply flat_leaves.
  apply List.Forall_forall. intros w Hw. apply in_flat_map in Hw.
  destruct Hw as [f [_ Hw]]. apply leafOf_leaf in Hw. destruct Hw as [date ->].
  reflexivity.
Qed.

(** A date made by [Date.UTC] from integers is invalid or a whole number
    of days from the epoch, inside the range of time values. *)
Lemma dateFromCaptures_midnight year month day :
  getTime (dateFromCaptures year month day) = NaN \/
  exists n, getTime (dateFromCaptures year month day) = Num (n * msPerDay) /\
            Z.abs (n * msPerDay) <= 8640000000000000.
Proof.
  unfold dateFromCaptures, newDate, Date_UTC_of. simpl.
  destruct (parseInt year) as [| y]; [left; reflexivity |].
  destruct (sub (parseInt month) (Num 1)) as [| m]; [left; reflexivity |].
  destruct (parseInt day) as [| d]; [left; reflexivity |].
  unfold Date_UTC, MakeDate.
  set (n := MakeDay _ m d). rewrite Z.add_0_r. unfold TimeClip.
  destruct (Z.leb_spec (Z.abs (n * msPerDay)) 8640000000000000) as [Hle | Hgt].
  - right. exists n. apply Z.leb_le in Hle. rewrite Hle.
    apply Z.leb_le in Hle. auto.
  - left. reflexivity.
Qed.

End RebuildFacts.

Section DateFacts.

Lemma daysBeforeMonth_bound leap m : 0 <= daysBeforeMonth leap m <= 335.
Proof.
  unfold daysBeforeMonth.
  destruct leap, m as [| [[[[|p|]|[|p|]|]|[[|p|]|[|p|]|]|]|[[[|p|]|[|p|]|]|[[|p|]|[|p|]|]|]|] |];
    lia.
Qed.

Lemma MakeDay_bound y m d :
  0 <= y <= 9999 -> 0 <= m <= 11 -> 1 <= d <= 31 ->
  -720000 <= MakeDay y m d <= 2940000.
Proof.
  intros Hy Hm Hd. unfold MakeDay, DayFromYear.
  rewrite (Z.div_small m 12), (Z.mod_small m 12), Z.add_0_r by lia.
  pose proof (daysBeforeMonth_bound (isLeapYear y) m).
  pose proof (Z.div_le_mono (y - 1969) (9999 - 1969) 4 ltac:(lia) ltac:(lia)).
  pose proof (Z.div_le_mono (0 - 1969) (y - 1969) 4 ltac:(lia) ltac:(lia)).
  pose proof (Z.div_le_mono (y - 1901) (9999 - 1901) 100 ltac:(lia) ltac:(lia)).
  pose proof (Z.div_le_mono (0 - 1901) (y - 1901) 100 ltac:(lia) ltac:(lia)).
  pose proof (Z.div_le_mono (y - 1601) (9999 - 1601) 400 ltac:(lia) ltac:(lia)).
  pose proof (Z.div_le_mono (0 - 1601) (y - 1601) 400 ltac:(lia) ltac:(lia)).
  change ((9999 - 1969) / 4) with 2007 in *. change ((0 - 1969) / 4) with (-493) in *.
  change ((9999 - 1901) / 100) with 80 in *. change ((0 - 1901) / 100) with (-20) in *.
  change ((9999 - 1601) / 400) with 20 in *. change ((0 - 1601) / 400) with (-5) in *.
  lia.
Qed.

(** For a year from 100 on and a day that exists, [Date.UTC] gives
    midnight, UTC, of that very day. *)
Lemma dateFromCaptures_valid year month day y m d :
  parseInt year = Num y -> parseInt month = Num m -> parseInt day = Num d ->
  100 <= y <= 9999 -> 1 <= m <= 12 -> 1 <= d <= daysInMonth y (m - 1) ->
  getTime (dateFromCaptures year month day) = Num (MakeDay y (m - 1) d * msPerDay).
Proof.
  intros Hy Hm Hd Ry Rm Rd.
  unfold dateFromCaptures, newDate, Date_UTC_of. rewrite Hy, Hm, Hd. simpl.
  unfold Date_UTC, MakeDate.
  replace ((0 <=? y) && (y <=? 99)) with false
    by (symmetry; apply andb_false_iff; right; apply Z.leb_gt; lia).
  rewrite Z.add_0_r.
  pose proof (daysInMonth_le_31 y (m - 1)).
  pose proof (MakeDay_bound y (m - 1) d ltac:(lia) ltac:(lia) ltac:(lia)) as Hb.
  assert (Hclip : (Z.abs (MakeDay y (m - 1) d * msPerDay) <=? 8640000000000000) = true)
    by (apply Z.leb_le; unfold msPerDay; lia).
  unfold TimeClip. rewrite Hclip. simpl. rewrite Hclip. reflexivity.
Qed.

Lemma Day_midnight n : Day (n * msPerDay) = n.
Proof. unfold Day. apply Z.div_mul. discriminate. Qed.

Lemma TimeWithinDay_midnight n : TimeWithinDay (n * msPerDay) = 0.
Proof. unfold TimeWithinDay. apply Z.mod_mul. discriminate. Qed.

End DateFacts.

(** What [rebuild] does with a listed file.  A file whose path passes the
    pattern with the [.md] ending becomes a leaf of the graph, dated by
    [Date.UTC] from the captured year, month and day; when the captured year
    is at least 100 and the captured month and day name a day that exists,
    that date is midnight UTC of exactly that day.  A file whose path does
    not pass is left out of the graph and of the lookup map, and [rebuild]
    returns normally.  The path [2025/03. Mar/07 Fri.md] is dated
    2025-03-07T00:00:00Z, and [notes/random.md] does not pass. *)
Theorem rebuild_indexes_by_path files this file :
  In file files ->
  fst (rebuild (Return files) this) = Return tt /\
  (dailyNotePattern_test (path file) = false ->
   waypointMap (snd (rebuild (Return files) this)) !! path file = None /\
   forall w, In w (collectAllChildren (root (timewalk (snd (rebuild (Return files) this))))) ->
             getFile w <> Return file) /\
  (dailyNotePattern_test (path file) = true ->
   exists year month day y m d,
     pathMatch (path file) = Some (year, month, day) /\
     parseInt year = Num y /\ parseInt month = Num m /\ parseInt day = Num d /\
     In (ObsidianFileWaypoint file (dateFromCaptures year month day))
        (children (root (timewalk (snd (rebuild (Return files) this))))) /\
     (100 <= y -> 1 <= m <= 12 -> 1 <= d <= daysInMonth y (m - 1) ->
      exists t,
        getTime (dateFromCaptures year month day) = Num t /\
        TimeWithinDay t = 0 /\
        getUTCFullYear (dateFromCaptures year month day) = Num y /\
        getUTCMonth (dateFromCaptures year month day) = Num (m - 1) /\
        getUTCDate (dateFromCaptures year month day) = Num d)) /\
  (pathMatch (path march7) = Some ("2025", "03", "07")%string /\
   dailyNotePattern_test (path march7) = true /\
   getTime (dateFromCaptures "2025" "03" "07") = Num 1741305600000 /\
   civil_from_days (Day 1741305600000) = (2025, 3, 7) /\
   TimeWithinDay 1741305600000 = 0) /\
  dailyNotePattern_test (path random) = false.
Proof.
  intros Hin. split; [rewrite rebuild_Return; reflexivity |].
  split; [| split; [| split; [| reflexivity]]].
  - intros Htest. split.
    + rewrite rebuild_lookup. unfold cached.
      destruct (existsb _ (matching files)) eqn:He; [| reflexivity].
      apply existsb_exists in He. destruct He as [f [Hf Hp]].
      apply filter_In in Hf. destruct Hf as [_ Hf].
      apply String.eqb_eq in Hp. rewrite Hp in Hf. congruence.
    + intros w Hw. rewrite rebuild_flattening in Hw. destruct Hw as [<- | Hw].
      * discriminate.
      * apply in_flat_map in Hw. destruct Hw as [f [Hf Hw]].
        apply leafOf_leaf in Hw. destruct Hw as [date ->]. simpl.
        intros [= ->]. apply filter_In in Hf. destruct Hf as [_ Hf]. congruence.
  - intros Htest.
    destruct (test_pathMatch _ Htest) as [[[year month] day] Hm].
    destruct (pathMatch_captures _ _ _ _ Hm) as [y [m [d [Hy [Hmo [Hd [Ry [Rm Rd]]]]]]]].
    exists year, month, day, y, m, d. repeat (split; [assumption |]). split.
    + rewrite rebuild_children. apply in_flat_map. exists file. split.
      * apply filter_In. auto.
      * unfold leafOf. rewrite Hm. left. reflexivity.
    + intros Hy100 Hm12 Hdim.
      pose proof (dateFromCaptures_valid year month day y m d Hy Hmo Hd
                    ltac:(lia) Hm12 Hdim) as Ht.
      exists (MakeDay y (m - 1) d * msPerDay). split; [exact Ht |].
      split; [apply TimeWithinDay_midnight |].
      unfold getUTCFullYear, getUTCMonth, getUTCDate, lift. rewrite Ht.
      unfold YearFromTime, MonthFromTime, DateFromTime.
      rewrite Day_midnight, civil_from_days_MakeDay by lia. simpl.
      repeat split; f_equal; lia.
  - repeat split.
Qed.

Lemma rebuild_indexes_by_path_witness :
  In (ObsidianFileWaypoint march7 (mkDate (Num 1741305600000)))
     (children (root (timewalk (snd (rebuild (Return [random; march7]) emptyService))))) /\
  waypointMap (snd (rebuild (Return [random; march7]) emptyService)) !! path random = None.
Proof.
  destruct (rebuild_indexes_by_path [random; march7] emptyService march7)
    as [_ [_ [Hyes _]]]; [simpl; auto |].
  destruct (rebuild_indexes_by_path [random; march7] emptyService random)
    as [_ [Hno _]]; [simpl; auto |].
  split.
  - destruct (Hyes eq_refl) as [year [month [day [y [m [d [Hm [_ [_ [_ [Hleaf _]]]]]]]]]]].
    injection Hm as <- <- <-. exact Hleaf.
  - apply (Hno eq_refl).
Defined.

(** A captured year below 100 is read by [Date.UTC] as a year of the
    twentieth century. *)
Lemma rebuild_year_25_counterexample :
  let file := mkTFile "0025/03. Mar/07 Fri.md" in
  children (root (timewalk (snd (rebuild (Return [file]) emptyService))))
  = [ObsidianFileWaypoint file (dateFromCaptures "0025" "03" "07")] /\
  parseInt "0025" = Num 25 /\
  getUTCFullYear (dateFromCaptures "0025" "03" "07") = Num 1925 /\
  getUTCFullYear (dateFromCaptures "0025" "03" "07") <> parseInt "0025".
Proof. vm_compute. repeat split. discriminate. Qed.

(** Nor is a captured month or day that names no day rejected: the date
    carries over into the following month. *)
Lemma rebuild_month_13_normalised :
  let file := mkTFile "2025/13. Xyz/07 Fri.md" in
  children (root (timewalk (snd (rebuild (Return [file]) emptyService))))
  = [ObsidianFileWaypoint file (dateFromCaptures "2025" "13" "07")] /\
  civil_from_days (Day (timeOf (ObsidianFileWaypoint file (dateFromCaptures "2025" "13" "07"))))
  = (2026, 1, 7).
Proof. repeat split. Qed.

Lemma everySuffix_split P p :
  everySuffix P p -> forall skipped matched, p = (skipped ++ matched)%string -> P matched.
Proof.
  intros H skipped. revert p H. induction skipped as [| c skipped IH]; intros p H matched ->.
  - destruct matched; apply H.
  - change (String c skipped ++ matched)%string with (String c (skipped ++ matched)) in H.
    destruct H as [_ H]. apply (IH _ H). reflexivity.
Qed.

(** The expression that ends in [.md] matches the path of [nestedNote] in
    one way only, as the note of 2025-01-01. *)
Lemma nestedNote_matches_once skipped matched year month day :
  path nestedNote = (skipped ++ matched)%string ->
  matchesHere matched year month day ".md" ->
  (year, month, day) = ("2025", "01", "01")%string.
Proof.
  intros Hp Hm. apply dailyNoteHere_complete in Hm.
  change (many isWordChar ".md") with ".md"%string in Hm.
  revert year month day Hm.
  refine (everySuffix_split
            (fun matched => forall year month day,
               dailyNoteHere matched = Some (year, month, day, ".md"%string) ->
               (year, month, day) = ("2025", "01", "01")%string)
            (path nestedNote) _ skipped matched Hp).
  unfold nestedNote, path, everySuffix.
  repeat split; intros year month day H; vm_compute in H; congruence.
Qed.

(** C7 is violated by the code.  The claim: a file whose path matches the
    pattern becomes a leaf dated at midnight UTC of exactly the captured
    year, month and day.  Three listed files that pass the pattern are dated
    otherwise.  [0025/03. Mar/07 Fri.md] is dated 1925-03-07, where the
    fallback of [getDailyNoteDate] reads the same path as 0025-03-07.
    [2025/13. Xyz/07 Fri.md] is dated 2026-01-07, where the fallback finds
    no date.  And [Journal/2024/12. Dec/31 Tue/2025/01. Jan/01 Wed.md], which
    the pattern admits as the note of 2025-01-01 and in no other way, is
    dated 2024-12-31, from the folder above it. *)
Theorem rebuild_dates_off_the_captured_day :
  (dailyNotePattern_test (path year25Note) = true /\
   children (root (timewalk (snd (rebuild (Return [year25Note]) emptyService))))
   = [ObsidianFileWaypoint year25Note (mkDate (Num (-1414454400000)))] /\
   civil_from_days (Day (-1414454400000)) = (1925, 3, 7) /\
   format_YYYY_MM_DD hostUTC <$> getDailyNoteDate hostUTC emptyService year25Note
   = Some (YMD 25 3 7)) /\
  (dailyNotePattern_test (path month13Note) = true /\
   children (root (timewalk (snd (rebuild (Return [month13Note]) emptyService))))
   = [ObsidianFileWaypoint month13Note (mkDate (Num 1767744000000))] /\
   civil_from_days (Day 1767744000000) = (2026, 1, 7) /\
   getDailyNoteDate hostUTC emptyService month13Note = None) /\
  (dailyNotePattern_test (path nestedNote) = true /\
   (forall skipped matched year month day,
      path nestedNote = (skipped ++ matched)%string ->
      matchesHere matched year month day ".md" ->
      (year, month, day) = ("2025", "01", "01")%string) /\
   children (root (timewalk (snd (rebuild (Return [nestedNote]) emptyService))))
   = [ObsidianFileWaypoint nestedNote (mkDate (Num 1735603200000))] /\
   civil_from_days (Day 1735603200000) = (2024, 12, 31)).
Proof.
  split; [| split].
  - repeat split.
  - repeat split.
  - split; [reflexivity |]. split; [apply nestedNote_matches_once |]. split; reflexivity.
Qed.

(** C4 (as amended).  When the listing call at the start of [rebuild]
    raises, [rebuild] raises the same exception and leaves the previous
    graph in place, never an empty one; the lookup map, which is cleared
    before the listing is asked for, is left empty.  When the listing
    succeeds, graph and map are replaced together and agree: every entry of
    the map is a leaf of the new graph under its own path, and every leaf of
    the new graph has an entry. *)
Theorem rebuild_listing_failure e this files :
  (fst (rebuild (Throw e) this) = Throw e /\
   timewalk (snd (rebuild (Throw e) this)) = timewalk this /\
   waypointMap (snd (rebuild (Throw e) this)) = ∅) /\
  (forall p w,
     waypointMap (snd (rebuild (Return files) this)) !! p = Some w ->
     In w (children (root (timewalk (snd (rebuild (Return files) this))))) /\
     identifier w = p) /\
  (forall w,
     In w (children (root (timewalk (snd (rebuild (Return files) this))))) ->
     is_Some (waypointMap (snd (rebuild (Return files) this)) !! identifier w)).
Proof.
  split; [repeat split |]. split.
  - intros p w. rewrite rebuild_lookup, rebuild_children. unfold cached.
    destruct (existsb _ (matching files)) eqn:He; [| discriminate].
    apply existsb_exists in He. destruct He as [[q] [Hf Hq]].
    apply String.eqb_eq in Hq. simpl in Hq. subst q.
    intros Hw. assert (Hin : In w (leafOf (mkTFile p))).
    { destruct (leafOf (mkTFile p)); [discriminate |]. injection Hw as ->. left. reflexivity. }
    split.
    + apply in_flat_map. exists (mkTFile p). auto.
    + apply leafOf_leaf in Hin. destruct Hin as [date ->]. reflexivity.
  - intros w. rewrite rebuild_lookup, rebuild_children. intros Hw.
    apply in_flat_map in Hw. destruct Hw as [[q] [Hf Hw]].
    destruct (leafOf_leaf _ _ Hw) as [date ->]. simpl. unfold cached.
    replace (existsb (fun f => String.eqb (path f) q) (matching files)) with true.
    + destruct (leafOf (mkTFile q)); [destruct Hw | simpl; eauto].
    + symmetry. apply existsb_exists. exists (mkTFile q). split; [assumption |].
      apply String.eqb_refl.
Qed.

(** C4 as stated fails: after a listing failure the map is not what it was
    before the call; the graph still holds the leaf that the map has lost. *)
Lemma rebuild_listing_failure_clears_cache :
  let after := snd (rebuild (Throw (HostError "listing failed")) indexedMarch7) in
  is_Some (waypointMap indexedMarch7 !! path march7) /\
  waypointMap after !! path march7 = None /\
  waypointMap after <> waypointMap indexedMarch7 /\
  In (ObsidianFileWaypoint march7 (mkDate (Num 1741305600000)))
     (collectAllChildren (root (timewalk after))).
Proof.
  assert (Hold : waypointMap indexedMarch7 !! path march7
                 = Some (ObsidianFileWaypoint march7 (mkDate (Num 1741305600000)))).
  { unfold indexedMarch7. rewrite rebuild_lookup. reflexivity. }
  intros after.
  assert (Hafter : after = mkService (timewalk indexedMarch7) ∅) by reflexivity.
  rewrite Hafter. cbn [waypointMap timewalk]. split; [| split; [| split]].
  - rewrite Hold. eauto.
  - apply lookup_empty.
  - intros Heq. rewrite <- Heq, lookup_empty in Hold. discriminate.
  - unfold indexedMarch7. rewrite rebuild_flattening. simpl. auto.
Qed.

(** ** [getDailyNoteDate] *)

Section DateLookupFacts.
Variable LocalTZA : Z -> bool -> Z.

Lemma getDailyNoteDate_uncached this file :
  waypointMap this !! path file = None ->
  getDailyNoteDate LocalTZA this file = fallback LocalTZA file.
Proof.
  intros Hmiss. unfold getDailyNoteDate. rewrite Hmiss. reflexivity.
Qed.

Lemma getDailyNoteDate_cached files prior file year month day :
  In file files -> dailyNotePattern_test (path file) = true ->
  pathMatch (path file) = Some (year, month, day) ->
  getDailyNoteDate LocalTZA (snd (rebuild (Return files) prior)) file
  = Some (moment (dateFromCaptures year month day)).
Proof.
  intros Hin Htest Hm. unfold getDailyNoteDate. rewrite rebuild_lookup. unfold cached.
  replace (existsb (fun f => String.eqb (path f) (path file)) (matching files)) with true.
  - unfold leafOf. simpl. rewrite Hm. reflexivity.
  - symmetry. apply existsb_exists. exists file. split.
    + apply filter_In. auto.
    + apply String.eqb_refl.
Qed.

(** The local calendar day of UTC midnight of a day, east of Greenwich. *)
Lemma format_cached year month day y m d :
  parseInt year = Num y -> parseInt month = Num m -> parseInt day = Num d ->
  100 <= y <= 9999 -> 1 <= m <= 12 -> 1 <= d <= daysInMonth y (m - 1) ->
  0 <= LocalTZA (MakeDay y (m - 1) d * msPerDay) true < msPerDay ->
  format_YYYY_MM_DD LocalTZA (moment (dateFromCaptures year month day)) = YMD y m d.
Proof.
  intros Hy Hm Hd Ry Rm Rd Hz. unfold format_YYYY_MM_DD, moment. simpl _d. simpl _isUTC.
  rewrite (dateFromCaptures_valid year month day y m d) by assumption.
  set (n := MakeDay y (m - 1) d) in *. unfold LocalTime.
  assert (HDay : Day (n * msPerDay + LocalTZA (n * msPerDay) true) = n).
  { unfold Day. rewrite Z.add_comm, Z.div_add by discriminate.
    rewrite Z.div_small by assumption. reflexivity. }
  rewrite HDay. unfold n. rewrite civil_from_days_MakeDay by lia.
  f_equal. lia.
Qed.

(** The local calendar day of local midnight of a day. *)
Lemma format_fallback year month day y m d :
  parseInt year = Num y -> parseInt month = Num m -> parseInt day = Num d ->
  0 <= y <= 9999 -> 1 <= m <= 12 -> 1 <= d <= daysInMonth y (m - 1) ->
  Z.abs (LocalTZA (MakeDay y (m - 1) d * msPerDay) false) < msPerDay ->
  LocalTZA (UTC LocalTZA (MakeDay y (m - 1) d * msPerDay)) true
  = LocalTZA (MakeDay y (m - 1) d * msPerDay) false ->
  isValid (moment_parse LocalTZA year month day) = true /\
  format_YYYY_MM_DD LocalTZA (moment_parse LocalTZA year month day) = YMD y m d.
Proof.
  intros Hy Hm Hd Ry Rm Rd Hz Hc. unfold moment_parse. rewrite Hy, Hm, Hd.
  replace ((1 <=? m) && (m <=? 12) && (1 <=? d) && (d <=? daysInMonth y (m - 1)))
    with true by (symmetry; rewrite !andb_true_iff, !Z.leb_le; lia).
  unfold MakeDate. rewrite Z.add_0_r. set (n := MakeDay y (m - 1) d) in *.
  pose proof (daysInMonth_le_31 y (m - 1)).
  pose proof (MakeDay_bound y (m - 1) d ltac:(lia) ltac:(lia) ltac:(lia)) as Hb.
  fold n in Hb.
  assert (Hclip : (Z.abs (UTC LocalTZA (n * msPerDay)) <=? 8640000000000000) = true)
    by (apply Z.leb_le; unfold UTC, msPerDay in *; lia).
  unfold isValid, format_YYYY_MM_DD, newDate, TimeClip. rewrite Hclip.
  cbn [_d _isUTC getTime isNaN negb].
  split; [reflexivity |].
  unfold LocalTime. rewrite Hc. unfold UTC.
  replace (n * msPerDay - LocalTZA (n * msPerDay) false + LocalTZA (n * msPerDay) false)
    with (n * msPerDay) by lia.
  rewrite Day_midnight. unfold n. rewrite civil_from_days_MakeDay by lia.
  f_equal. lia.
Qed.

(** Where the two branches of [getDailyNoteDate] agree.  For a listed file
    whose path passes the pattern, the cache branch returns the moment of the
    date [rebuild] gave the leaf, and on a cache miss the fallback returns
    local midnight of the captured day if that day exists.  When the captured
    year is at least 100, the captured month and day name a day that exists,
    and the host's offset from UTC on that day is at least zero and less than
    a day, both branches give the same calendar date, the captured one.
    [getDailyNoteDate] returns [null] exactly when the file is not in the map
    and its path does not give a valid parsed date. *)
Lemma getDailyNoteDate_branches_agree files prior uncached file :
  In file files -> dailyNotePattern_test (path file) = true ->
  waypointMap uncached !! path file = None ->
  (exists year month day y m d,
     pathMatch (path file) = Some (year, month, day) /\
     parseInt year = Num y /\ parseInt month = Num m /\ parseInt day = Num d /\
     getDailyNoteDate LocalTZA (snd (rebuild (Return files) prior)) file
     = Some (moment (dateFromCaptures year month day)) /\
     getDailyNoteDate LocalTZA uncached file
     = (if isValid (moment_parse LocalTZA year month day)
        then Some (moment_parse LocalTZA year month day) else None) /\
     (100 <= y -> 1 <= m <= 12 -> 1 <= d <= daysInMonth y (m - 1) ->
      0 <= LocalTZA (MakeDay y (m - 1) d * msPerDay) true < msPerDay ->
      Z.abs (LocalTZA (MakeDay y (m - 1) d * msPerDay) false) < msPerDay ->
      LocalTZA (UTC LocalTZA (MakeDay y (m - 1) d * msPerDay)) true
      = LocalTZA (MakeDay y (m - 1) d * msPerDay) false ->
      exists fromCache fromPath,
        getDailyNoteDate LocalTZA (snd (rebuild (Return files) prior)) file = Some fromCache /\
        getDailyNoteDate LocalTZA uncached file = Some fromPath /\
        format_YYYY_MM_DD LocalTZA fromCache = YMD y m d /\
        format_YYYY_MM_DD LocalTZA fromPath = YMD y m d)) /\
  (forall this f,
     getDailyNoteDate LocalTZA this f = None <->
     waypointMap this !! path f = None /\ fallback LocalTZA f = None).
Proof.
  intros Hin Htest Hmiss. split.
  - destruct (test_pathMatch _ Htest) as [[[year month] day] Hm].
    destruct (pathMatch_captures _ _ _ _ Hm) as [y [m [d [Hy [Hmo [Hd [Ry [Rm Rd]]]]]]]].
    exists year, month, day, y, m, d. repeat (split; [assumption |]).
    pose proof (getDailyNoteDate_cached files prior file year month day Hin Htest Hm) as Hc.
    pose proof (getDailyNoteDate_uncached uncached file Hmiss) as Hu.
    unfold fallback in Hu. rewrite Hm in Hu.
    split; [exact Hc |]. split; [exact Hu |].
    intros Hy100 Hm12 Hdim Hz1 Hz2 Hz3.
    destruct (format_fallback year month day y m d Hy Hmo Hd ltac:(lia) Hm12 Hdim Hz2 Hz3)
      as [Hvalid Hfmt].
    rewrite Hvalid in Hu.
    exists (moment (dateFromCaptures year month day)), (moment_parse LocalTZA year month day).
    repeat split; try assumption.
    apply format_cached; auto; lia.
  - intros this f. unfold getDailyNoteDate, fallback.
    destruct (waypointMap this !! path f) as [w |].
    + split; [discriminate | intros [? _]; discriminate].
    + tauto.
Qed.
End DateLookupFacts.

(** On a host at UTC the branches agree on the note of 2025-03-07. *)
Example getDailyNoteDate_branches_at_utc :
  exists fromCache fromPath,
    getDailyNoteDate hostUTC indexedMarch7 march7 = Some fromCache /\
    getDailyNoteDate hostUTC emptyService march7 = Some fromPath /\
    format_YYYY_MM_DD hostUTC fromCache = YMD 2025 3 7 /\
    format_YYYY_MM_DD hostUTC fromPath = YMD 2025 3 7.
Proof.
  destruct (getDailyNoteDate_branches_agree hostUTC [march7] emptyService emptyService march7)
    as [[year [month [day [y [m [d [Hm [Hy [Hmo [Hd [_ [_ Hsame]]]]]]]]]]]] _].
  - simpl. auto.
  - reflexivity.
  - reflexivity.
  - injection Hm as <- <- <-. injection Hy as <-. injection Hmo as <-. injection Hd as <-.
    apply Hsame; try reflexivity; try (vm_compute; intuition congruence).
Qed.

(** C9 is violated by the code.  The claim: for a file whose path matches the
    pattern, [getDailyNoteDate] gives the same calendar date from the cache
    and from the path.  On a host five hours west of Greenwich, for the
    listed file [2025/03. Mar/07 Fri.md] the cache branch gives a moment that
    prints as 2025-03-06, the fallback one that prints as 2025-03-07.  And on
    any host, for the listed file [2025/13. Xyz/07 Fri.md] the cache branch
    gives 2026-01-07 where the fallback gives [null]. *)
Theorem getDailyNoteDate_branches_differ :
  let west : Z -> bool -> Z := fun _ _ => -18000000 in
  let month13 := mkTFile "2025/13. Xyz/07 Fri.md" in
  (format_YYYY_MM_DD west <$> getDailyNoteDate west indexedMarch7 march7 = Some (YMD 2025 3 6) /\
   format_YYYY_MM_DD west <$> getDailyNoteDate west emptyService march7 = Some (YMD 2025 3 7)) /\
  (dailyNotePattern_test (path month13) = true /\
   format_YYYY_MM_DD hostUTC
     <$> getDailyNoteDate hostUTC (snd (rebuild (Return [month13]) emptyService)) month13
   = Some (YMD 2026 1 7) /\
   getDailyNoteDate hostUTC emptyService month13 = None).
Proof.
  assert (Hwest : forall tz,
            getDailyNoteDate tz indexedMarch7 march7
            = Some (moment (mkDate (Num 1741305600000)))).
  { intros tz. unfold indexedMarch7.
    rewrite (getDailyNoteDate_cached tz [march7] emptyService march7 "2025" "03" "07");
      [reflexivity | simpl; auto | reflexivity | reflexivity]. }
  simpl. rewrite Hwest. repeat split.
Qed.

(** ** Neighbours in the chronological sequence *)

Section AdjacentFacts.
Variable LocalTZA : Z -> bool -> Z.

Lemma fold_push {A : Type} (l acc : list A) :
  fold_left (fun waypoints waypoint => waypoints ++ [waypoint]) l acc = acc ++ l.
Proof.
  revert acc. induction l as [| x l IH]; intros acc; simpl.
  - rewrite app_nil_r. reflexivity.
  - rewrite IH, <- app_assoc. reflexivity.
Qed.

(** Pushing every visited node onto an empty array gives the visited
    nodes. *)
Lemma collect_visited tw o : collect tw o = visited tw o.
Proof. unfold collect, traverse. apply fold_push. Qed.

Lemma findIndexFrom_none {A : Type} (p : A -> bool) i l :
  Forall (fun x => p x = false) l -> findIndexFrom p i l = -1.
Proof.
  intros H. revert i. induction H as [| x l Hx _ IH]; intros i; simpl.
  - reflexivity.
  - rewrite Hx. apply IH.
Qed.


End AdjacentFacts.



(** ** The timeline *)

Section TimelineFacts.
Variable LocalTZA : Z -> bool -> Z.
Variables activeDate currentDate : Moment.

Lemma timelineFrom_one file date :
  timelineFrom LocalTZA activeDate currentDate [ObsidianFileWaypoint file date]
  = Return [noteOf LocalTZA activeDate currentDate (ObsidianFileWaypoint file date) file].
Proof. reflexivity. Qed.

Lemma timelineFrom_more file date next rest :
  timelineFrom LocalTZA activeDate currentDate
    (ObsidianFileWaypoint file date :: next :: rest)
  = try items <- timelineFrom LocalTZA activeDate currentDate (next :: rest);
    Return (noteOf LocalTZA activeDate currentDate (ObsidianFileWaypoint file date) file
            :: gapsBetween (ObsidianFileWaypoint file date) next ++ items).
Proof. reflexivity. Qed.

(** Between two midnight leaves in ascending order: no item when the second
    is the day after the first, otherwise one gap that starts the day after
    the first and counts the days strictly between them. *)
Lemma gapsBetween_midnight file file' n n' :
  n < n' ->
  Z.abs (n * msPerDay) <= 8640000000000000 ->
  Z.abs (n' * msPerDay) <= 8640000000000000 ->
  gapsBetween (ObsidianFileWaypoint file (mkDate (Num (n * msPerDay))))
              (ObsidianFileWaypoint file' (mkDate (Num (n' * msPerDay))))
  = if n' - n - 1 >? 0
    then [gap (mkMoment (mkDate (Num ((n + 1) * msPerDay))) true) (n' - n - 1)]
    else [].
Proof.
  intros Hlt Hn Hn'. unfold gapsBetween, diff_days. cbn [time moment_utc _d getTime sub].
  replace (n' * msPerDay - n * msPerDay) with ((n' - n) * msPerDay) by lia.
  rewrite Z.quot_mul by discriminate.
  destruct (Z.gtb_spec (n' - n - 1) 0) as [Hgap | Hnone]; [| reflexivity].
  do 2 f_equal.
  unfold add_1_day, moment_utc, newDate. cbn [_d _isUTC getTime add].
  unfold TimeClip.
  replace (n * msPerDay + msPerDay) with ((n + 1) * msPerDay) by lia.
  replace (Z.abs ((n + 1) * msPerDay) <=? 8640000000000000) with true
    by (symmetry; apply Z.leb_le; unfold msPerDay in *; lia).
  reflexivity.
Qed.

Lemma gapsBetween_days file file' n n' :
  n < n' ->
  Z.abs (n * msPerDay) <= 8640000000000000 ->
  Z.abs (n' * msPerDay) <= 8640000000000000 ->
  flat_map daysOf
    (gapsBetween (ObsidianFileWaypoint file (mkDate (Num (n * msPerDay))))
                 (ObsidianFileWaypoint file' (mkDate (Num (n' * msPerDay)))))
  = seqZ (n + 1) (n' - n - 1).
Proof.
  intros Hlt Hn Hn'. rewrite gapsBetween_midnight by assumption.
  destruct (Z.gtb_spec (n' - n - 1) 0) as [Hgap | Hnone].
  - cbn [flat_map daysOf]. rewrite app_nil_r. f_equal.
    unfold dayNumber. cbn [_d getTime]. apply Day_midnight.
  - cbn [flat_map]. symmetry. apply seqZ_nil. lia.
Qed.

Lemma gapsBetween_assign file file' n n' items :
  n < n' ->
  Z.abs (n * msPerDay) <= 8640000000000000 ->
  Z.abs (n' * msPerDay) <= 8640000000000000 ->
  assignFrom (n + 1)
    (gapsBetween (ObsidianFileWaypoint file (mkDate (Num (n * msPerDay))))
                 (ObsidianFileWaypoint file' (mkDate (Num (n' * msPerDay)))) ++ items)
  = seqZ (n + 1) (n' - n - 1) ++ assignFrom n' items.
Proof.
  intros Hlt Hn Hn'. rewrite gapsBetween_midnight by assumption.
  destruct (Z.gtb_spec (n' - n - 1) 0) as [Hgap | Hnone].
  - cbn [app assignFrom]. replace (n + 1 + (n' - n - 1)) with n' by lia. reflexivity.
  - cbn [app]. rewrite seqZ_nil by lia. replace n' with (n + 1) by lia. reflexivity.
Qed.

Lemma last_shift {A : Type} (l : list A) a d : List.last (a :: l) d = List.last l a.
Proof.
  revert a d. induction l as [| b l IH]; intros a d; [reflexivity |].
  change (List.last (a :: b :: l) d) with (List.last (b :: l) d).
  rewrite !IH. reflexivity.
Qed.

(** The timeline of a strictly ascending sequence of midnight leaves: a
    note first, a note last, and in between every day once. *)
Lemma timelineFrom_covers rest :
  forall w,
    Forall midnightLeaf (w :: rest) ->
    StronglySorted (fun a b => timeOf a < timeOf b) (w :: rest) ->
    exists items file file' front tail,
      timelineFrom LocalTZA activeDate currentDate (w :: rest) = Return items /\
      items = noteOf LocalTZA activeDate currentDate w file :: tail /\
      items = front ++ [noteOf LocalTZA activeDate currentDate (List.last rest w) file'] /\
      dayOf w <= dayOf (List.last rest w) /\
      flat_map daysOf items = seqZ (dayOf w) (dayOf (List.last rest w) - dayOf w + 1) /\
      assignFrom (dayOf w) items
      = seqZ (dayOf w) (dayOf (List.last rest w) - dayOf w + 1).
Proof.
  induction rest as [| next rest IH]; intros w Hleaf Hsort.
  - inversion Hleaf as [| ? ? [file [n [-> Hn]]] _]; subst.
    exists [noteOf LocalTZA activeDate currentDate (ObsidianFileWaypoint file (mkDate (Num (n * msPerDay)))) file],
           file, file, [], [].
    rewrite timelineFrom_one. cbn [List.last].
    split; [reflexivity |]. split; [reflexivity |]. split; [reflexivity |].
    split; [lia |].
    unfold noteOf. cbn [flat_map daysOf dayNumber moment_utc _d time getTime app assignFrom].
    unfold dayOf, timeOf. cbn [time getTime].
    replace (Day (n * msPerDay) - Day (n * msPerDay) + 1) with 1 by lia.
    split; reflexivity.
  - inversion Hleaf as [| ? ? [file [n [-> Hn]]] Hleaf']; subst.
    inversion Hsort as [| ? ? Hsort' Hlt]; subst.
    pose proof Hleaf' as Hnext.
    inversion Hnext as [| ? ? [file2 [n' [-> Hn']]] _]; subst.
    inversion Hlt as [| ? ? Hnn' _]; subst.
    destruct (IH _ Hleaf' Hsort')
      as [items [file1 [file' [front [tail [Hrun [Hhead [Hlast [Hle [Hdays Hassign]]]]]]]]]].
    unfold timeOf in Hnn'. cbn [time getTime] in Hnn'.
    assert (Hlt' : n < n') by (unfold msPerDay in Hnn'; lia).
    set (w := ObsidianFileWaypoint file (mkDate (Num (n * msPerDay)))) in *.
    set (w' := ObsidianFileWaypoint file2 (mkDate (Num (n' * msPerDay)))) in *.
    assert (Hw : dayOf w = n) by apply Day_midnight.
    assert (Hw' : dayOf w' = n') by apply Day_midnight.
    exists (noteOf LocalTZA activeDate currentDate w file :: gapsBetween w w' ++ items), file, file',
           (noteOf LocalTZA activeDate currentDate w file :: gapsBetween w w' ++ front), (gapsBetween w w' ++ items).
    unfold w at 1. rewrite timelineFrom_more. fold w. rewrite Hrun.
    rewrite (last_shift rest w' w).
    split; [reflexivity |]. split; [reflexivity |]. split.
    { rewrite Hlast at 1. rewrite app_assoc. reflexivity. }
    split; [lia |].
    assert (Hnote : dayNumber (moment_utc (time w)) = n) by apply Day_midnight.
    rewrite Hw, Hw' in *.
    set (final := dayOf (List.last rest w')) in *.
    assert (Hrun' : seqZ n (final - n + 1)
                    = n :: seqZ (n + 1) (n' - n - 1) ++ seqZ n' (final - n' + 1)).
    { rewrite (seqZ_cons n (final - n + 1)) by lia. f_equal.
      replace (Z.pred (final - n + 1)) with ((n' - n - 1) + (final - n' + 1)) by lia.
      replace (Z.succ n) with (n + 1) by lia.
      rewrite (seqZ_app (n + 1) (n' - n - 1) (final - n' + 1)) by lia.
      replace (n + 1 + (n' - n - 1)) with n' by lia.
      reflexivity. }
    rewrite Hrun'. split.
    + cbn [flat_map]. rewrite flat_map_app, Hdays.
      unfold w at 2, w' at 1. rewrite gapsBetween_days by assumption.
      unfold noteOf; cbn [daysOf]. rewrite Hnote. reflexivity.
    + unfold noteOf. cbn [assignFrom]. f_equal.
      unfold w, w'. rewrite gapsBetween_assign by assumption.
      fold w'. rewrite Hassign. reflexivity.
Qed.
End TimelineFacts.

Section TimelineOfRebuild.
Variable LocalTZA : Z -> bool -> Z.

(** The leaves that [traverse] lets through in a graph made by [rebuild]
    are files dated at midnight UTC. *)
Lemma rebuild_leaves_midnight files prior :
  Forall midnightLeaf
    (visited (timewalk (snd (rebuild (Return files) prior))) chronological).
Proof.
  apply List.Forall_forall. intros w Hw.
  apply visited_In, filtered_In in Hw. destruct Hw as [Hin Hkeep].
  change (filterOf chronological) with leaves in Hkeep.
  change (includeNonCalendarOf chronological) with false in Hkeep.
  pose proof (keepNode_leaves _ _ Hkeep) as Hleaf.
  destruct (keepNode_calendar _ _ Hleaf Hkeep) as [t [Ht _]].
  rewrite rebuild_flattening in Hin. destruct Hin as [<- | Hin]; [discriminate |].
  apply in_flat_map in Hin. destruct Hin as [file [_ Hin]].
  unfold leafOf in Hin.
  destruct (pathMatch (path file)) as [[[year month] day] |]; [| destruct Hin].
  destruct Hin as [<- | []]. cbn [time] in Ht.
  destruct (dateFromCaptures_midnight year month day) as [Hnan | [n [Hn Hrange]]];
    [congruence |].
  exists file, n. split; [| assumption].
  destruct (dateFromCaptures year month day) as [tv]. simpl in Hn. subst tv. reflexivity.
Qed.

(** C1 (as amended).  For every graph made by [rebuild] whose
    chronological leaf sequence is not empty and has no two leaves with the
    same date, [buildGlobalTimeline] returns a sequence that begins with the
    note of the first leaf and ends with the note of the last leaf (so no
    gap comes before the first note or after the last), and in which the
    days the items stand for, one for a note and [gapCount] consecutive
    days from its date for a gap, are in output order exactly the calendar
    days from the first leaf's day to the last leaf's day, each once; handing
    out days in output order from the first leaf's day on, one to a note and
    [gapCount] to a gap, gives the same days. *)
Theorem timeline_covers_every_day files prior activeDate currentDate :
  collect (timewalk (snd (rebuild (Return files) prior))) chronological <> [] ->
  List.NoDup
    (List.map timeOf (collect (timewalk (snd (rebuild (Return files) prior))) chronological)) ->
  exists first rest items file file' front tail,
    collect (timewalk (snd (rebuild (Return files) prior))) chronological = first :: rest /\
    buildGlobalTimeline LocalTZA (snd (rebuild (Return files) prior)) activeDate currentDate
    = Return items /\
    items = noteOf LocalTZA activeDate currentDate first file :: tail /\
    items = front ++ [noteOf LocalTZA activeDate currentDate (List.last rest first) file'] /\
    flat_map daysOf items
    = seqZ (dayOf first) (dayOf (List.last rest first) - dayOf first + 1) /\
    assignFrom (dayOf first) items
    = seqZ (dayOf first) (dayOf (List.last rest first) - dayOf first + 1).
Proof.
  intros Hne Hnd. unfold buildGlobalTimeline, getTimewalk.
  set (this := snd (rebuild (Return files) prior)) in *.
  rewrite collect_visited in *.
  assert (Hvalid : Forall validTime (filtered (timewalk this) chronological))
    by (apply filtered_leaves_valid; reflexivity).
  pose proof (visited_future_ascending (timewalk this) chronological eq_refl Hvalid) as Hasc.
  apply strictly_ascending in Hasc; [| exact Hnd].
  pose proof (rebuild_leaves_midnight files prior) as Hleaves. fold this in Hleaves.
  destruct (visited (timewalk this) chronological) as [| first rest]; [congruence |].
  destruct (timelineFrom_covers LocalTZA activeDate currentDate rest first Hleaves Hasc)
    as [items [file [file' [front [tail [Hrun [Hhead [Hlast [_ [Hdays Hassign]]]]]]]]]].
  exists first, rest, items, file, file', front, tail. auto 10.
Qed.
End TimelineOfRebuild.

Lemma timeline_covers_every_day_witness :
  exists items,
    buildGlobalTimeline hostUTC (snd (rebuild (Return [jan5File; jan1File; jan2File]) emptyService))
      (moment jan2) (moment jan1)
    = Return items /\
    flat_map daysOf items = seqZ 20089 5.
Proof.
  destruct (timeline_covers_every_day hostUTC [jan5File; jan1File; jan2File] emptyService
              (moment jan2) (moment jan1))
    as [first [rest [items [file [file' [front [tail [Hseq [Hrun [_ [_ [Hdays _]]]]]]]]]]]].
  - vm_compute. discriminate.
  - vm_compute. repeat constructor; simpl; intuition discriminate.
  - exists items. split; [exact Hrun |].
    vm_compute in Hseq. injection Hseq as <- <-. exact Hdays.
Defined.

(** C1 as stated fails: two notes of the same day are two note items.
    Handing out days from the first note's day runs one day past the last
    note's day, and the days the items stand for give that day twice. *)
Lemma timeline_same_day_counterexample :
  let items :=
    [note (moment_utc jan5) jan5a false false; note (moment_utc jan5) jan5b false false] in
  collect (timewalk twoOnJan5) chronological
  = [ObsidianFileWaypoint jan5a jan5; ObsidianFileWaypoint jan5b jan5] /\
  buildGlobalTimeline hostUTC twoOnJan5 (moment jan1) (moment jan1) = Return items /\
  dayOf (ObsidianFileWaypoint jan5a jan5) = 20093 /\
  assignFrom 20093 items = [20093; 20094] /\
  assignFrom 20093 items <> seqZ 20093 (20093 - 20093 + 1) /\
  flat_map daysOf items = [20093; 20093] /\
  ~ List.NoDup (flat_map daysOf items).
Proof.
  intros items. split; [reflexivity |]. split; [reflexivity |]. split; [reflexivity |].
  split; [reflexivity |]. split; [discriminate |]. split; [reflexivity |].
  intros Hnd. inversion Hnd as [| ? ? Hnotin _]; subst. apply Hnotin. left. reflexivity.
Qed.

Section Scenario.
Variable LocalTZA : Z -> bool -> Z.

Lemma three_files_listed files :
  Permutation files [jan1File; jan2File; jan5File] ->
  collect (timewalk (snd (rebuild (Return files) emptyService))) chronological
  = [ObsidianFileWaypoint jan1File jan1; ObsidianFileWaypoint jan2File jan2;
     ObsidianFileWaypoint jan5File jan5].
Proof.
  intros Hp.
  destruct (Permutation_vs_cons_inv (Permutation_sym (Permutation_sym Hp)))
    as [l1 [l2 ->]].
  apply Permutation_sym, Permutation_cons_app_inv, Permutation_sym in Hp.
  apply Permutation_sym, Permutation_length_2_inv in Hp.
  destruct l1 as [| a [| b [| c l1]]]; simpl in Hp;
    destruct Hp as [Hp | Hp]; inversion Hp; subst; reflexivity.
Qed.

(** C8.  For the graph [rebuild] makes of notes for 2025-01-01, 2025-01-02
    and 2025-01-05, in whatever order the vault lists them,
    [buildGlobalTimeline] with an active date that prints as 2025-01-02
    returns exactly four items in this order: the note of 2025-01-01, not
    active; the note of 2025-01-02, active; a gap dated 2025-01-03 of two
    days; the note of 2025-01-05, not active. *)
Theorem timeline_scenario files activeDate currentDate :
  Permutation files [jan1File; jan2File; jan5File] ->
  format_YYYY_MM_DD LocalTZA activeDate = YMD 2025 1 2 ->
  buildGlobalTimeline LocalTZA (snd (rebuild (Return files) emptyService))
    activeDate currentDate
  = Return
      [note (moment_utc jan1) jan1File false
         (bool_decide (YMD 2025 1 1 = format_YYYY_MM_DD LocalTZA currentDate));
       note (moment_utc jan2) jan2File true
         (bool_decide (YMD 2025 1 2 = format_YYYY_MM_DD LocalTZA currentDate));
       gap (moment_utc jan3) 2;
       note (moment_utc jan5) jan5File false
         (bool_decide (YMD 2025 1 5 = format_YYYY_MM_DD LocalTZA currentDate))] /\
  format_YYYY_MM_DD LocalTZA (moment_utc jan1) = YMD 2025 1 1 /\
  format_YYYY_MM_DD LocalTZA (moment_utc jan2) = YMD 2025 1 2 /\
  format_YYYY_MM_DD LocalTZA (moment_utc jan3) = YMD 2025 1 3 /\
  format_YYYY_MM_DD LocalTZA (moment_utc jan5) = YMD 2025 1 5.
Proof.
  intros Hp Hactive.
  assert (F1 : format_YYYY_MM_DD LocalTZA (moment_utc jan1) = YMD 2025 1 1) by reflexivity.
  assert (F2 : format_YYYY_MM_DD LocalTZA (moment_utc jan2) = YMD 2025 1 2) by reflexivity.
  assert (F3 : format_YYYY_MM_DD LocalTZA (moment_utc jan3) = YMD 2025 1 3) by reflexivity.
  assert (F5 : format_YYYY_MM_DD LocalTZA (moment_utc jan5) = YMD 2025 1 5) by reflexivity.
  split; [| auto].
  unfold buildGlobalTimeline, getTimewalk. rewrite (three_files_listed files Hp).
  rewrite timelineFrom_more, timelineFrom_more, timelineFrom_one.
  unfold noteOf. cbn [time bind]. rewrite F1, F2, F5, Hactive.
  reflexivity.
Qed.
End Scenario.

Lemma timeline_scenario_witness :
  buildGlobalTimeline hostUTC (snd (rebuild (Return [jan5File; jan1File; jan2File]) emptyService))
    (moment jan2) (moment jan5)
  = Return
      [note (moment_utc jan1) jan1File false false;
       note (moment_utc jan2) jan2File true false;
       gap (moment_utc jan3) 2;
       note (moment_utc jan5) jan5File false true].
Proof.
  destruct (timeline_scenario hostUTC [jan5File; jan1File; jan2File] (moment jan2) (moment jan5))
    as [Hrun _].
  - apply (Permutation_cons_app [jan1File; jan2File] [] jan5File).
    apply Permutation_refl.
  - reflexivity.
  - exact Hrun.
Defined.

(** * Further properties of the code *)

(** ** The calendar: [civil_from_days] is one-to-one *)

Section CalendarInjective.

Lemma yoeOf_bound doe : 0 <= doe < 146097 -> 0 <= yoeOf doe <= 399.
Proof. intros H. unfold yoeOf. Z.to_euclidean_division_equations; lia. Qed.

Lemma doyOf_bound doe : 0 <= doe < 146097 -> 0 <= doyOf doe <= 365.
Proof. intros H. unfold doyOf, yoeOf. Z.to_euclidean_division_equations; lia. Qed.

Lemma mpOf_bound doy : 0 <= doy <= 365 -> 0 <= mpOf doy <= 11.
Proof. intros H. unfold mpOf. Z.to_euclidean_division_equations; lia. Qed.

(** Two day numbers with the same civil date are the same day. *)
Lemma civil_from_days_inj n1 n2 :
  civil_from_days n1 = civil_from_days n2 -> n1 = n2.
Proof.
  rewrite !civil_from_days_stages. cbv zeta.
  pose proof (doeOf_bound n1) as B1. pose proof (doeOf_bound n2) as B2.
  pose proof (yoeOf_bound _ B1) as Y1. pose proof (yoeOf_bound _ B2) as Y2.
  pose proof (doyOf_bound _ B1) as D1. pose proof (doyOf_bound _ B2) as D2.
  pose proof (mpOf_bound _ D1) as M1. pose proof (mpOf_bound _ D2) as M2.
  pose proof (doeOf_eraOf n1) as E1. pose proof (doeOf_eraOf n2) as E2.
  intros H. injection H as Hy Hm Hd.
  assert (Hmp : mpOf (doyOf (doeOf n1)) = mpOf (doyOf (doeOf n2))).
  { destruct (Z.ltb_spec (mpOf (doyOf (doeOf n1))) 10),
             (Z.ltb_spec (mpOf (doyOf (doeOf n2))) 10); lia. }
  rewrite Hmp in *.
  assert (Hdoy : doyOf (doeOf n1) = doyOf (doeOf n2)) by lia.
  assert (Hye : yoeOf (doeOf n1) + eraOf n1 * 400 = yoeOf (doeOf n2) + eraOf n2 * 400) by lia.
  assert (Hera : eraOf n1 = eraOf n2) by lia.
  assert (Hyoe : yoeOf (doeOf n1) = yoeOf (doeOf n2)) by lia.
  assert (Hdoe : doeOf n1 = doeOf n2).
  { unfold doyOf in Hdoy. rewrite Hyoe in Hdoy. lia. }
  lia.
Qed.

End CalendarInjective.

(** ** [traverse]: what is visited, and in which order among equals *)

Section TraversalOrder.

Lemma visited_stable tw o t :
  Forall validTime (filtered tw o) ->
  List.filter (atTime t) (visited tw o) = List.filter (atTime t) (filtered tw o).
Proof.
  intros Hv. unfold visited, atTime. destruct (directionOf o).
  - pose proof (sort_stable (byTime past) (fun n => - timeOf n) (- t) _ (byTime_past _ Hv)) as H.
    rewrite !(List.filter_ext (fun n => timeOf n =? t) (fun n => - timeOf n =? - t)).
    + exact H.
    + intros n. destruct (Z.eqb_spec (timeOf n) t), (Z.eqb_spec (- timeOf n) (- t));
        lia || reflexivity.
    + intros n. destruct (Z.eqb_spec (timeOf n) t), (Z.eqb_spec (- timeOf n) (- t));
        lia || reflexivity.
  - apply (sort_stable (byTime future) timeOf t _ (byTime_future _ Hv)).
Qed.

(** X1.  [traverse] is stable in both directions: when every node that
    passes the filter has a time that is a number, the nodes of any one time
    are handed to the callback in the order of the pre-order flattening, with
    direction [past] as with direction [future]. *)
Theorem traverse_is_stable tw o t :
  Forall validTime (filtered tw o) ->
  List.filter (atTime t) (collect tw o) = List.filter (atTime t) (filtered tw o).
Proof. intros Hv. rewrite collect_visited. apply visited_stable, Hv. Qed.

(** X2.  [traverse] hands every node that passes the filter to the callback
    exactly once, whatever the times are: the calls are made on a
    rearrangement of the filtered flattening, and an array filled by the
    callback holds that rearrangement. *)
Theorem traverse_visits_each_once {S : Type} tw (callback : Waypoint -> S -> S) o s :
  exists order,
    Permutation order (filtered tw o) /\
    traverse tw callback o s = fold_left (fun acc node => callback node acc) order s /\
    collect tw o = order /\
    length order = length (filtered tw o).
Proof.
  exists (visited tw o). split; [apply sort_Permutation |]. split; [reflexivity |].
  split; [apply collect_visited |]. apply Permutation_length, sort_Permutation.
Qed.

End TraversalOrder.

Lemma traverse_is_stable_witness :
  List.filter (atTime 86400000) (collect nested (mkOptions (Some past) (Some leaves) None))
  = [leafAt "a" 86400000; leafAt "b" 86400000; leafAt "c" 86400000].
Proof.
  rewrite (traverse_is_stable nested (mkOptions (Some past) (Some leaves) None) 86400000).
  - reflexivity.
  - apply filtered_leaves_valid; reflexivity.
Defined.

(** ** Groups: their time and their children *)

Section GroupFacts.

Lemma fold_min_le others : forall first,
  fold_left Z.min others first <= first /\
  Forall (fun t => fold_left Z.min others first <= t) others /\
  (fold_left Z.min others first = first \/ In (fold_left Z.min others first) others).
Proof.
  induction others as [| x others IH]; intros first; simpl.
  - split; [lia |]. split; [constructor | left; reflexivity].
  - destruct (IH (Z.min first x)) as [Hle [Hall Hin]]. split; [lia |]. split.
    + constructor; [lia | exact Hall].
    + destruct Hin as [Heq | Hin]; [| right; right; exact Hin].
      destruct (Z.min_spec first x) as [[_ Hm] | [_ Hm]].
      * left. lia.
      * right. left. lia.
Qed.

(** X3.  The time of a group that was given no time of its own: the zero
    epoch when no child has a time that is a number, otherwise the earliest
    of the children's times that are numbers (a child with an invalid date
    is passed over).  A group that was given a time returns it. *)
Theorem group_time_is_earliest id childNodes :
  (childTimes childNodes = [] ->
   getTime (time (GroupWaypoint id childNodes None)) = Num 0) /\
  (childTimes childNodes <> [] ->
   exists earliest,
     getTime (time (GroupWaypoint id childNodes None)) = TimeClip (Num earliest) /\
     In earliest (childTimes childNodes) /\
     Forall (fun t => earliest <= t) (childTimes childNodes)) /\
  (forall groupTime, time (GroupWaypoint id childNodes (Some groupTime)) = groupTime).
Proof.
  unfold childTimes. split; [| split].
  - intros He. cbn [time]. destruct childNodes as [| c cs]; [reflexivity |].
    rewrite He. reflexivity.
  - intros Hne. cbn [time]. destruct childNodes as [| c cs]; [simpl in Hne; congruence |].
    destruct (dropNaN (List.map (fun c0 => getTime (time c0)) (c :: cs))) as [| t ts];
      [congruence |].
    exists (Math_min t ts). unfold Math_min.
    destruct (fold_min_le ts t) as [Hle [Hall Hin]].
    split; [reflexivity |]. split.
    + destruct Hin as [-> | Hin]; [left; reflexivity | right; exact Hin].
    + constructor; assumption.
  - reflexivity.
Qed.

Lemma dropNaN_app l1 l2 : dropNaN (l1 ++ l2) = dropNaN l1 ++ dropNaN l2.
Proof.
  induction l1 as [| [| t] l1 IH]; simpl; [reflexivity | exact IH | f_equal; exact IH].
Qed.

(** X4.  [addChild] puts the new child behind the others: the flattening of
    the group is the group, what was below it before, and then the
    flattening of the new child.  A child with an invalid date leaves the
    time of a group without a time of its own as it was; a child with time
    [t] makes it the smaller of [t] and the earliest time so far, and [t]
    itself when no child had a time that is a number (the zero epoch of the
    empty group does not take part). *)
Theorem addChild_appends id childNodes groupTime waypoint :
  collectAllChildren (addChild id childNodes groupTime waypoint)
  = addChild id childNodes groupTime waypoint
    :: tail (collectAllChildren (GroupWaypoint id childNodes groupTime))
    ++ collectAllChildren waypoint /\
  (getTime (time waypoint) = NaN ->
   getTime (time (addChild id childNodes None waypoint))
   = getTime (time (GroupWaypoint id childNodes None))) /\
  (forall t, getTime (time waypoint) = Num t ->
   getTime (time (addChild id childNodes None waypoint))
   = TimeClip (Num (match childTimes childNodes with
                    | [] => t
                    | first :: others => Z.min (Math_min first others) t
                    end))).
Proof.
  unfold addChild. split; [| split].
  - cbn [collectAllChildren tail]. rewrite flat_map_app. cbn [flat_map].
    rewrite app_nil_r. reflexivity.
  - intros Hnan. cbn [time]. rewrite map_app, dropNaN_app. cbn [List.map dropNaN].
    rewrite Hnan, app_nil_r.
    destruct childNodes as [| c cs]; reflexivity.
  - intros t Ht. cbn [time]. rewrite map_app, dropNaN_app. cbn [List.map dropNaN].
    rewrite Ht. unfold childTimes.
    destruct childNodes as [| c cs]; [reflexivity |].
    destruct (dropNaN (List.map (fun c0 => getTime (time c0)) (c :: cs))) as [| first others].
    + reflexivity.
    + cbn [app]. unfold Math_min. rewrite fold_left_app. reflexivity.
Qed.

End GroupFacts.

(** ** [isSameDay], [find] and [navigate] *)

Section SameDayFacts.
Variable LocalTZA : Z -> bool -> Z.
Variable Date_parse : string -> Number.

Lemma isSameDay_Num t1 t2 :
  isSameDay LocalTZA (mkDate (Num t1)) (mkDate (Num t2))
  = (localDay LocalTZA t1 =? localDay LocalTZA t2).
Proof.
  unfold isSameDay, getFullYear, getMonth, getDate, lift, localDay. cbn [getTime strictEq].
  unfold YearFromTime, MonthFromTime, DateFromTime.
  destruct (Z.eqb_spec (Day (LocalTime LocalTZA t1)) (Day (LocalTime LocalTZA t2))) as [-> | Hne].
  - rewrite !Z.eqb_refl. reflexivity.
  - destruct (civil_from_days (Day (LocalTime LocalTZA t1))) as [[y1 m1] d1] eqn:E1.
    destruct (civil_from_days (Day (LocalTime LocalTZA t2))) as [[y2 m2] d2] eqn:E2.
    cbn [fst snd].
    destruct (Z.eqb_spec y1 y2) as [-> |]; [| reflexivity].
    destruct (Z.eqb_spec (m1 - 1) (m2 - 1)) as [Hm |]; [| reflexivity].
    destruct (Z.eqb_spec d1 d2) as [-> |]; [| reflexivity].
    exfalso. apply Hne, civil_from_days_inj. rewrite E1, E2. f_equal. f_equal. lia.
Qed.

Lemma isSameDay_NaN_l d : getTime d = NaN -> forall d', isSameDay LocalTZA d d' = false.
Proof. intros H d'. unfold isSameDay, getFullYear, lift. rewrite H. reflexivity. Qed.

Lemma isSameDay_NaN_r d : getTime d = NaN -> forall d', isSameDay LocalTZA d' d = false.
Proof.
  intros H d'. unfold isSameDay, getFullYear, lift. rewrite H.
  destruct (getTime d'); reflexivity.
Qed.

Lemma isSameDay_refl d : isNaN (getTime d) = false -> isSameDay LocalTZA d d = true.
Proof.
  destruct d as [[| t]]; [discriminate |]. intros _.
  rewrite isSameDay_Num. apply Z.eqb_refl.
Qed.

(** X5.  [isSameDay] holds exactly when both dates are valid and their time
    values fall on the same day of the local calendar; comparing year, month
    and day of the month loses nothing.  An invalid date is on the same day
    as nothing, itself included. *)
Theorem isSameDay_same_local_day date1 date2 :
  isSameDay LocalTZA date1 date2 = true <->
  exists t1 t2,
    getTime date1 = Num t1 /\ getTime date2 = Num t2 /\
    localDay LocalTZA t1 = localDay LocalTZA t2.
Proof.
  destruct date1 as [[| t1]], date2 as [[| t2]].
  - rewrite isSameDay_NaN_l by reflexivity. split; [discriminate |].
    intros [? [? [H _]]]. discriminate.
  - rewrite isSameDay_NaN_l by reflexivity. split; [discriminate |].
    intros [? [? [H _]]]. discriminate.
  - rewrite isSameDay_NaN_r by reflexivity. split; [discriminate |].
    intros [? [? [_ [H _]]]]. discriminate.
  - rewrite isSameDay_Num, Z.eqb_eq. cbn [getTime]. split.
    + intros H. exists t1, t2. auto.
    + intros [? [? [[= <-] [[= <-] H]]]]. exact H.
Qed.

(** X6.  What [navigate] returns for a target, [find] returns too for that
    target: a leaf at the very millisecond is a leaf of the day. *)
Theorem navigate_result_is_found tw targetTime n :
  navigate Date_parse tw targetTime = Some n ->
  In n (find LocalTZA Date_parse tw targetTime).
Proof.
  unfold navigate, find. intros H. apply navigateLoop_Some in H.
  destruct H as [before [after [Hflat [Hhit _]]]].
  apply filter_In. split.
  - rewrite Hflat. apply in_app_iff. right. left. reflexivity.
  - unfold hits in Hhit. apply andb_true_iff in Hhit. destruct Hhit as [Hc He].
    apply negb_true_iff in Hc. rewrite Hc.
    destruct (time n) as [[| t]]; [discriminate |].
    destruct (toTarget Date_parse targetTime) as [[| t']]; [discriminate |].
    cbn [getTime strictEq] in He. apply Z.eqb_eq in He. subst t'.
    rewrite isSameDay_Num. apply Z.eqb_refl.
Qed.

Lemma find_of_invalid_target tw targetTime :
  isNaN (getTime (toTarget Date_parse targetTime)) = true ->
  find LocalTZA Date_parse tw targetTime = [].
Proof.
  intros Hnan. unfold find.
  rewrite (List.filter_ext_in _ (fun _ => false)); [apply List.filter_false |].
  intros n _. destruct (isContainer n); [reflexivity |].
  apply isSameDay_NaN_r.
  destruct (getTime (toTarget Date_parse targetTime)); [reflexivity | discriminate].
Qed.

End SameDayFacts.

Lemma navigate_result_is_found_witness :
  In (leafAt "a" 86400000) (find hostUTC noParse nested (ofDate (mkDate (Num 86400000)))).
Proof. apply (navigate_result_is_found hostUTC noParse nested). reflexivity. Defined.

(** ** The queries of the service on any graph *)

Section QueryFacts.
Variable LocalTZA : Z -> bool -> Z.
Variable Date_parse : string -> Number.

Lemma findIndexFrom_at {A : Type} (p : A -> bool) i before x after :
  Forall (fun a => p a = false) before -> p x = true ->
  findIndexFrom p i (before ++ x :: after) = i + Z.of_nat (length before).
Proof.
  intros H Hx. revert i. induction H as [| y l Hy _ IH]; intros i; simpl.
  - rewrite Hx. lia.
  - rewrite Hy, IH. lia.
Qed.

Lemma findIndexFrom_split {A : Type} (p : A -> bool) i l :
  findIndexFrom p i l = -1 /\ Forall (fun a => p a = false) l \/
  exists before x after,
    l = before ++ x :: after /\ Forall (fun a => p a = false) before /\ p x = true.
Proof.
  revert i. induction l as [| y l IH]; intros i; simpl.
  - left. split; [reflexivity | constructor].
  - destruct (p y) eqn:Hy.
    + right. exists [], y, l. repeat split; [constructor | assumption].
    + destruct (IH (i + 1)) as [[Hnone Hall] | [before [x [after [-> [Hb Hx]]]]]].
      * left. split; [assumption | constructor; assumption].
      * right. exists (y :: before), x, after. repeat split; [constructor |]; assumption.
Qed.

Lemma nth_error_last {A : Type} (before : list A) x after :
  nth_error (before ++ x :: after) (Z.to_nat (Z.of_nat (length before) - 1)) =
  match last before with Some v => Some v | None => Some x end.
Proof.
  destruct before as [| b before] using rev_ind; [reflexivity |].
  rewrite last_snoc, length_app. simpl length.
  replace (Z.to_nat (Z.of_nat (length before + 1) - 1)) with (length before) by lia.
  rewrite <- app_assoc. rewrite nth_error_app2 by lia.
  rewrite Nat.sub_diag. reflexivity.
Qed.

Lemma nth_error_next {A : Type} (before : list A) x after :
  nth_error (before ++ x :: after) (Z.to_nat (Z.of_nat (length before) + 1)) = head after.
Proof.
  replace (Z.to_nat (Z.of_nat (length before) + 1)) with (length before + 1)%nat by lia.
  rewrite nth_error_app2 by lia.
  replace (length before + 1 - length before)%nat with 1%nat by lia.
  destruct after; reflexivity.
Qed.

(** The neighbours of the first leaf of the day asked for. *)
Lemma adjacent_of_position this currentDate before w after :
  collect (timewalk this) chronological = before ++ w :: after ->
  isSameDay LocalTZA (time w) (toDate currentDate) = true ->
  Forall (fun v => isSameDay LocalTZA (time v) (toDate currentDate) = false) before ->
  getPreviousDailyNote LocalTZA this currentDate = fileOf (last before) /\
  getNextDailyNote LocalTZA this currentDate = fileOf (head after).
Proof.
  intros Hws Hw Hbefore.
  unfold getPreviousDailyNote, getNextDailyNote, getSortedWaypoints, findIndex.
  rewrite Hws.
  rewrite (findIndexFrom_at _ 0 before w after Hbefore Hw), Z.add_0_l.
  unfold fileAt. cbv beta iota zeta. split.
  - destruct before as [| b before] using rev_ind; [reflexivity |].
    rewrite nth_error_last. rewrite last_snoc, length_app. simpl length.
    replace (Z.of_nat (length before + 1) >? 0) with true by (symmetry; apply Z.gtb_lt; lia).
    reflexivity.
  - rewrite nth_error_next, length_app. simpl length.
    replace (Z.of_nat (length before) =? -1) with false by (symmetry; apply Z.eqb_neq; lia).
    destruct after as [| v after].
    + simpl length.
      replace (Z.of_nat (length before) <? Z.of_nat (length before + 1) - 1) with false
        by (symmetry; apply Z.ltb_ge; lia).
      reflexivity.
    + simpl length.
      replace (Z.of_nat (length before) <? Z.of_nat (length before + S (S (length after))) - 1)
        with true by (symmetry; apply Z.ltb_lt; lia).
      reflexivity.
Qed.

(** X14.  The neighbours of a day.  When [w] is the first leaf of the
    chronological sequence that falls on the day asked for,
    [getPreviousDailyNote] returns the file of the leaf just before [w] (and
    [null] when [w] is the first), and [getNextDailyNote] the file of the leaf
    just after [w] (and [null] when [w] is the last). *)
Theorem adjacent_notes this currentDate before w after :
  collect (timewalk this) chronological = before ++ w :: after ->
  isSameDay LocalTZA (time w) (toDate currentDate) = true ->
  Forall (fun v => isSameDay LocalTZA (time v) (toDate currentDate) = false) before ->
  getPreviousDailyNote LocalTZA this currentDate = fileOf (last before) /\
  getNextDailyNote LocalTZA this currentDate = fileOf (head after).
Proof. apply adjacent_of_position. Qed.

Lemma chronological_valid this w :
  In w (collect (timewalk this) chronological) -> isNaN (getTime (time w)) = false.
Proof.
  rewrite collect_visited. intros Hw.
  pose proof (visited_valid (timewalk this) chronological
                (filtered_leaves_valid (timewalk this) chronological eq_refl eq_refl)) as Hv.
  rewrite List.Forall_forall in Hv. apply (Hv w Hw).
Qed.

(** X15.  Going back and forth.  For two leaves [v], [w] that follow one
    another in the chronological sequence, fall on different days, and have
    no earlier leaf on either of their days: the note before [w]'s date is
    [v]'s file, and the note after [v]'s date is [w]'s file. *)
Theorem next_undoes_previous this before v w after fv fw :
  collect (timewalk this) chronological = before ++ v :: w :: after ->
  Forall (fun u => isSameDay LocalTZA (time u) (time v) = false
                   /\ isSameDay LocalTZA (time u) (time w) = false) before ->
  isSameDay LocalTZA (time v) (time w) = false ->
  getFile v = Return fv -> getFile w = Return fw ->
  getPreviousDailyNote LocalTZA this (moment (time w)) = Return (Some fv) /\
  getNextDailyNote LocalTZA this (moment (time v)) = Return (Some fw).
Proof.
  intros Hws Hbefore Hvw Hfv Hfw.
  assert (Vv : isNaN (getTime (time v)) = false).
  { apply (chronological_valid this). rewrite Hws. apply in_app_iff. right. left. reflexivity. }
  assert (Vw : isNaN (getTime (time w)) = false).
  { apply (chronological_valid this). rewrite Hws. apply in_app_iff.
    right. right. left. reflexivity. }
  split.
  - destruct (adjacent_of_position this (moment (time w)) (before ++ [v]) w after) as [Hprev _].
    + rewrite Hws, <- app_assoc. reflexivity.
    + apply isSameDay_refl, Vw.
    + apply Forall_app. split.
      * eapply List.Forall_impl; [| exact Hbefore]. simpl. intros u [_ Hu]. exact Hu.
      * repeat constructor. exact Hvw.
    + rewrite Hprev, last_snoc. simpl. rewrite Hfv. reflexivity.
  - destruct (adjacent_of_position this (moment (time v)) before v (w :: after)) as [_ Hnext].
    + exact Hws.
    + apply isSameDay_refl, Vv.
    + eapply List.Forall_impl; [| exact Hbefore]. simpl. intros u [Hu _]. exact Hu.
    + rewrite Hnext. simpl. rewrite Hfw. reflexivity.
Qed.

(** X7.  Asked about a moment that is not a date, every query of the
    service answers that there is nothing, on every graph, and none throws:
    [find] returns no leaf, [findDailyNote] returns [null], [hasDailyNote]
    returns [false], and there is neither a previous nor a next note. *)
Theorem queries_for_invalid_date this date :
  isValid date = false ->
  find LocalTZA Date_parse (timewalk this) (ofDate (toDate date)) = [] /\
  findDailyNote LocalTZA Date_parse this date = Return None /\
  hasDailyNote LocalTZA Date_parse this date = Return false /\
  getPreviousDailyNote LocalTZA this date = Return None /\
  getNextDailyNote LocalTZA this date = Return None.
Proof.
  intros Hinvalid. unfold isValid in Hinvalid. apply negb_false_iff in Hinvalid.
  assert (Hnan : getTime (toDate date) = NaN).
  { unfold toDate. destruct (getTime (_d date)); [reflexivity | discriminate]. }
  assert (Hfind : find LocalTZA Date_parse (timewalk this) (ofDate (toDate date)) = []).
  { apply find_of_invalid_target. cbn [toTarget]. rewrite Hnan. reflexivity. }
  split; [exact Hfind |].
  assert (Hfd : findDailyNote LocalTZA Date_parse this date = Return None).
  { unfold findDailyNote. rewrite Hfind. reflexivity. }
  split; [exact Hfd |]. split; [unfold hasDailyNote; rewrite Hfd; reflexivity |].
  unfold getPreviousDailyNote, getNextDailyNote, getSortedWaypoints, findIndex.
  rewrite findIndexFrom_none; [split; reflexivity |].
  apply List.Forall_forall. intros wp _. apply isSameDay_NaN_r, Hnan.
Qed.

Lemma getFile_isFileWaypoint w : isFileWaypoint w -> exists file, getFile w = Return file.
Proof. intros [file [date ->]]. exists file. reflexivity. Qed.

(** Queries on a graph whose leaves are files do not throw. *)
Lemma findDailyNote_total this date :
  Forall isFileWaypoint
    (List.filter (fun n => negb (isContainer n)) (collectAllChildren (root (timewalk this)))) ->
  exists found, findDailyNote LocalTZA Date_parse this date = Return found.
Proof.
  intros Hfiles. unfold findDailyNote.
  destruct (find LocalTZA Date_parse (timewalk this) (ofDate (toDate date))) as [| w ws] eqn:Hfind;
    [eauto |].
  assert (Hw : In w (find LocalTZA Date_parse (timewalk this) (ofDate (toDate date))))
    by (rewrite Hfind; left; reflexivity).
  unfold find in Hw. apply filter_In in Hw. destruct Hw as [Hin Hleaf].
  destruct (isContainer w) eqn:Hc; [discriminate |].
  rewrite List.Forall_forall in Hfiles.
  destruct (Hfiles w) as [file [fileDate ->]].
  - apply filter_In. rewrite Hc. auto.
  - simpl. eauto.
Qed.

Lemma chronological_files this :
  Forall isFileWaypoint
    (List.filter (fun n => negb (isContainer n)) (collectAllChildren (root (timewalk this)))) ->
  Forall isFileWaypoint (collect (timewalk this) chronological).
Proof.
  intros Hfiles. rewrite collect_visited. apply List.Forall_forall. intros w Hw.
  apply visited_In, filtered_In in Hw. destruct Hw as [Hin Hkeep].
  change (filterOf chronological) with leaves in Hkeep.
  apply keepNode_leaves in Hkeep.
  rewrite List.Forall_forall in Hfiles. apply Hfiles, filter_In. rewrite Hkeep. auto.
Qed.

Lemma fileOf_total (neighbour : option Waypoint) :
  (forall w, neighbour = Some w -> isFileWaypoint w) ->
  exists r, fileOf neighbour = Return r.
Proof.
  destruct neighbour as [w |]; [| simpl; eauto].
  intros H. destruct (H w eq_refl) as [file [date ->]]. simpl. eauto.
Qed.

Lemma adjacent_total this currentDate :
  Forall isFileWaypoint (collect (timewalk this) chronological) ->
  (exists r, getPreviousDailyNote LocalTZA this currentDate = Return r) /\
  (exists r, getNextDailyNote LocalTZA this currentDate = Return r).
Proof.
  intros Hfiles.
  destruct (findIndexFrom_split
              (fun wp => isSameDay LocalTZA (time wp) (toDate currentDate)) 0
              (collect (timewalk this) chronological))
    as [[Hnone Hall] | [before [w [after [Hws [Hb Hw]]]]]].
  - unfold getPreviousDailyNote, getNextDailyNote, getSortedWaypoints, findIndex.
    rewrite Hnone. simpl. eauto.
  - destruct (adjacent_of_position this currentDate before w after Hws Hw Hb) as [-> ->].
    rewrite Hws in Hfiles. rewrite List.Forall_forall in Hfiles. split; apply fileOf_total.
    + intros u Hu. apply Hfiles, in_app_iff. left.
      destruct before as [| b before] using rev_ind; [discriminate |].
      rewrite last_snoc in Hu. injection Hu as ->. apply in_app_iff. right. left. reflexivity.
    + intros u Hu. apply Hfiles, in_app_iff. right. right.
      destruct after; [discriminate |]. injection Hu as ->. left. reflexivity.
Qed.

End QueryFacts.

Lemma adjacent_notes_witness :
  getPreviousDailyNote hostUTC threeNotes (moment jan2) = Return (Some jan1File) /\
  getNextDailyNote hostUTC threeNotes (moment jan2) = Return (Some jan5File).
Proof.
  apply (adjacent_notes hostUTC threeNotes (moment jan2)
           [ObsidianFileWaypoint jan1File jan1] (ObsidianFileWaypoint jan2File jan2)
           [ObsidianFileWaypoint jan5File jan5]).
  - reflexivity.
  - reflexivity.
  - repeat constructor.
Defined.

Lemma next_undoes_previous_witness :
  getPreviousDailyNote hostUTC threeNotes (moment jan2) = Return (Some jan1File) /\
  getNextDailyNote hostUTC threeNotes (moment jan1) = Return (Some jan2File).
Proof.
  apply (next_undoes_previous hostUTC threeNotes []
           (ObsidianFileWaypoint jan1File jan1) (ObsidianFileWaypoint jan2File jan2)
           [ObsidianFileWaypoint jan5File jan5] jan1File jan2File).
  - reflexivity.
  - constructor.
  - reflexivity.
  - reflexivity.
  - reflexivity.
Defined.

Lemma queries_for_invalid_date_witness :
  findDailyNote hostUTC noParse threeNotes invalidMoment = Return None /\
  getNextDailyNote hostUTC threeNotes invalidMoment = Return None.
Proof.
  destruct (queries_for_invalid_date hostUTC noParse threeNotes invalidMoment)
    as [_ [Hfind [_ [_ Hnext]]]]; [reflexivity |].
  split; assumption.
Defined.

(** ** The shape of the timeline, on any graph *)

Section TimelineShape.
Variable LocalTZA : Z -> bool -> Z.
Variables activeDate currentDate : Moment.

Lemma gapsBetween_cases waypoint nextWaypoint :
  gapsBetween waypoint nextWaypoint = [] \/
  exists date gapCount, gapsBetween waypoint nextWaypoint = [gap date gapCount] /\ 1 <= gapCount.
Proof.
  unfold gapsBetween.
  destruct (sub (diff_days (moment_utc (time nextWaypoint)) (moment_utc (time waypoint))) (Num 1))
    as [| daysBetween]; [left; reflexivity |].
  destruct (Z.gtb_spec daysBetween 0); [| left; reflexivity].
  right. eexists _, _. split; [reflexivity | lia].
Qed.

Lemma timelineFrom_cons waypoint rest items :
  timelineFrom LocalTZA activeDate currentDate (waypoint :: rest) = Return items ->
  exists file fileDate tail,
    waypoint = ObsidianFileWaypoint file fileDate /\
    timelineFrom LocalTZA activeDate currentDate rest = Return tail /\
    items = noteOf LocalTZA activeDate currentDate waypoint file
            :: match rest with
               | nextWaypoint :: _ => gapsBetween waypoint nextWaypoint
               | [] => []
               end ++ tail.
Proof.
  cbn [timelineFrom]. destruct waypoint as [file fileDate | |]; cbn [getFile bind];
    try discriminate.
  destruct (timelineFrom LocalTZA activeDate currentDate rest) as [tail | e]; cbn [bind];
    [| discriminate].
  intros [= <-]. exists file, fileDate, tail. auto.
Qed.

Lemma timelineFrom_notes waypoints items :
  timelineFrom LocalTZA activeDate currentDate waypoints = Return items ->
  List.map Return (noteFiles items) = List.map getFile waypoints /\
  noteDates items = List.map (fun w => moment_utc (time w)) waypoints.
Proof.
  revert items. induction waypoints as [| w rest IH]; intros items H.
  - injection H as <-. split; reflexivity.
  - apply timelineFrom_cons in H. destruct H as [file [fileDate [tail [-> [Htail ->]]]]].
    destruct (IH tail Htail) as [IHf IHd].
    assert (Hgaps : forall gaps,
               gaps = [] \/ (exists date gapCount, gaps = [gap date gapCount] /\ 1 <= gapCount) ->
               noteFiles (gaps ++ tail) = noteFiles tail /\ noteDates (gaps ++ tail) = noteDates tail).
    { intros gaps [-> | [date [gapCount [-> _]]]]; split; reflexivity. }
    destruct (Hgaps (match rest with
                     | nextWaypoint :: _ =>
                         gapsBetween (ObsidianFileWaypoint file fileDate) nextWaypoint
                     | [] => []
                     end)) as [Hf Hd].
    { destruct rest; [left; reflexivity | apply gapsBetween_cases]. }
    unfold noteFiles, noteDates in *. cbn [flat_map noteOf app List.map getFile time].
    rewrite Hf, Hd, IHf, IHd. split; reflexivity.
Qed.

Lemma timelineFrom_shape waypoints items :
  timelineFrom LocalTZA activeDate currentDate waypoints = Return items ->
  (waypoints = [] -> items = []) /\
  (waypoints <> [] -> exists date file isActive isCurrent tail,
                        items = note date file isActive isCurrent :: tail) /\
  gapsIsolated items.
Proof.
  revert items. induction waypoints as [| w rest IH]; intros items H.
  - injection H as <-. split; [reflexivity |]. split; [congruence | exact I].
  - apply timelineFrom_cons in H. destruct H as [file [fileDate [tail [-> [Htail ->]]]]].
    destruct (IH tail Htail) as [Hnil [Hcons Hiso]].
    split; [discriminate |]. split.
    + intros _. unfold noteOf. eexists _, _, _, _, _. reflexivity.
    + unfold noteOf. cbn [gapsIsolated]. destruct rest as [| next rest].
      * cbn [app]. exact Hiso.
      * destruct (gapsBetween_cases (ObsidianFileWaypoint file fileDate) next)
          as [-> | [date [gapCount [-> Hpos]]]].
        -- cbn [app]. exact Hiso.
        -- cbn [app gapsIsolated]. split; [exact Hpos |].
           destruct (Hcons ltac:(discriminate)) as [d [f [a [c [tl ->]]]]]. exact Hiso.
Qed.

Lemma timelineFrom_total waypoints :
  Forall isFileWaypoint waypoints ->
  exists items, timelineFrom LocalTZA activeDate currentDate waypoints = Return items.
Proof.
  induction 1 as [| w rest [file [fileDate ->]] _ [tail IH]]; [simpl; eauto |].
  cbn [timelineFrom getFile bind]. rewrite IH. cbn [bind]. eauto.
Qed.

Lemma timelineFrom_files waypoints items :
  timelineFrom LocalTZA activeDate currentDate waypoints = Return items ->
  Forall isFileWaypoint waypoints.
Proof.
  revert items. induction waypoints as [| w rest IH]; intros items H; [constructor |].
  apply timelineFrom_cons in H. destruct H as [file [fileDate [tail [-> [Htail ->]]]]].
  constructor; [exists file, fileDate; reflexivity | apply (IH tail Htail)].
Qed.

Lemma timelineFrom_Throw waypoints e :
  timelineFrom LocalTZA activeDate currentDate waypoints = Throw e ->
  e = TypeError "getFile is not a function".
Proof.
  induction waypoints as [| w rest IH]; [discriminate |].
  cbn [timelineFrom]. destruct w as [file fileDate | |]; cbn [getFile bind];
    try (intros [= <-]; reflexivity).
  destruct (timelineFrom LocalTZA activeDate currentDate rest) as [tail | e']; cbn [bind];
    [discriminate |].
  intros [= <-]. apply IH. reflexivity.
Qed.

Lemma buildGlobalTimeline_timelineFrom this :
  buildGlobalTimeline LocalTZA this activeDate currentDate
  = timelineFrom LocalTZA activeDate currentDate (collect (timewalk this) chronological).
Proof.
  unfold buildGlobalTimeline, getTimewalk.
  destruct (collect (timewalk this) chronological); reflexivity.
Qed.

(** The note items are the notes of the leaves. *)
Lemma timelineFrom_note_In waypoints items :
  timelineFrom LocalTZA activeDate currentDate waypoints = Return items ->
  (forall file fileDate,
     In (ObsidianFileWaypoint file fileDate) waypoints ->
     In (noteOf LocalTZA activeDate currentDate (ObsidianFileWaypoint file fileDate) file) items) /\
  (forall date file isActive isCurrent,
     In (note date file isActive isCurrent) items ->
     exists fileDate,
       In (ObsidianFileWaypoint file fileDate) waypoints /\
       note date file isActive isCurrent
       = noteOf LocalTZA activeDate currentDate (ObsidianFileWaypoint file fileDate) file).
Proof.
  revert items. induction waypoints as [| w rest IH]; intros items H.
  - injection H as <-. split; [intros ? ? [] | intros ? ? ? ? []].
  - apply timelineFrom_cons in H. destruct H as [file [fileDate [tail [-> [Htail ->]]]]].
    destruct (IH tail Htail) as [IHin IHout]. split.
    + intros f d [[= -> ->] | Hin]; [left; reflexivity |].
      right. apply in_app_iff. right. apply IHin, Hin.
    + intros date f a c [Heq | Hin].
      * assert (Hf : file = f) by (unfold noteOf in Heq; congruence). subst f.
        exists fileDate. split; [left; reflexivity | symmetry; exact Heq].
      * apply in_app_iff in Hin. destruct Hin as [Hin | Hin].
        -- exfalso. destruct rest as [| next rest]; [destruct Hin |].
           destruct (gapsBetween_cases (ObsidianFileWaypoint file fileDate) next)
             as [Hg | [d [g [Hg _]]]]; rewrite Hg in Hin; [destruct Hin |].
           destruct Hin as [Hin | []]. discriminate.
        -- destruct (IHout _ _ _ _ Hin) as [fd [Hfd Heq]]. exists fd.
           split; [right |]; assumption.
Qed.

(** X16.  The notes of the timeline are the leaves: taken in output order,
    the files of the note items are the files of the chronological leaf
    sequence, one for one, and their dates are the leaves' times as moments
    in UTC mode. *)
Theorem timeline_notes_are_the_leaves this items :
  buildGlobalTimeline LocalTZA this activeDate currentDate = Return items ->
  List.map Return (noteFiles items) = List.map getFile (collect (timewalk this) chronological) /\
  noteDates items
  = List.map (fun w => moment_utc (time w)) (collect (timewalk this) chronological).
Proof. rewrite buildGlobalTimeline_timelineFrom. apply timelineFrom_notes. Qed.

(** X17.  On every graph the timeline begins with a note, every gap counts
    at least one day, and every gap is followed by a note: no two gaps stand
    side by side and none comes last. *)
Theorem timeline_gaps_between_notes this items :
  buildGlobalTimeline LocalTZA this activeDate currentDate = Return items ->
  startsWithNote items /\ gapsIsolated items.
Proof.
  rewrite buildGlobalTimeline_timelineFrom. intros H.
  destruct (timelineFrom_shape _ _ H) as [Hnil [Hcons Hiso]]. split; [| exact Hiso].
  destruct (collect (timewalk this) chronological) as [| w ws].
  - rewrite Hnil by reflexivity. exact I.
  - destruct (Hcons ltac:(discriminate)) as [d [f [a [c [tl ->]]]]]. exact I.
Qed.

(** X18.  [buildGlobalTimeline] casts every leaf to a file waypoint without
    a check: it returns a timeline exactly when every leaf of the
    chronological sequence wraps a file, and otherwise throws the
    [TypeError] of the missing [getFile]. *)
Theorem timeline_throws_on_foreign_leaf this :
  ((exists items, buildGlobalTimeline LocalTZA this activeDate currentDate = Return items) <->
   Forall isFileWaypoint (collect (timewalk this) chronological)) /\
  (forall e,
     buildGlobalTimeline LocalTZA this activeDate currentDate = Throw e ->
     e = TypeError "getFile is not a function").
Proof.
  rewrite buildGlobalTimeline_timelineFrom. split; [split |].
  - intros [items H]. apply (timelineFrom_files _ _ H).
  - apply timelineFrom_total.
  - apply timelineFrom_Throw.
Qed.

End TimelineShape.

Lemma timeline_notes_are_the_leaves_witness :
  noteFiles threeNotesTimeline = [jan1File; jan2File; jan5File] /\
  noteDates threeNotesTimeline
  = List.map (fun w => moment_utc (time w)) (collect (timewalk threeNotes) chronological).
Proof.
  destruct (timeline_notes_are_the_leaves hostUTC (moment jan2) (moment jan5) threeNotes
              threeNotesTimeline) as [_ Hdates]; [reflexivity |].
  split; [reflexivity | exact Hdates].
Defined.

Lemma timeline_gaps_between_notes_witness :
  startsWithNote threeNotesTimeline /\ gapsIsolated threeNotesTimeline.
Proof.
  apply (timeline_gaps_between_notes hostUTC (moment jan2) (moment jan5) threeNotes).
  reflexivity.
Defined.

(** A leaf that is no file makes the builder throw. *)
Example timeline_of_string_waypoint :
  buildGlobalTimeline hostUTC (mkService twoLeaves ∅) (moment jan1) (moment jan1)
  = Throw (TypeError "getFile is not a function").
Proof. reflexivity. Qed.

(** ** The service after [rebuild] *)

Lemma MakeDay_range y m d :
  0 <= y <= 9999 -> -1 <= m <= 98 -> 0 <= d <= 99 ->
  -800000 <= MakeDay y m d <= 3000000.
Proof.
  intros Hy Hm Hd. unfold MakeDay, DayFromYear.
  pose proof (daysBeforeMonth_bound (isLeapYear (y + m / 12)) (m mod 12)).
  Z.to_euclidean_division_equations; lia.
Qed.

(** The date [rebuild] makes of the captures of a path is a number. *)
Lemma dateFromCaptures_number p year month day :
  pathMatch p = Some (year, month, day) ->
  isNaN (getTime (dateFromCaptures year month day)) = false.
Proof.
  intros Hm.
  destruct (pathMatch_captures _ _ _ _ Hm) as [y [m [d [Hy [Hmo [Hd [Ry [Rm Rd]]]]]]]].
  unfold dateFromCaptures, newDate, Date_UTC_of. rewrite Hy, Hmo, Hd. cbn [sub].
  unfold Date_UTC, MakeDate. rewrite Z.add_0_r.
  set (yr := if (0 <=? y) && (y <=? 99) then 1900 + y else y).
  assert (Hyr : 0 <= yr <= 9999).
  { unfold yr. destruct (Z.leb_spec 0 y), (Z.leb_spec y 99); simpl; lia. }
  pose proof (MakeDay_range yr (m - 1) d Hyr ltac:(lia) ltac:(lia)) as Hb.
  assert (Hclip : (Z.abs (MakeDay yr (m - 1) d * msPerDay) <=? 8640000000000000) = true)
    by (apply Z.leb_le; unfold msPerDay; lia).
  unfold TimeClip. rewrite Hclip. cbn [getTime]. rewrite Hclip. reflexivity.
Qed.

Lemma rebuilt_leaves files prior :
  List.filter (fun n => negb (isContainer n))
    (collectAllChildren (root (timewalk (rebuilt files prior))))
  = flat_map leafOf (matching files).
Proof.
  unfold rebuilt. rewrite rebuild_flattening. cbn [List.filter isContainer negb].
  rewrite (List.filter_ext_in _ (fun _ => true)); [apply List.filter_true |].
  intros w Hw. apply in_flat_map in Hw. destruct Hw as [f [_ Hw]].
  apply leafOf_leaf in Hw. destruct Hw as [date ->]. reflexivity.
Qed.

Lemma rebuilt_leaves_files files prior :
  Forall isFileWaypoint
    (List.filter (fun n => negb (isContainer n))
       (collectAllChildren (root (timewalk (rebuilt files prior))))).
Proof.
  rewrite rebuilt_leaves. apply List.Forall_forall. intros w Hw.
  apply in_flat_map in Hw. destruct Hw as [f [_ Hw]].
  apply leafOf_leaf in Hw. destruct Hw as [date ->]. exists f, date. reflexivity.
Qed.

Lemma leafOf_cases file :
  leafOf file = [] \/ exists date, leafOf file = [ObsidianFileWaypoint file date].
Proof.
  unfold leafOf. destruct (pathMatch (path file)) as [[[year month] day] |]; eauto.
Qed.

Lemma rebuilt_leaf_midnight files w :
  In w (flat_map leafOf (matching files)) ->
  exists file n, w = ObsidianFileWaypoint file (mkDate (Num (n * msPerDay))).
Proof.
  intros Hw. apply in_flat_map in Hw. destruct Hw as [file [_ Hw]].
  unfold leafOf in Hw.
  destruct (pathMatch (path file)) as [[[year month] day] |] eqn:Hm; [| destruct Hw].
  destruct Hw as [<- | []].
  pose proof (dateFromCaptures_number _ _ _ _ Hm) as Hnum.
  destruct (dateFromCaptures_midnight year month day) as [Hnan | [n [Hn _]]].
  - rewrite Hnan in Hnum. discriminate.
  - exists file, n. destruct (dateFromCaptures year month day) as [tv]. simpl in Hn.
    subst tv. reflexivity.
Qed.

Section RebuiltFacts.
Variable LocalTZA : Z -> bool -> Z.
Variable Date_parse : string -> Number.

(** [find] on a rebuilt graph: the leaves of the day, in listing order. *)
Lemma rebuilt_find files prior target :
  find LocalTZA Date_parse (timewalk (rebuilt files prior)) (ofDate target)
  = List.filter (fun w => isSameDay LocalTZA (time w) target) (flat_map leafOf (matching files)).
Proof.
  unfold find, rebuilt. rewrite rebuild_flattening. cbn [toTarget List.filter isContainer].
  apply List.filter_ext_in. intros w Hw. apply in_flat_map in Hw. destruct Hw as [f [_ Hw]].
  apply leafOf_leaf in Hw. destruct Hw as [date ->]. reflexivity.
Qed.

(** The chronological sequence of a rebuilt graph holds the leaves that are
    not dated at the epoch. *)
Lemma rebuilt_chronological_In files prior v :
  In v (collect (timewalk (rebuilt files prior)) chronological) <->
  In v (flat_map leafOf (matching files)) /\ getTime (time v) <> Num 0.
Proof.
  rewrite collect_visited, visited_In, filtered_In. unfold rebuilt. rewrite rebuild_flattening.
  split.
  - intros [[<- | Hv] Hkeep]; [discriminate |]. split; [exact Hv |].
    change (filterOf chronological) with leaves in Hkeep.
    change (includeNonCalendarOf chronological) with false in Hkeep.
    destruct (keepNode_calendar _ _ (keepNode_leaves _ _ Hkeep) Hkeep) as [t [Ht Hne]].
    rewrite Ht. congruence.
  - intros [Hv Hne]. split; [right; exact Hv |].
    destruct (rebuilt_leaf_midnight _ _ Hv) as [file [n ->]].
    cbn [time getTime] in Hne.
    change (filterOf chronological) with leaves.
    change (includeNonCalendarOf chronological) with false.
    unfold keepNode. cbn [isContainer negb andb time getTime strictEq isNaN orb].
    destruct (Z.eqb_spec (n * msPerDay) 0) as [H0 | _]; [rewrite H0 in Hne; congruence |].
    reflexivity.
Qed.

Lemma rebuilt_timeline_total files prior activeDate currentDate :
  exists items,
    buildGlobalTimeline LocalTZA (rebuilt files prior) activeDate currentDate = Return items.
Proof.
  rewrite buildGlobalTimeline_timelineFrom.
  apply timelineFrom_total, chronological_files, rebuilt_leaves_files.
Qed.

(** X8.  On the graph that [rebuild] makes, whatever the vault lists, no
    query throws: the unchecked casts to a file waypoint in [findDailyNote],
    [getPreviousDailyNote], [getNextDailyNote] and [buildGlobalTimeline]
    always meet a file waypoint. *)
Theorem rebuilt_queries_return files prior date activeDate currentDate :
  (exists found, findDailyNote LocalTZA Date_parse (rebuilt files prior) date = Return found) /\
  (exists answer, hasDailyNote LocalTZA Date_parse (rebuilt files prior) date = Return answer) /\
  (exists previous, getPreviousDailyNote LocalTZA (rebuilt files prior) date = Return previous) /\
  (exists next, getNextDailyNote LocalTZA (rebuilt files prior) date = Return next) /\
  (exists items,
     buildGlobalTimeline LocalTZA (rebuilt files prior) activeDate currentDate = Return items).
Proof.
  pose proof (rebuilt_leaves_files files prior) as Hfiles.
  destruct (findDailyNote_total LocalTZA Date_parse _ date Hfiles) as [found Hfound].
  split; [eauto |]. split; [unfold hasDailyNote; rewrite Hfound; simpl; eauto |].
  destruct (adjacent_total LocalTZA (rebuilt files prior) date
              (chronological_files _ Hfiles)) as [Hprev Hnext].
  split; [exact Hprev |]. split; [exact Hnext |]. apply rebuilt_timeline_total.
Qed.

Lemma filter_leaves_head target files :
  match List.filter (fun w => isSameDay LocalTZA (time w) target) (flat_map leafOf files) with
  | w :: _ => fileOf (Some w)
  | [] => Return None
  end
  = Return (head (List.filter (onDay LocalTZA target) files)).
Proof.
  induction files as [| f files IH]; [reflexivity |].
  cbn [flat_map List.filter]. rewrite List.filter_app. unfold onDay at 1.
  destruct (leafOf_cases f) as [-> | [date ->]].
  - cbn [List.filter app existsb]. exact IH.
  - cbn [List.filter existsb time]. rewrite orb_false_r.
    destruct (isSameDay LocalTZA date target); [reflexivity | exact IH].
Qed.

(** X9.  After [rebuild], [findDailyNote] returns the first file, in the
    order of the vault's listing, among the files that pass the pattern and
    whose date falls on the local calendar day of the date asked for, and
    [null] when there is none; [hasDailyNote] tells whether there is one. *)
Theorem findDailyNote_first_listed files prior date :
  findDailyNote LocalTZA Date_parse (rebuilt files prior) date
  = Return (head (List.filter (onDay LocalTZA (toDate date)) (matching files))) /\
  hasDailyNote LocalTZA Date_parse (rebuilt files prior) date
  = Return (existsb (onDay LocalTZA (toDate date)) (matching files)).
Proof.
  assert (Hfind : findDailyNote LocalTZA Date_parse (rebuilt files prior) date
                  = Return (head (List.filter (onDay LocalTZA (toDate date)) (matching files)))).
  { unfold findDailyNote. rewrite rebuilt_find.
    rewrite <- (filter_leaves_head (toDate date) (matching files)).
    destruct (List.filter _ (flat_map leafOf (matching files))); reflexivity. }
  split; [exact Hfind |]. unfold hasDailyNote. rewrite Hfind. cbn [bind]. f_equal.
  clear Hfind. induction (matching files) as [| f fs IH]; [reflexivity |].
  cbn [List.filter existsb]. destruct (onDay LocalTZA (toDate date) f); [reflexivity | exact IH].
Qed.

(** X10.  The date the service reports for an indexed note finds a note
    again, on every host: for a listed file that passes the pattern,
    [getDailyNoteDate] returns a date for which [findDailyNote] returns a
    listed file, [hasDailyNote] holds, and the date the service reports for
    the file found is on the same local day. *)
Theorem indexed_note_is_found files prior file :
  In file files -> dailyNotePattern_test (path file) = true ->
  exists date found date',
    getDailyNoteDate LocalTZA (rebuilt files prior) file = Some date /\
    findDailyNote LocalTZA Date_parse (rebuilt files prior) date = Return (Some found) /\
    hasDailyNote LocalTZA Date_parse (rebuilt files prior) date = Return true /\
    In found files /\
    getDailyNoteDate LocalTZA (rebuilt files prior) found = Some date' /\
    isSameDay LocalTZA (toDate date') (toDate date) = true.
Proof.
  intros Hin Htest.
  destruct (test_pathMatch _ Htest) as [[[year month] day] Hm].
  pose proof (getDailyNoteDate_cached LocalTZA files prior file year month day Hin Htest Hm)
    as Hdate.
  set (target := dateFromCaptures year month day) in *.
  assert (Hown : In (ObsidianFileWaypoint file target)
                    (find LocalTZA Date_parse (timewalk (rebuilt files prior)) (ofDate target))).
  { rewrite rebuilt_find. apply filter_In. split.
    - apply in_flat_map. exists file. split; [apply filter_In; auto |].
      unfold leafOf. rewrite Hm. left. reflexivity.
    - apply isSameDay_refl. apply (dateFromCaptures_number _ _ _ _ Hm). }
  destruct (find LocalTZA Date_parse (timewalk (rebuilt files prior)) (ofDate target))
    as [| w ws] eqn:Hfind; [destruct Hown |].
  assert (Hw : In w (find LocalTZA Date_parse (timewalk (rebuilt files prior)) (ofDate target)))
    by (rewrite Hfind; left; reflexivity).
  rewrite rebuilt_find in Hw. apply filter_In in Hw. destruct Hw as [Hleaf Hsame].
  apply in_flat_map in Hleaf. destruct Hleaf as [found [Hfound Hleaf]].
  apply filter_In in Hfound. destruct Hfound as [Hlisted Hpass].
  unfold leafOf in Hleaf.
  destruct (pathMatch (path found)) as [[[year' month'] day'] |] eqn:Hm'; [| destruct Hleaf].
  destruct Hleaf as [<- | []].
  exists (moment target), found, (moment (dateFromCaptures year' month' day')).
  split; [exact Hdate |].
  assert (Hfd : findDailyNote LocalTZA Date_parse (rebuilt files prior) (moment target)
                = Return (Some found)).
  { unfold findDailyNote. cbn [toDate moment _d]. rewrite Hfind. reflexivity. }
  split; [exact Hfd |]. split; [unfold hasDailyNote; rewrite Hfd; reflexivity |].
  split; [exact Hlisted |]. split.
  - apply (getDailyNoteDate_cached LocalTZA files prior found year' month' day'); assumption.
  - exact Hsame.
Qed.

(** X11.  [rebuild] never stores an invalid date: for every listed file
    that passes the pattern, also one whose captured month or day names no
    day, the leaf is in the graph and [getDailyNoteDate] returns a valid
    moment that is a whole number of days from the epoch. *)
Theorem indexed_dates_are_midnights files prior file :
  In file files -> dailyNotePattern_test (path file) = true ->
  exists date n,
    getDailyNoteDate LocalTZA (rebuilt files prior) file = Some date /\
    isValid date = true /\
    getTime (toDate date) = Num (n * msPerDay) /\
    In (ObsidianFileWaypoint file (toDate date))
       (children (root (timewalk (rebuilt files prior)))).
Proof.
  intros Hin Htest.
  destruct (test_pathMatch _ Htest) as [[[year month] day] Hm].
  pose proof (getDailyNoteDate_cached LocalTZA files prior file year month day Hin Htest Hm)
    as Hdate.
  pose proof (dateFromCaptures_number _ _ _ _ Hm) as Hnum.
  destruct (dateFromCaptures_midnight year month day) as [Hnan | [n [Hn _]]];
    [rewrite Hnan in Hnum; discriminate |].
  exists (moment (dateFromCaptures year month day)), n.
  split; [exact Hdate |]. split; [unfold isValid; cbn [moment _d]; rewrite Hnum; reflexivity |].
  split; [exact Hn |].
  unfold rebuilt. rewrite rebuild_children. apply in_flat_map. exists file.
  split; [apply filter_In; auto |]. unfold leafOf. rewrite Hm. left. reflexivity.
Qed.

(** X12.  [rebuild] forgets what is no longer listed: for a path that no
    listed file has, the new map has no entry and the new graph no leaf,
    whatever the service held before, and [getDailyNoteDate] is back to
    reading the path. *)
Theorem rebuild_drops_unlisted files prior p :
  (forall file, In file files -> path file <> p) ->
  waypointMap (rebuilt files prior) !! p = None /\
  Forall (fun w => identifier w <> p) (children (root (timewalk (rebuilt files prior)))) /\
  getDailyNoteDate LocalTZA (rebuilt files prior) (mkTFile p) = fallback LocalTZA (mkTFile p).
Proof.
  intros Hnot.
  assert (Hmiss : waypointMap (rebuilt files prior) !! p = None).
  { unfold rebuilt. rewrite rebuild_lookup. unfold cached.
    destruct (existsb _ (matching files)) eqn:He; [| reflexivity].
    apply existsb_exists in He. destruct He as [f [Hf Hp]].
    apply filter_In in Hf. destruct Hf as [Hf _]. apply String.eqb_eq in Hp.
    destruct (Hnot f Hf Hp). }
  split; [exact Hmiss |]. split.
  - unfold rebuilt. rewrite rebuild_children. apply List.Forall_forall. intros w Hw.
    apply in_flat_map in Hw. destruct Hw as [f [Hf Hw]].
    apply leafOf_leaf in Hw. destruct Hw as [date ->]. simpl.
    apply filter_In in Hf. destruct Hf as [Hf _]. apply Hnot, Hf.
  - apply getDailyNoteDate_uncached. exact Hmiss.
Qed.

End RebuiltFacts.

Lemma indexed_note_is_found_witness :
  exists date found date',
    getDailyNoteDate hostUTC (rebuilt [random; march7] emptyService) march7 = Some date /\
    findDailyNote hostUTC noParse (rebuilt [random; march7] emptyService) date
    = Return (Some found) /\
    hasDailyNote hostUTC noParse (rebuilt [random; march7] emptyService) date = Return true /\
    In found [random; march7] /\
    getDailyNoteDate hostUTC (rebuilt [random; march7] emptyService) found = Some date' /\
    isSameDay hostUTC (toDate date') (toDate date) = true.
Proof.
  apply (indexed_note_is_found hostUTC noParse [random; march7] emptyService march7).
  - simpl. auto.
  - reflexivity.
Defined.

Lemma indexed_dates_are_midnights_witness :
  exists date n,
    getDailyNoteDate hostUTC (rebuilt [random; march7] emptyService) march7 = Some date /\
    isValid date = true /\
    getTime (toDate date) = Num (n * msPerDay) /\
    In (ObsidianFileWaypoint march7 (toDate date))
       (children (root (timewalk (rebuilt [random; march7] emptyService)))).
Proof.
  apply (indexed_dates_are_midnights hostUTC [random; march7] emptyService march7).
  - simpl. auto.
  - reflexivity.
Defined.

Lemma rebuild_drops_unlisted_witness :
  is_Some (waypointMap indexedMarch7 !! path march7) /\
  waypointMap (rebuilt [random] indexedMarch7) !! path march7 = None.
Proof.
  split.
  - unfold indexedMarch7. rewrite rebuild_lookup. vm_compute. eauto.
  - apply (rebuild_drops_unlisted hostUTC [random] indexedMarch7 (path march7)).
    intros file [<- | []]. discriminate.
Defined.

(** ** The pattern and the folders above a daily note *)

Lemma append_assoc (a b c : string) : ((a ++ b) ++ c = a ++ b ++ c)%string.
Proof.
  induction a as [| x a IH]; [reflexivity |].
  change (String x ((a ++ b) ++ c) = String x (a ++ b ++ c))%string. f_equal. exact IH.
Qed.

(** X13.  A path that passes the pattern of [rebuild] ends in [.md], and
    goes on passing when folders are put in front of it: the expression is
    tied to the end of the path only. *)
Theorem pattern_ignores_folders folders p :
  dailyNotePattern_test p = true ->
  dailyNotePattern_test (folders ++ p) = true /\
  exists stem, p = (stem ++ ".md")%string.
Proof.
  intros H. apply test_somewhere in H.
  destruct H as [skipped [matched [year [month [day [-> Hm]]]]]]. split.
  - apply test_somewhere. exists (folders ++ skipped)%string, matched, year, month, day.
    split; [symmetry; apply append_assoc | exact Hm].
  - destruct Hm as [ws [word [ws' [word' [-> _]]]]].
    exists (skipped ++ year ++ "/" ++ month ++ "." ++ ws ++ word ++ "/" ++ day ++ ws' ++ word')%string.
    rewrite !append_assoc. reflexivity.
Qed.

Lemma pattern_ignores_folders_witness :
  dailyNotePattern_test "0C. Calendarish/2025/03. Mar/07 Fri.md" = true.
Proof. apply (pattern_ignores_folders "0C. Calendarish/" (path march7)). reflexivity. Defined.

(** ** The timeline of the rebuilt index *)

Section RebuiltTimeline.
Variable LocalTZA : Z -> bool -> Z.
Variable Date_parse : string -> Number.

(** X20.  On a host at or east of Greenwich, the timeline marks the note
    that is open: built with the date [getDailyNoteDate] reports for an
    indexed file as the active date, it holds the note item of that file,
    and the item is active.  (A note dated at the zero epoch is in no
    timeline.) *)
Theorem open_note_is_active files prior file date currentDate :
  In file files -> dailyNotePattern_test (path file) = true ->
  getDailyNoteDate LocalTZA (rebuilt files prior) file = Some date ->
  getTime (toDate date) <> Num 0 ->
  (forall t, 0 <= LocalTZA t true < msPerDay) ->
  exists items isCurrent,
    buildGlobalTimeline LocalTZA (rebuilt files prior) date currentDate = Return items /\
    In (note (moment_utc (toDate date)) file true isCurrent) items.
Proof.
  intros Hin Htest Hdate Hne Heast.
  destruct (test_pathMatch _ Htest) as [[[year month] day] Hm].
  unfold rebuilt in Hdate.
  rewrite (getDailyNoteDate_cached LocalTZA files prior file year month day Hin Htest Hm) in Hdate.
  fold (rebuilt files prior). injection Hdate as <-. cbn [toDate moment _d] in *.
  assert (Hleaf : In (ObsidianFileWaypoint file (dateFromCaptures year month day))
                     (flat_map leafOf (matching files))).
  { apply in_flat_map. exists file. split; [apply filter_In; auto |].
    unfold leafOf. rewrite Hm. left. reflexivity. }
  destruct (rebuilt_leaf_midnight _ _ Hleaf) as [file' [n Heq]].
  assert (Hn : dateFromCaptures year month day = mkDate (Num (n * msPerDay))) by congruence.
  clear Heq. rewrite Hn in *.
  destruct (rebuilt_timeline_total LocalTZA files prior
              (moment (mkDate (Num (n * msPerDay)))) currentDate) as [items Hrun].
  rewrite buildGlobalTimeline_timelineFrom in Hrun.
  destruct (timelineFrom_note_In _ _ _ _ _ Hrun) as [Hnotes _].
  specialize (Hnotes file (mkDate (Num (n * msPerDay)))).
  unfold noteOf in Hnotes. cbn [time] in Hnotes.
  exists items. eexists. split; [rewrite buildGlobalTimeline_timelineFrom; exact Hrun |].
  replace true with
    (bool_decide (format_YYYY_MM_DD LocalTZA (moment_utc (mkDate (Num (n * msPerDay))))
                  = format_YYYY_MM_DD LocalTZA (moment (mkDate (Num (n * msPerDay)))))).
  - apply Hnotes, rebuilt_chronological_In. split; [exact Hleaf | exact Hne].
  - apply bool_decide_eq_true. unfold format_YYYY_MM_DD, moment_utc, moment.
    cbn [_d _isUTC getTime]. unfold LocalTime.
    assert (HDay : Day (n * msPerDay + LocalTZA (n * msPerDay) true) = n).
    { unfold Day. rewrite Z.add_comm, Z.div_add by discriminate.
      rewrite Z.div_small by apply Heast. reflexivity. }
    rewrite HDay, Day_midnight. reflexivity.
Qed.

(** X19.  In the timeline of a rebuilt index, the notes marked active all
    carry one date, and so do the notes marked current: at most one day is
    shown as the open one and at most one as today. *)
Theorem marked_notes_share_a_day files prior activeDate currentDate items
    date1 file1 active1 current1 date2 file2 active2 current2 :
  buildGlobalTimeline LocalTZA (rebuilt files prior) activeDate currentDate = Return items ->
  In (note date1 file1 active1 current1) items ->
  In (note date2 file2 active2 current2) items ->
  (active1 = true /\ active2 = true) \/ (current1 = true /\ current2 = true) ->
  date1 = date2.
Proof.
  rewrite buildGlobalTimeline_timelineFrom. intros Hrun H1 H2 Hmarks.
  destruct (timelineFrom_note_In _ _ _ _ _ Hrun) as [_ Hnotes].
  destruct (Hnotes _ _ _ _ H1) as [fd1 [Hw1 E1]].
  destruct (Hnotes _ _ _ _ H2) as [fd2 [Hw2 E2]].
  apply rebuilt_chronological_In in Hw1, Hw2. destruct Hw1 as [Hw1 _], Hw2 as [Hw2 _].
  destruct (rebuilt_leaf_midnight _ _ Hw1) as [f1 [n1 Heq1]].
  destruct (rebuilt_leaf_midnight _ _ Hw2) as [f2 [n2 Heq2]].
  assert (Hn1 : fd1 = mkDate (Num (n1 * msPerDay))) by congruence.
  assert (Hn2 : fd2 = mkDate (Num (n2 * msPerDay))) by congruence.
  subst fd1 fd2.
  unfold noteOf in E1, E2. cbn [time] in E1, E2.
  injection E1 as -> Ha1 Hc1. injection E2 as -> Ha2 Hc2.
  assert (Hfmt : format_YYYY_MM_DD LocalTZA (moment_utc (mkDate (Num (n1 * msPerDay))))
                 = format_YYYY_MM_DD LocalTZA (moment_utc (mkDate (Num (n2 * msPerDay))))).
  { destruct Hmarks as [[-> ->] | [-> ->]].
    - symmetry in Ha1, Ha2. apply bool_decide_eq_true in Ha1, Ha2. congruence.
    - symmetry in Hc1, Hc2. apply bool_decide_eq_true in Hc1, Hc2. congruence. }
  unfold format_YYYY_MM_DD, moment_utc in Hfmt. cbn [_d _isUTC getTime] in Hfmt.
  rewrite !Day_midnight in Hfmt.
  destruct (civil_from_days n1) as [[y1 m1] d1] eqn:C1.
  destruct (civil_from_days n2) as [[y2 m2] d2] eqn:C2.
  injection Hfmt as -> -> ->. rewrite <- C2 in C1. apply civil_from_days_inj in C1.
  subst n2. reflexivity.
Qed.

Variables activeDate currentDate : Moment.

Lemma gapsBetween_ascending file file' n n' :
  n <= n' ->
  Z.abs (n * msPerDay) <= 8640000000000000 ->
  Z.abs (n' * msPerDay) <= 8640000000000000 ->
  gapsBetween (ObsidianFileWaypoint file (mkDate (Num (n * msPerDay))))
              (ObsidianFileWaypoint file' (mkDate (Num (n' * msPerDay))))
  = if n' - n - 1 >? 0 then [gap (utcMidnight (n + 1)) (n' - n - 1)] else [].
Proof.
  intros Hle Hn Hn'. unfold gapsBetween, diff_days. cbn [time moment_utc _d getTime sub].
  replace (n' * msPerDay - n * msPerDay) with ((n' - n) * msPerDay) by lia.
  rewrite Z.quot_mul by discriminate.
  destruct (Z.gtb_spec (n' - n - 1) 0) as [Hgap | Hnone]; [| reflexivity].
  do 2 f_equal.
  unfold add_1_day, utcMidnight, moment_utc, newDate. cbn [_d _isUTC getTime add].
  unfold TimeClip.
  replace (n * msPerDay + msPerDay) with ((n + 1) * msPerDay) by lia.
  replace (Z.abs ((n + 1) * msPerDay) <=? 8640000000000000) with true
    by (symmetry; apply Z.leb_le; unfold msPerDay in *; lia).
  reflexivity.
Qed.

Lemma itemAgrees_cons w waypoints item :
  itemAgrees waypoints item ->
  (forall date gapCount, item = gap date gapCount -> dayOf w < dayNumber date) ->
  itemAgrees (w :: waypoints) item.
Proof.
  destruct item as [date file a c | date gapCount]; simpl.
  - intros [v [Hv Hd]] _. exists v. auto.
  - intros [Hd [Hpos Havoid]] Hw. split; [exact Hd |]. split; [exact Hpos |].
    intros v [<- | Hv]; [left; apply (Hw date gapCount eq_refl) | apply Havoid, Hv].
Qed.

Lemma dayNumber_utcMidnight day : dayNumber (utcMidnight day) = day.
Proof. unfold dayNumber, utcMidnight. cbn [moment_utc _d getTime]. apply Day_midnight. Qed.

(** The timeline of midnight leaves in ascending order, leaves of one day
    among them: every gap lies after the first leaf, and no leaf falls on a
    day of a gap. *)
Lemma timelineFrom_agrees rest :
  forall w,
    Forall midnightLeaf (w :: rest) ->
    ascending timeOf (w :: rest) ->
    exists items,
      timelineFrom LocalTZA activeDate currentDate (w :: rest) = Return items /\
      Forall (itemAgrees (w :: rest)) items /\
      Forall (fun item => forall date gapCount,
                item = gap date gapCount -> dayOf w < dayNumber date) items.
Proof.
  induction rest as [| next rest IH]; intros w Hleaf Hsort.
  - inversion Hleaf as [| ? ? [file [n [-> Hn]]] _]; subst.
    eexists. split; [reflexivity |]. split.
    + repeat constructor. simpl. eexists. split; [left; reflexivity | reflexivity].
    + repeat constructor. unfold noteOf. intros date gapCount. discriminate.
  - inversion Hleaf as [| ? ? [file [n [-> Hn]]] Hleaf']; subst.
    inversion Hsort as [| ? ? Hsort' Hle]; subst.
    pose proof Hleaf' as Hnext.
    inversion Hnext as [| ? ? [file2 [n' [-> Hn']]] _]; subst.
    destruct (IH _ Hleaf' Hsort') as [items [Hrun [Hagree Hafter]]].
    assert (Hnn' : n <= n').
    { inversion Hle as [| ? ? H _]. unfold timeOf in H. cbn [time getTime] in H.
      unfold msPerDay in H. lia. }
    assert (Hrest : forall v,
               In v (ObsidianFileWaypoint file2 (mkDate (Num (n' * msPerDay))) :: rest) ->
               n' <= dayOf v).
    { intros v [Heq | Hv].
      - rewrite <- Heq. unfold dayOf, timeOf. cbn [time getTime]. rewrite Day_midnight. lia.
      - inversion Hsort' as [| ? ? _ Hall]. rewrite List.Forall_forall in Hall.
        specialize (Hall v Hv).
        rewrite List.Forall_forall in Hleaf'.
        destruct (Hleaf' v (or_intror Hv)) as [fv [nv [-> _]]].
        unfold timeOf in Hall. cbn [time getTime] in Hall.
        unfold dayOf, timeOf. cbn [time getTime]. rewrite Day_midnight.
        unfold msPerDay in Hall. lia. }
    set (w := ObsidianFileWaypoint file (mkDate (Num (n * msPerDay)))) in *.
    set (w' := ObsidianFileWaypoint file2 (mkDate (Num (n' * msPerDay)))) in *.
    assert (Hw : dayOf w = n) by apply Day_midnight.
    assert (Hw' : dayOf w' = n') by apply Day_midnight.
    exists (noteOf LocalTZA activeDate currentDate w file :: gapsBetween w w' ++ items).
    split.
    { unfold w at 1. rewrite timelineFrom_more. fold w. rewrite Hrun. reflexivity. }
    split.
    + constructor.
      { simpl. exists w. split; [left; reflexivity | reflexivity]. }
      apply Forall_app. split.
      * unfold w, w'. rewrite gapsBetween_ascending by assumption. fold w w'.
        destruct (Z.gtb_spec (n' - n - 1) 0) as [Hgap | Hnone]; [| constructor].
        constructor; [| constructor]. simpl. rewrite dayNumber_utcMidnight.
        split; [reflexivity |]. split; [lia |].
        intros v [Heq | Hv]; [left; rewrite <- Heq; lia | right].
        specialize (Hrest v Hv). lia.
      * rewrite List.Forall_forall in *. intros item Hitem.
        apply itemAgrees_cons; [apply Hagree, Hitem |].
        intros date gapCount ->. specialize (Hafter _ Hitem date gapCount eq_refl). lia.
    + constructor; [intros date gapCount; discriminate |].
      apply Forall_app. split.
      * unfold w, w'. rewrite gapsBetween_ascending by assumption. fold w w'.
        destruct (Z.gtb_spec (n' - n - 1) 0) as [Hgap | Hnone]; [| constructor].
        constructor; [| constructor]. intros date gapCount [= <- <-].
        rewrite dayNumber_utcMidnight. lia.
      * rewrite List.Forall_forall in *. intros item Hitem date gapCount ->.
        specialize (Hafter _ Hitem date gapCount eq_refl). lia.
Qed.

(** X21.  The timeline and the lookup agree.  On a host whose local day
    moves on from one UTC midnight to the next, in the timeline of a rebuilt
    index every note item stands on a date for which [hasDailyNote] holds,
    and every gap starts at midnight UTC of a day and covers only days for
    which [hasDailyNote] fails, the zero epoch apart: a note dated at the
    epoch is in the index and is found, but is in no timeline. *)
Theorem timeline_agrees_with_lookup files prior :
  midnightsApart LocalTZA ->
  exists items,
    buildGlobalTimeline LocalTZA (rebuilt files prior) activeDate currentDate = Return items /\
    Forall (fun item =>
              match item with
              | note date _ _ _ =>
                  hasDailyNote LocalTZA Date_parse (rebuilt files prior) date = Return true
              | gap date gapCount =>
                  date = utcMidnight (dayNumber date) /\
                  forall day,
                    dayNumber date <= day < dayNumber date + gapCount -> day <> 0 ->
                    hasDailyNote LocalTZA Date_parse (rebuilt files prior) (utcMidnight day)
                    = Return false
              end) items.
Proof.
  intros Hapart. rewrite buildGlobalTimeline_timelineFrom.
  pose proof (rebuild_leaves_midnight files prior) as Hleaves.
  fold (rebuilt files prior) in Hleaves. rewrite <- collect_visited in Hleaves.
  assert (Hvalid : Forall validTime (filtered (timewalk (rebuilt files prior)) chronological))
    by (apply filtered_leaves_valid; reflexivity).
  pose proof (visited_future_ascending (timewalk (rebuilt files prior)) chronological
                eq_refl Hvalid) as Hasc.
  rewrite <- collect_visited in Hasc.
  pose proof (rebuilt_chronological_In files prior) as Hin.
  destruct (collect (timewalk (rebuilt files prior)) chronological) as [| w rest] eqn:Hws.
  { exists []. split; [reflexivity | constructor]. }
  destruct (timelineFrom_agrees rest w Hleaves Hasc) as [items [Hrun [Hagree _]]].
  exists items. split; [exact Hrun |].
  eapply List.Forall_impl; [| exact Hagree].
  intros [date file a c | date gapCount]; simpl.
  - intros [v [Hv ->]]. apply Hin in Hv. destruct Hv as [Hv Hne].
    destruct (rebuilt_leaf_midnight _ _ Hv) as [fv [n ->]].
    unfold hasDailyNote, findDailyNote. cbn [toDate moment_utc _d time].
    rewrite rebuilt_find.
    destruct (List.filter _ (flat_map leafOf (matching files))) as [| u us] eqn:Hfilter.
    + exfalso.
      assert (Hown : In (ObsidianFileWaypoint fv (mkDate (Num (n * msPerDay))))
                        (List.filter
                           (fun w0 => isSameDay LocalTZA (time w0) (mkDate (Num (n * msPerDay))))
                           (flat_map leafOf (matching files)))).
      { apply filter_In. split; [exact Hv |]. apply isSameDay_refl. reflexivity. }
      rewrite Hfilter in Hown. destruct Hown.
    + assert (Hu : In u (u :: us)) by (left; reflexivity).
      rewrite <- Hfilter in Hu. apply filter_In in Hu. destruct Hu as [Hu _].
      destruct (rebuilt_leaf_midnight _ _ Hu) as [fu [nu ->]]. reflexivity.
  - intros [Hdate [Hpos Havoid]]. split; [exact Hdate |].
    intros day Hday Hne.
    unfold hasDailyNote, findDailyNote. cbn [toDate utcMidnight moment_utc _d].
    rewrite rebuilt_find.
    rewrite (List.filter_ext_in _ (fun _ => false)); [rewrite List.filter_false; reflexivity |].
    intros u Hu. destruct (rebuilt_leaf_midnight _ _ Hu) as [fu [nu ->]].
    cbn [time]. rewrite isSameDay_Num. apply Z.eqb_neq. intros Hsame.
    apply Hapart in Hsame. subst nu.
    assert (Hvis : In (ObsidianFileWaypoint fu (mkDate (Num (day * msPerDay)))) (w :: rest)).
    { apply Hin. split; [exact Hu |]. cbn [time getTime]. intros [= H0].
      unfold msPerDay in H0. lia. }
    specialize (Havoid _ Hvis). unfold dayOf, timeOf in Havoid. cbn [time getTime] in Havoid.
    rewrite Day_midnight in Havoid. lia.
Qed.

End RebuiltTimeline.

Lemma open_note_is_active_witness :
  exists items isCurrent,
    buildGlobalTimeline hostUTC (rebuilt [march7] emptyService)
      (moment (mkDate (Num 1741305600000))) (moment jan1) = Return items /\
    In (note (moment_utc (mkDate (Num 1741305600000))) march7 true isCurrent) items.
Proof.
  apply (open_note_is_active hostUTC [march7] emptyService march7
           (moment (mkDate (Num 1741305600000))) (moment jan1)).
  - left. reflexivity.
  - reflexivity.
  - reflexivity.
  - discriminate.
  - intros t. unfold hostUTC, msPerDay. lia.
Defined.

Lemma marked_notes_share_a_day_witness :
  buildGlobalTimeline hostUTC (rebuilt [jan5a; jan5b] emptyService) (moment jan5) (moment jan1)
  = Return [note (moment_utc jan5) jan5a true false; note (moment_utc jan5) jan5b true false] /\
  moment_utc jan5 = moment_utc jan5.
Proof.
  split; [reflexivity |].
  apply (marked_notes_share_a_day hostUTC [jan5a; jan5b] emptyService (moment jan5) (moment jan1)
           [note (moment_utc jan5) jan5a true false; note (moment_utc jan5) jan5b true false]
           (moment_utc jan5) jan5a true false (moment_utc jan5) jan5b true false).
  - reflexivity.
  - left. reflexivity.
  - right. left. reflexivity.
  - left. split; reflexivity.
Defined.

Lemma timeline_agrees_with_lookup_witness :
  exists items,
    buildGlobalTimeline hostUTC threeNotes (moment jan2) (moment jan5) = Return items /\
    Forall (fun item =>
              match item with
              | note date _ _ _ => hasDailyNote hostUTC noParse threeNotes date = Return true
              | gap date gapCount =>
                  date = utcMidnight (dayNumber date) /\
                  forall day,
                    dayNumber date <= day < dayNumber date + gapCount -> day <> 0 ->
                    hasDailyNote hostUTC noParse threeNotes (utcMidnight day) = Return false
              end) items.
Proof.
  apply (timeline_agrees_with_lookup hostUTC noParse (moment jan2) (moment jan5)
           [jan5File; jan1File; jan2File] emptyService).
  intros n m. unfold localDay, LocalTime, hostUTC. rewrite !Z.add_0_r, !Day_midnight. auto.
Defined.

(** A note dated at the epoch is found by the lookup and missing from the
    timeline. *)
Example epoch_note_is_in_no_timeline :
  let epochNote := mkTFile "1970/01. Jan/01 Thu.md" in
  hasDailyNote hostUTC noParse (rebuilt [epochNote] emptyService) (utcMidnight 0) = Return true /\
  buildGlobalTimeline hostUTC (rebuilt [epochNote] emptyService) (utcMidnight 0) (utcMidnight 0)
  = Return [].
Proof. split; reflexivity. Qed.

(** ** The metadata properties of the settings *)

Section TextFacts.
Import Text.

Lemma append_String c (a b : string) : (String c a ++ b = String c (a ++ b))%string.
Proof. reflexivity. Qed.

Lemma length_append (a b : string) :
  String.length (a ++ b) = (String.length a + String.length b)%nat.
Proof.
  induction a as [| x a IH]; [reflexivity |]. rewrite append_String. simpl. rewrite IH.
  reflexivity.
Qed.

Lemma occurs_append c (a b : string) : occurs c (a ++ b) = occurs c a || occurs c b.
Proof.
  induction a as [| x a IH]; [reflexivity |]. rewrite append_String. simpl. rewrite IH.
  apply orb_assoc.
Qed.

(** *** split *)

Lemma split_not_nil sep s : split sep s <> [].
Proof.
  destruct s as [| c s]; simpl; [discriminate |].
  destruct (Ascii.eqb c sep); [discriminate |]. destruct (split sep s); discriminate.
Qed.

Lemma split_no_sep sep s : Forall (fun segment => occurs sep segment = false) (split sep s).
Proof.
  induction s as [| c s IH]; simpl.
  - repeat constructor.
  - destruct (Ascii.eqb c sep) eqn:Hc.
    + constructor; [reflexivity | exact IH].
    + destruct (split sep s) as [| first others];
        [repeat constructor; simpl; rewrite Hc; reflexivity |].
      inversion IH as [| ? ? Hfirst Hothers]; subst.
      constructor; [simpl; rewrite Hc, Hfirst; reflexivity | exact Hothers].
Qed.

Lemma split_one sep s : occurs sep s = false -> split sep s = [s].
Proof.
  induction s as [| c s IH]; simpl; [reflexivity |].
  intros H. apply orb_false_iff in H. destruct H as [Hc Hs].
  rewrite Hc, (IH Hs). reflexivity.
Qed.

Lemma split_through sep a rest :
  occurs sep a = false -> split sep (a ++ String sep rest) = a :: split sep rest.
Proof.
  induction a as [| c a IH]; intros H.
  - simpl. rewrite Ascii.eqb_refl. reflexivity.
  - simpl in H. apply orb_false_iff in H. destruct H as [Hc Ha].
    rewrite append_String. simpl. rewrite Hc, (IH Ha). reflexivity.
Qed.

Lemma split_concat sep line lines :
  Forall (fun l => occurs sep l = false) (line :: lines) ->
  split sep (String.concat (String sep EmptyString) (line :: lines)) = line :: lines.
Proof.
  revert line. induction lines as [| next lines IH]; intros line H.
  - inversion H; subst. simpl. apply split_one. assumption.
  - inversion H as [| ? ? Hline Hrest]; subst.
    change (String.concat (String sep "") (line :: next :: lines))
      with (line ++ String sep "" ++ String.concat (String sep "") (next :: lines))%string.
    change (String sep "" ++ String.concat (String sep "") (next :: lines))%string
      with (String sep (String.concat (String sep "") (next :: lines))).
    rewrite split_through by assumption. f_equal. apply IH. assumption.
Qed.

(** *** trim *)

Lemma trimStart_cases s :
  trimStart s = s \/ (String.length (trimStart s) < String.length s)%nat.
Proof.
  unfold trimStart. induction s as [| c s IH]; simpl; [left; reflexivity |].
  destruct (isWhiteSpace c); [right | left; reflexivity].
  destruct IH as [-> | IH]; lia.
Qed.

Lemma trimEnd_length s : (String.length (trimEnd s) <= String.length s)%nat.
Proof.
  induction s as [| c s IH]; simpl; [lia |].
  destruct (trimEnd s); [destruct (isWhiteSpace c) |]; simpl in *; lia.
Qed.

Lemma trim_fixed s : trim s = s <-> trimStart s = s /\ trimEnd s = s.
Proof.
  unfold trim. split.
  - intros H. destruct (trimStart_cases s) as [Hs | Hlt].
    + rewrite Hs in H. auto.
    + pose proof (trimEnd_length (trimStart s)) as Hle. rewrite H in Hle. lia.
  - intros [Hs He]. rewrite Hs. exact He.
Qed.

Lemma trimStart_clean s : trimStart (trimStart s) = trimStart s.
Proof.
  unfold trimStart. induction s as [| c s IH]; simpl; [reflexivity |].
  destruct (isWhiteSpace c) eqn:Hc; [exact IH |]. simpl. rewrite Hc. reflexivity.
Qed.

Lemma trimEnd_clean s : trimEnd (trimEnd s) = trimEnd s.
Proof.
  induction s as [| c s IH]; simpl; [reflexivity |].
  destruct (trimEnd s) as [| k kept] eqn:Hk.
  - destruct (isWhiteSpace c) eqn:Hc; [reflexivity |]. simpl. rewrite Hc. reflexivity.
  - change (trimEnd (String c (String k kept))) with
      (match trimEnd (String k kept) with
       | EmptyString => if isWhiteSpace c then EmptyString else String c EmptyString
       | kept' => String c kept'
       end).
    rewrite IH. reflexivity.
Qed.

(** A string that begins with something other than white space keeps its
    first character under [trimEnd]. *)
Lemma trimEnd_first c s :
  isWhiteSpace c = false -> exists kept, trimEnd (String c s) = String c kept.
Proof.
  intros Hc. simpl. destruct (trimEnd s); [rewrite Hc |]; eauto.
Qed.

Lemma trimStart_first s :
  trimStart s = s ->
  s = EmptyString \/ exists c s', s = String c s' /\ isWhiteSpace c = false.
Proof.
  destruct s as [| c s]; [left; reflexivity |]. unfold trimStart. simpl.
  destruct (isWhiteSpace c) eqn:Hc; [| right; eauto].
  intros H. pose proof (trimStart_cases s) as Hcases. unfold trimStart in Hcases.
  assert (Hlen : String.length (many isWhiteSpace s) = String.length (String c s))
    by (rewrite H; reflexivity).
  simpl in Hlen. destruct Hcases as [Heq | Hlt]; [rewrite Heq in Hlen |]; lia.
Qed.

Lemma trim_idempotent s : trim (trim s) = trim s.
Proof.
  apply trim_fixed. split; [| apply trimEnd_clean].
  unfold trim. destruct (trimStart_first (trimStart s) (trimStart_clean s))
    as [-> | [c [s' [-> Hc]]]]; [reflexivity |].
  destruct (trimEnd_first c s' Hc) as [kept ->].
  unfold trimStart. simpl. rewrite Hc. reflexivity.
Qed.

Lemma occurs_trimStart c s : occurs c (trimStart s) = true -> occurs c s = true.
Proof.
  unfold trimStart. induction s as [| x s IH]; simpl; [auto |].
  destruct (isWhiteSpace x); [| auto]. intros H. rewrite (IH H). apply orb_true_r.
Qed.

Lemma occurs_trimEnd c s : occurs c (trimEnd s) = true -> occurs c s = true.
Proof.
  induction s as [| x s IH]; simpl; [auto |].
  destruct (trimEnd s) as [| k kept].
  - destruct (isWhiteSpace x); simpl; [discriminate |]. rewrite orb_false_r. intros ->.
    reflexivity.
  - simpl in *. intros H. apply orb_true_iff in H. destruct H as [-> | H]; [reflexivity |].
    rewrite (IH H). apply orb_true_r.
Qed.

Lemma occurs_trim c s : occurs c s = false -> occurs c (trim s) = false.
Proof.
  intros H. destruct (occurs c (trim s)) eqn:Ht; [| reflexivity].
  apply occurs_trimEnd, occurs_trimStart in Ht. congruence.
Qed.

Lemma trimStart_append a rest :
  trimStart a = a -> a <> EmptyString -> trimStart (a ++ rest) = (a ++ rest)%string.
Proof.
  intros Ha Hne. destruct (trimStart_first a Ha) as [-> | [c [a' [-> Hc]]]]; [congruence |].
  rewrite append_String. unfold trimStart. simpl. rewrite Hc. reflexivity.
Qed.

Lemma trimEnd_append a t :
  trimEnd t = t -> t <> EmptyString -> trimEnd (a ++ t) = (a ++ t)%string.
Proof.
  intros Ht Hne. induction a as [| c a IH]; [exact Ht |].
  rewrite append_String. simpl. rewrite IH.
  destruct (a ++ t)%string eqn:Hat; [| reflexivity].
  destruct a as [| x a]; [change (t = EmptyString) in Hat; congruence |].
  rewrite append_String in Hat. discriminate.
Qed.

(** *** indexOf and substring *)

Lemma indexOfFrom_none c i s : occurs c s = false -> indexOfFrom c i s = -1.
Proof.
  revert i. induction s as [| x s IH]; intros i; simpl; [reflexivity |].
  intros H. apply orb_false_iff in H. destruct H as [Hx Hs]. rewrite Hx. apply IH, Hs.
Qed.

Lemma indexOfFrom_split c i s :
  indexOfFrom c i s = -1 \/
  exists before after,
    s = (before ++ String c after)%string /\ occurs c before = false /\
    indexOfFrom c i s = i + Z.of_nat (String.length before).
Proof.
  revert i. induction s as [| x s IH]; intros i; simpl; [left; reflexivity |].
  destruct (Ascii.eqb_spec x c) as [-> | Hne].
  - right. exists EmptyString, s. repeat split. simpl. lia.
  - destruct (IH (i + 1)) as [Hnone | [before [after [-> [Hocc Hidx]]]]]; [left; exact Hnone |].
    right. exists (String x before), after. rewrite append_String. split; [reflexivity |]. split.
    + simpl. rewrite Hocc. apply orb_false_iff. split; [| reflexivity].
      apply Ascii.eqb_neq. exact Hne.
    + rewrite Hidx. simpl String.length. lia.
Qed.

Lemma indexOfFrom_append c i before after :
  occurs c before = false ->
  indexOfFrom c i (before ++ String c after) = i + Z.of_nat (String.length before).
Proof.
  revert i. induction before as [| x before IH]; intros i H.
  - simpl. rewrite Ascii.eqb_refl. lia.
  - simpl in H. apply orb_false_iff in H. destruct H as [Hx Hb].
    rewrite append_String. simpl indexOfFrom. rewrite Hx, (IH _ Hb). simpl String.length. lia.
Qed.

Lemma substring_prefix (a rest : string) :
  String.substring 0 (String.length a) (a ++ rest) = a.
Proof.
  induction a as [| x a IH].
  - destruct rest; reflexivity.
  - rewrite append_String. simpl. rewrite IH. reflexivity.
Qed.

Lemma substring_suffix (a rest : string) :
  String.substring (String.length a) (String.length rest) (a ++ rest) = rest.
Proof.
  induction a as [| x a IH].
  - induction rest as [| y rest IHr]; [reflexivity |].
    change ("" ++ String y rest)%string with (String y rest) in *.
    change ("" ++ rest)%string with rest in IHr. simpl. simpl in IHr. rewrite IHr. reflexivity.
  - rewrite append_String. simpl. exact IH.
Qed.

Lemma occurs_substring c n m s :
  occurs c s = false -> occurs c (String.substring n m s) = false.
Proof.
  revert n m. induction s as [| x s IH]; intros n m H.
  - destruct n, m; reflexivity.
  - simpl in H. apply orb_false_iff in H. destruct H as [Hx Hs].
    destruct n as [| n]; simpl.
    + destruct m as [| m]; [reflexivity |]. simpl. rewrite Hx. apply IH, Hs.
    + apply IH, Hs.
Qed.

Lemma substring_before before c after :
  substring (before ++ String c after) 0 (Z.of_nat (String.length before)) = before.
Proof.
  unfold substring. rewrite length_append. simpl String.length.
  replace (Z.min (Z.max 0 0) _) with 0 by lia.
  replace (Z.min (Z.max (Z.of_nat (String.length before)) 0) _)
    with (Z.of_nat (String.length before)) by lia.
  replace (Z.to_nat (Z.min 0 (Z.of_nat (String.length before)))) with 0%nat by lia.
  replace (Z.to_nat (Z.max 0 (Z.of_nat (String.length before))
                     - Z.min 0 (Z.of_nat (String.length before))))
    with (String.length before) by lia.
  apply substring_prefix.
Qed.

Lemma substringFrom_after before c after :
  substringFrom (before ++ String c after) (Z.of_nat (String.length before) + 1) = after.
Proof.
  unfold substringFrom, substring. rewrite length_append. simpl String.length.
  set (n := String.length before). set (k := String.length after).
  replace (Z.min (Z.max (Z.of_nat n + 1) 0) (Z.of_nat (n + S k))) with (Z.of_nat (n + 1)) by lia.
  replace (Z.min (Z.max (Z.of_nat (n + S k)) 0) (Z.of_nat (n + S k))) with (Z.of_nat (n + S k))
    by lia.
  replace (Z.to_nat (Z.min (Z.of_nat (n + 1)) (Z.of_nat (n + S k)))) with (n + 1)%nat by lia.
  replace (Z.to_nat (Z.max (Z.of_nat (n + 1)) (Z.of_nat (n + S k))
                     - Z.min (Z.of_nat (n + 1)) (Z.of_nat (n + S k)))) with k by lia.
  replace (before ++ String c after)%string with ((before ++ String c "") ++ after)%string
    by (rewrite append_assoc; reflexivity).
  replace (n + 1)%nat with (String.length (before ++ String c "")).
  - apply substring_suffix.
  - rewrite length_append. reflexivity.
Qed.

End TextFacts.

Section ParseFacts.
Import Text.

Lemma parseLine_cases properties line :
  parseLine properties line = properties \/
  exists before after,
    trim line = (before ++ String ":" after)%string /\
    occurs ":" before = false /\
    trim line <> EmptyString /\ startsWith "#" (trim line) = false /\
    trim before <> EmptyString /\ trim after <> EmptyString /\
    parseLine properties line = properties ++ [mkProperty (trim before) (trim after)].
Proof.
  unfold parseLine. cbv zeta.
  destruct (String.eqb_spec (trim line) "") as [| Hne]; [left; reflexivity |].
  destruct (startsWith "#" (trim line)) eqn:Hhash; [left; reflexivity |]. cbn [orb].
  unfold indexOf.
  destruct (indexOfFrom_split ":" 0 (trim line)) as [-> | [before [after [Hline [Hocc Hidx]]]]];
    [left; reflexivity |].
  rewrite Hidx.
  replace (substring (trim line)) with (substring (before ++ String ":" after))
    by (rewrite Hline; reflexivity).
  replace (substringFrom (trim line)) with (substringFrom (before ++ String ":" after))
    by (rewrite Hline; reflexivity).
  replace (0 + Z.of_nat (String.length before) =? -1) with false
    by (symmetry; apply Z.eqb_neq; lia).
  rewrite Z.add_0_l, substring_before, substringFrom_after.
  destruct (String.eqb_spec (trim before) "") as [| Hk]; [left; reflexivity |].
  destruct (String.eqb_spec (trim after) "") as [| Ht]; [left; reflexivity |].
  right. exists before, after. cbn [negb andb]. auto 10.
Qed.

Lemma parseLine_wellFormed properties line :
  occurs "010" line = false ->
  Forall wellFormed properties -> Forall wellFormed (parseLine properties line).
Proof.
  intros Hline Hwf.
  destruct (parseLine_cases properties line)
    as [-> | [before [after [Htrim [Hocc [Hne [Hhash [Hk [Ht ->]]]]]]]]]; [exact Hwf |].
  apply Forall_app. split; [exact Hwf |]. constructor; [| constructor].
  assert (Hlf : occurs "010" (trim line) = false) by (apply occurs_trim, Hline).
  rewrite Htrim, occurs_append in Hlf. apply orb_false_iff in Hlf. destruct Hlf as [Hlfb Hlfa].
  simpl in Hlfa.
  unfold wellFormed. cbn [key template].
  split; [exact Hk |]. split; [exact Ht |].
  split; [apply trim_idempotent |]. split; [apply trim_idempotent |].
  split; [apply occurs_trim, Hocc |]. split; [| split; apply occurs_trim; assumption].
  (* the key begins as the trimmed line does *)
  assert (Hstart : trimStart (trim line) = trim line).
  { pose proof (trim_idempotent line) as Hi. apply trim_fixed in Hi. apply Hi. }
  destruct (trimStart_first _ Hstart) as [He | [c [s' [Hs Hc]]]]; [congruence |].
  rewrite Hs in Hhash, Htrim. simpl in Hhash.
  destruct before as [| b before].
  - exfalso. apply Hk. reflexivity.
  - rewrite append_String in Htrim. injection Htrim as <- _.
    unfold trim, trimStart. simpl many. rewrite Hc.
    destruct (trimEnd_first c before Hc) as [kept ->]. simpl. exact Hhash.
Qed.

Lemma fold_parseLine_wellFormed lines : forall properties,
  Forall (fun line => occurs "010" line = false) lines ->
  Forall wellFormed properties -> Forall wellFormed (fold_left parseLine lines properties).
Proof.
  induction lines as [| line lines IH]; intros properties Hlines Hwf; [exact Hwf |].
  inversion Hlines; subst. simpl. apply IH; [assumption |].
  apply parseLine_wellFormed; assumption.
Qed.

(** X22.  Whatever text the settings hold, every property that
    [parseMetadataProperties] returns has a key and a template that are not
    empty and carry no white space at either end; the key holds no colon and
    does not begin with [#]; and neither holds a line feed. *)
Theorem parsed_properties_are_well_formed config :
  Forall wellFormed (parseMetadataProperties config).
Proof.
  unfold parseMetadataProperties. apply fold_parseLine_wellFormed; [| constructor].
  apply split_no_sep.
Qed.

Lemma parseLine_renderLine properties p :
  wellFormed p -> parseLine properties (renderLine p) = properties ++ [p].
Proof.
  intros [Hk [Ht [Hkt [Htt [Hcolon [Hhash _]]]]]].
  destruct p as [k t]. cbn [key template] in *. unfold renderLine. cbn [key template].
  apply trim_fixed in Hkt, Htt. destruct Hkt as [Hks Hke], Htt as [Hts Hte].
  assert (Hline : trim (k ++ ": " ++ t) = (k ++ ": " ++ t)%string).
  { apply trim_fixed. split.
    - apply trimStart_append; assumption.
    - replace (k ++ ": " ++ t)%string with ((k ++ ": ") ++ t)%string
        by (rewrite append_assoc; reflexivity).
      apply trimEnd_append; assumption. }
  unfold parseLine. cbv zeta. rewrite Hline.
  destruct (trimStart_first k Hks) as [-> | [c [k' [-> Hc]]]]; [congruence |].
  replace (String.eqb (String c k' ++ ": " ++ t) "") with false by reflexivity.
  rewrite append_String. cbn [startsWith]. simpl in Hhash. rewrite Hhash. cbn [orb].
  rewrite <- append_String.
  change (String c k' ++ ": " ++ t)%string with (String c k' ++ String ":" (" " ++ t))%string.
  unfold indexOf. rewrite indexOfFrom_append by assumption.
  replace (0 + Z.of_nat (String.length (String c k')) =? -1) with false
    by (symmetry; apply Z.eqb_neq; lia).
  rewrite Z.add_0_l, substring_before, substringFrom_after.
  assert (Hkey : trim (String c k') = String c k') by (apply trim_fixed; auto).
  assert (Htemplate : trim (" " ++ t) = t).
  { unfold trim. change (trimStart (" " ++ t)) with (trimStart t). rewrite Hts. exact Hte. }
  rewrite Hkey, Htemplate.
  replace (String.eqb (String c k') "") with false by reflexivity.
  destruct (String.eqb_spec t "") as [| _]; [congruence |]. reflexivity.
Qed.

Lemma fold_parseLine_render properties : forall acc,
  Forall wellFormed properties ->
  fold_left parseLine (List.map renderLine properties) acc = acc ++ properties.
Proof.
  induction properties as [| p properties IH]; intros acc Hwf; simpl.
  - rewrite app_nil_r. reflexivity.
  - inversion Hwf; subst. rewrite parseLine_renderLine by assumption.
    rewrite IH by assumption. rewrite <- app_assoc. reflexivity.
Qed.

Lemma renderLine_one_line p : wellFormed p -> occurs "010" (renderLine p) = false.
Proof.
  intros [_ [_ [_ [_ [_ [_ [Hk Ht]]]]]]]. unfold renderLine.
  rewrite !occurs_append, Hk, Ht. reflexivity.
Qed.

(** X23.  Writing well-formed properties one per line as [key: template]
    and parsing the text gives the same properties back, in the same order
    and with their repetitions. *)
Theorem parse_render properties :
  Forall wellFormed properties ->
  parseMetadataProperties (render properties) = properties.
Proof.
  intros Hwf. unfold parseMetadataProperties, render.
  destruct properties as [| p properties]; [reflexivity |].
  change (List.map renderLine (p :: properties))
    with (renderLine p :: List.map renderLine properties).
  rewrite split_concat.
  - apply (fold_parseLine_render (p :: properties) [] Hwf).
  - change (renderLine p :: List.map renderLine properties)
      with (List.map renderLine (p :: properties)).
    apply List.Forall_forall. intros line Hline. apply in_map_iff in Hline.
    destruct Hline as [q [<- Hq]]. apply renderLine_one_line.
    rewrite List.Forall_forall in Hwf. apply Hwf, Hq.
Qed.

End ParseFacts.

Lemma parse_render_witness :
  parseMetadataProperties (render [mkProperty "time" "{HH:mm}"; mkProperty "year" "{YYYY}"])
  = [mkProperty "time" "{HH:mm}"; mkProperty "year" "{YYYY}"].
Proof.
  apply (parse_render [mkProperty "time" "{HH:mm}"; mkProperty "year" "{YYYY}"]).
  repeat constructor; try discriminate.
Defined.

(** The four properties of the default settings. *)
Example default_properties :
  parseMetadataProperties defaultMetadataProperties
  = [mkProperty "date" "{YYYY-MM-DD}"; mkProperty "week" "{WYYYY}-W{WW}";
     mkProperty "month" "{MM}"; mkProperty "year" "{YYYY}"].
Proof. reflexivity. Qed.

(** ** The metadata written into a daily note *)

Section MetadataFacts.
Variable LocalTZA : Z -> bool -> Z.
Variable Value : Type.
Variable replaceTemplateTokens : string -> Moment -> Value.

Lemma setProperty_lookup (frontmatter : gmap string Value) name value name' :
  setProperty Value frontmatter name value !! name' =
  if String.eqb name name' && negb (String.eqb name' "__proto__") then Some value
  else frontmatter !! name'.
Proof.
  unfold setProperty.
  destruct (String.eqb_spec name "__proto__") as [-> | Hproto].
  - destruct (String.eqb_spec "__proto__" name') as [<- | _]; reflexivity.
  - destruct (String.eqb_spec name name') as [<- | Hne].
    + rewrite lookup_insert_eq.
      destruct (String.eqb_spec name "__proto__"); [contradiction | reflexivity].
    + rewrite lookup_insert_ne by assumption. reflexivity.
Qed.

Lemma writeProperties_lookup namespace properties fileDate frontmatter name :
  writeProperties Value replaceTemplateTokens namespace properties fileDate frontmatter !! name =
  match written replaceTemplateTokens namespace properties fileDate name with
  | Some value => Some value
  | None => frontmatter !! name
  end.
Proof.
  unfold writeProperties, written.
  induction properties as [| p properties IH] using rev_ind.
  - simpl. destruct (String.eqb name "__proto__"); reflexivity.
  - rewrite fold_left_app, rev_app_distr. cbn [fold_left rev app List.find].
    rewrite setProperty_lookup, IH.
    destruct (String.eqb (namespace ++ key p) name); cbn [andb];
      destruct (String.eqb name "__proto__"); reflexivity.
Qed.

Lemma written_Some namespace properties fileDate name value :
  written replaceTemplateTokens namespace properties fileDate name = Some value ->
  exists p, In p properties /\ name = (namespace ++ key p)%string /\
            value = replaceTemplateTokens (template p) fileDate.
Proof.
  unfold written. destruct (String.eqb name "__proto__"); [discriminate |].
  destruct (List.find _ (rev properties)) as [p |] eqn:Hfind; [| discriminate].
  intros [= <-]. apply find_some in Hfind. destruct Hfind as [Hin Heq].
  exists p. split; [apply in_rev, Hin |]. split; [| reflexivity].
  symmetry. apply String.eqb_eq, Heq.
Qed.

(** X24.  [updateDailyNoteMetadata] writes nothing when the feature is off,
    the file is no daily note, or no property is configured.  Otherwise the
    frontmatter callback only writes names made of the namespace and a
    configured key, with the value of that property's template for the date
    of the file; every other name keeps what it had; and running the callback
    a second time changes nothing. *)
Theorem metadata_stays_in_namespace settings timewalkService file :
  (enableAutoMetadata settings = false \/
   getDailyNoteDate LocalTZA timewalkService file = None \/
   parseMetadataProperties (metadataProperties settings) = [] ->
   updateDailyNoteMetadata LocalTZA Value replaceTemplateTokens settings timewalkService file
   = None) /\
  (forall callback,
     updateDailyNoteMetadata LocalTZA Value replaceTemplateTokens settings timewalkService file
     = Some callback ->
     (forall frontmatter name value,
        callback frontmatter !! name = Some value ->
        frontmatter !! name = Some value \/
        exists p fileDate,
          In p (parseMetadataProperties (metadataProperties settings)) /\
          getDailyNoteDate LocalTZA timewalkService file = Some fileDate /\
          name = (metadataNamespace settings ++ key p)%string /\
          value = replaceTemplateTokens (template p) fileDate) /\
     (forall frontmatter name,
        (forall p, In p (parseMetadataProperties (metadataProperties settings)) ->
                   name <> (metadataNamespace settings ++ key p)%string) ->
        callback frontmatter !! name = frontmatter !! name) /\
     (forall frontmatter, callback (callback frontmatter) = callback frontmatter)).
Proof.
  unfold updateDailyNoteMetadata. split.
  - intros [-> | [-> | ->]]; [reflexivity | |].
    + destruct (enableAutoMetadata settings); reflexivity.
    + destruct (enableAutoMetadata settings); [| reflexivity]. simpl.
      destruct (getDailyNoteDate LocalTZA timewalkService file); reflexivity.
  - intros callback. destruct (enableAutoMetadata settings); [| discriminate]. cbn [negb].
    destruct (getDailyNoteDate LocalTZA timewalkService file) as [fileDate |]; [| discriminate].
    cbv zeta. destruct (Z.of_nat (length _) =? 0); [discriminate |].
    intros [= <-]. split; [| split].
    + intros frontmatter name value. rewrite writeProperties_lookup.
      destruct (written replaceTemplateTokens _ _ fileDate name) as [v |] eqn:Hw;
        [| left; assumption].
      intros [= ->]. right. apply written_Some in Hw. destruct Hw as [p [Hp [Hn Hv]]].
      exists p, fileDate. auto.
    + intros frontmatter name Hout. rewrite writeProperties_lookup.
      destruct (written replaceTemplateTokens _ _ fileDate name) as [v |] eqn:Hw;
        [| reflexivity].
      apply written_Some in Hw. destruct Hw as [p [Hp [Hn _]]]. destruct (Hout p Hp Hn).
    + intros frontmatter. apply map_eq. intros name. rewrite !writeProperties_lookup.
      destruct (written replaceTemplateTokens _ _ fileDate name); reflexivity.
Qed.

End MetadataFacts.
(** ** The navbars of the plugin *)

Section NavbarFacts.
Variable Navbar : Type.

Lemma reachable_idsBelowNext (this : Navbars Navbar) :
  reachable this -> idsBelowNext this.
Proof.
  induction 1 as [| newNavbar this _ [Hrange IH] | removeChild this id _ [Hrange IH]].
  - split; [simpl; lia |]. intros id [v Hv]. simpl in Hv. rewrite lookup_empty in Hv. discriminate.
  - unfold createNavbar. cbv zeta.
    assert (Hinc : 0 <= increment (nextNavbarId Navbar this) <= 2 ^ 53 /\
                   (nextNavbarId Navbar this < increment (nextNavbarId Navbar this)
                    \/ increment (nextNavbarId Navbar this) = 2 ^ 53)).
    { unfold increment. destruct (Z.ltb_spec (nextNavbarId Navbar this) (2 ^ 53)); lia. }
    assert (Hold : forall id, is_Some (navbars Navbar this !! id) ->
              exists n, id = pretty n /\ 0 <= n /\
                        (n < increment (nextNavbarId Navbar this)
                         \/ increment (nextNavbarId Navbar this) = 2 ^ 53)).
    { intros id Hid. destruct (IH id Hid) as [n [Hn [Hpos Hlt]]]. exists n. repeat split; auto.
      unfold increment. destruct (Z.ltb_spec (nextNavbarId Navbar this) (2 ^ 53)); lia. }
    destruct (newNavbar (pretty (nextNavbarId Navbar this))) as [navbar | e];
      unfold idsBelowNext; cbn [fst snd navbars nextNavbarId].
    + split; [apply Hinc |]. intros id Hid.
      destruct (decide (pretty (nextNavbarId Navbar this) = id)) as [<- | Hne].
      * exists (nextNavbarId Navbar this). split; [reflexivity |]. split; [lia | apply Hinc].
      * rewrite lookup_insert_ne in Hid by assumption. apply Hold, Hid.
    + split; [apply Hinc | exact Hold].
  - unfold removeNavbar. destruct (navbars Navbar this !! id) as [navbar |] eqn:Hid;
      [| split; assumption].
    destruct (removeChild navbar); [| split; assumption].
    unfold idsBelowNext. cbn [fst snd navbars nextNavbarId]. split; [exact Hrange |].
    intros id' Hid'. apply IH.
    destruct (decide (id = id')) as [<- | Hne].
    + rewrite lookup_delete_eq in Hid'. destruct Hid' as [? ?]. discriminate.
    + rewrite lookup_delete_ne in Hid' by assumption. exact Hid'.
Qed.

(** X25.  While the counter is below 2^53, [createNavbar] registers the new
    navbar under an id that no navbar is registered under, and leaves every
    other id as it was: a navbar is never replaced by a later one. *)
Theorem navbar_ids_are_fresh newNavbar (this : Navbars Navbar) navbar :
  reachable this ->
  nextNavbarId Navbar this < 2 ^ 53 ->
  fst (createNavbar Navbar newNavbar this) = Return navbar ->
  exists id,
    getNavbar Navbar this id = None /\
    getNavbar Navbar (snd (createNavbar Navbar newNavbar this)) id = Some navbar /\
    forall id', id' <> id ->
      getNavbar Navbar (snd (createNavbar Navbar newNavbar this)) id'
      = getNavbar Navbar this id'.
Proof.
  intros Hreach Hnext Hcreate. apply reachable_idsBelowNext in Hreach.
  destruct Hreach as [Hrange Hids].
  exists (pretty (nextNavbarId Navbar this)). unfold getNavbar, createNavbar in *. cbv zeta in *.
  destruct (newNavbar (pretty (nextNavbarId Navbar this))) as [created | e];
    [| discriminate].
  cbn [fst] in Hcreate. injection Hcreate as ->. cbn [fst snd navbars nextNavbarId].
  split; [| split].
  - destruct (navbars Navbar this !! pretty (nextNavbarId Navbar this)) as [v |] eqn:Hv;
      [| reflexivity].
    destruct (Hids _ (mk_is_Some _ _ Hv)) as [n [Hn [Hpos Hlt]]].
    apply (inj pretty) in Hn. lia.
  - apply lookup_insert_eq.
  - intros id' Hne. apply lookup_insert_ne. congruence.
Qed.

(** X26.  [removeNavbar] on an id that is not registered throws a
    [TypeError] and changes nothing; so after a removal that went through,
    the id is not registered and removing it again throws. *)
Theorem navbar_removed_once removeChild (this : Navbars Navbar) id :
  (getNavbar Navbar this id = None ->
   exists message,
     removeNavbar Navbar removeChild this id = (Throw (TypeError message), this)) /\
  (fst (removeNavbar Navbar removeChild this id) = Return tt ->
   getNavbar Navbar (snd (removeNavbar Navbar removeChild this id)) id = None /\
   exists e,
     fst (removeNavbar Navbar removeChild (snd (removeNavbar Navbar removeChild this id)) id)
     = Throw e).
Proof.
  unfold getNavbar, removeNavbar. split.
  - intros ->. eexists. reflexivity.
  - destruct (navbars Navbar this !! id) as [navbar |]; [| discriminate].
    destruct (removeChild navbar); [| discriminate]. intros _.
    cbn [fst snd navbars nextNavbarId].
    rewrite lookup_delete_eq. split; [reflexivity |]. eexists. reflexivity.
Qed.

End NavbarFacts.

Lemma navbar_ids_are_fresh_witness :
  exists id,
    getNavbar string (mkNavbars string ∅ 0) id = None /\
    getNavbar string (snd (createNavbar string (fun id => Return id) (mkNavbars string ∅ 0))) id
    = Some "0"%string /\
    forall id', id' <> id ->
      getNavbar string (snd (createNavbar string (fun id => Return id) (mkNavbars string ∅ 0))) id'
      = getNavbar string (mkNavbars string ∅ 0) id'.
Proof.
  apply (navbar_ids_are_fresh string (fun id => Return id) (mkNavbars string ∅ 0) "0"%string).
  - apply reachable_start.
  - reflexivity.
  - reflexivity.
Defined.
